(** * Gmail watch renewal: the Watch Scanner and the Renewal Worker

    A shallow embedding of the two Cloud Run functions of the repository,

      - [watch-query-function/main.py]    (the Scanner), and
      - [renewal-worker-function/main.py] (the Worker),

    as computations in a small state-and-exception monad, followed by the
    properties of the watch-renewal workflow proved about them.

    What lives outside the repository (the environment variables, the
    PostgreSQL server behind psycopg2, the Gmail API, the Pub/Sub broker, the
    clock and the time zone of the process) is a [world]: a record of
    answers the outside gives.  What the
    functions do to the outside is recorded in the [state]: the committed
    tables, the operations issued on database connections, the Gmail calls
    made, the messages the broker acknowledged, and the log. *)

From Stdlib Require Import ZArith List Sorted Permutation Lia Ascii String.
From stdpp Require Import base gmap strings list pretty.

#[local] Set Warnings "-register-all".
#[local] Open Scope Z_scope.

(** ** Python values *)

(** The values that cross the functions' boundaries: what [json.loads]
    produces, what psycopg2 hands back for a column, what the Gmail client
    returns.  JSON numbers with a fraction do not occur in any of the
    messages of this system and are not represented. *)
Inductive pyval : Type :=
| PNone
| PBool (b : bool)
| PInt (z : Z)
| PStr (s : string)
| PDatetime (t : Z)   (* a naive datetime, in microseconds since the epoch *)
| PList (l : list pyval)
| PDict (d : gmap string pyval).

(** Python's truth value of an object ([if x], [not x], [all]). *)
Definition truthy (v : pyval) : bool :=
  match v with
  | PNone => false
  | PBool b => b
  | PInt z => negb (z =? 0)
  | PStr s => negb (String.eqb s "")
  | PDatetime _ => true
  | PList l => match l with [] => false | _ => true end
  | PDict d => negb (bool_decide (d = ∅))
  end.

(** [d.get(k)] on a dictionary: [None] when the key is absent. *)
Definition dict_get (d : gmap string pyval) (k : string) : pyval :=
  default PNone (d !! k).

(** [k in d] on a dictionary. *)
Definition dict_has (d : gmap string pyval) (k : string) : bool :=
  bool_decide (is_Some (d !! k)).

(** ** Exceptions *)

(** Every exception of the model is an instance of Python's [Exception];
    the classes that the source names, or that the operations it uses raise,
    are told apart. *)
Inductive exn_class : Type :=
| ValueError | TypeError | AttributeError | KeyError | OverflowError
| HttpError          (* googleapiclient.errors.HttpError *)
| DatabaseError      (* psycopg2.Error and its subclasses *)
| PubSubError        (* google.api_core / publish future failures *)
| OtherError.        (* any other subclass of Exception *)

Record exn : Type := Exn { exn_cls : exn_class; exn_str : string }.

(** ** Logging *)

Inductive log_level : Type := INFO | WARNING | ERROR.

(** One call of [logger.info], [logger.warning] or [logger.error]: the text
    of the format string with a brace pair for each interpolated value, and
    the interpolated values in order. *)
Record log_record : Type :=
  LogRecord { log_lvl : log_level; log_fmt : string; log_args : list pyval }.

(** ** The store *)

(** A row of [gmail_watches], the table the Scanner reads.  Column values
    are the Python values psycopg2 maps them to; [w_expiration_time] is a
    timestamp in microseconds since the epoch, [None] for SQL NULL. *)
Record watch_row : Type := WatchRow {
  w_user_id : pyval;
  w_email : pyval;
  w_watch_id : pyval;
  w_expiration_time : option Z;
  w_is_active : bool
}.

(** A row of [gmail_mailbox_watches], the table the Worker updates. *)
Record mailbox_row : Type := MailboxRow {
  m_account_id : pyval;
  m_history_id : pyval;
  m_watch_expiration : option Z;
  m_is_active : bool
}.

(** What is asked of a database connection, in the order it is asked. *)
Inductive db_op : Type :=
| DbConnect (url : option string)
| DbSelectExpiring (threshold : Z)
| DbUpdateWatch (history_id : pyval) (expiration_dt : Z) (account_id : pyval)
| DbCommit
| DbClose.

(** ** The Gmail API *)

Record credentials : Type := Credentials {
  token : pyval;
  refresh_token : pyval;
  token_uri : string;
  client_id : option string;
  client_secret : option string;
  scopes : list string
}.

(** One [service.users().watch(userId=..., body=...).execute()]. *)
Record watch_call : Type := WatchCall {
  call_credentials : credentials;
  call_userId : string;
  call_body : gmap string pyval
}.

(** ** The world and the state *)

Record world : Type := World {
  (** [os.environ] *)
  environ : gmap string string;
  (** the successive readings of [datetime.utcnow()], in microseconds *)
  utc_clock : nat -> Z;
  (** [datetime.isoformat] of a timestamp column value *)
  isoformat : Z -> string;
  (** [int(s)] for a string [s] *)
  int_of_str : string -> exn + Z;
  (** the offset of the process's local time zone from UTC, in
      microseconds, at the instant given in milliseconds since the epoch
      (zero at every instant when the process runs in UTC) *)
  utc_offset : Z -> Z;
  (** [datetime.fromtimestamp(ms / 1000)] outside the range where the model
      computes it (see [timestamp_of_ms]) *)
  fromtimestamp_far : Z -> exn + Z;
  (** the text of the [OverflowError] that [timedelta(hours=h)] raises for
      an [h] beyond its range (it varies with the size of [h]) *)
  timedelta_overflow_text : Z -> string;
  (** [psycopg2.connect(url)]: the error it raises, if any *)
  pg_connect : option string -> option exn;
  (** [cursor.execute] of a statement: the error it raises, if any *)
  pg_execute : db_op -> option exn;
  (** [conn.commit()]: the error it raises, if any *)
  pg_commit : option exn;
  (** whether the server finds [account_id = %s] true for the value a row
      holds in the column and the parameter the driver sent: the outcome
      depends on the column's type and on the server's coercion of the
      parameter's literal, which the repository does not fix *)
  pg_account_eq : pyval -> pyval -> bool;
  (** of two rows of a result with the same [expiration_time], whether the
      server returns the first before the second: [ORDER BY] leaves the
      order of ties to the server *)
  pg_tie_before : watch_row -> watch_row -> bool;
  (** [build('gmail', 'v1', credentials=...)]: the error it raises, if any *)
  gmail_build : credentials -> option exn;
  (** the Gmail API's answer to a watch call: the parsed response, or the
      error [execute()] raises *)
  gmail_watch : watch_call -> exn + pyval;
  (** [pubsub_v1.PublisherClient()]: the error it raises, if any *)
  pubsub_client : option exn;
  (** [json.dumps(message)], [publisher.publish(topic, data)] and
      [future.result()] for the n-th message of an invocation: the message
      id, or the error raised *)
  pubsub_publish : nat -> string -> gmap string pyval -> exn + string
}.

Record state : Type := State {
  (** committed content of [gmail_watches] *)
  gmail_watches : list watch_row;
  (** committed content of [gmail_mailbox_watches] *)
  gmail_mailbox_watches : list mailbox_row;
  (** the local variable [conn] of [update_watch_in_database]: unbound, or
      the connection with the content of [gmail_mailbox_watches] as its open
      transaction sees it *)
  conn : option (list mailbox_row);
  (** operations issued on database connections, oldest first *)
  db_ops : list db_op;
  (** calls of the Gmail watch operation, oldest first *)
  api_calls : list watch_call;
  (** messages the broker acknowledged, oldest first, each with its topic *)
  queue : list (string * gmap string pyval);
  (** log records, oldest first *)
  logs : list log_record;
  (** number of clock readings so far *)
  ticks : nat
}.

(** ** The monad: state passing with exceptions *)

Definition M (A : Type) : Type := state -> (exn + A) * state.

Definition ret {A} (a : A) : M A := fun s => (inr a, s).

Definition raise {A} (e : exn) : M A := fun s => (inl e, s).

Definition bind {A B} (m : M A) (k : A -> M B) : M B :=
  fun s =>
    match m s with
    | (inl e, s') => (inl e, s')
    | (inr a, s') => k a s'
    end.

Declare Scope py_scope.
Delimit Scope py_scope with py.
Notation "x <- c1 ;; c2" := (bind c1 (fun x => c2))
  (at level 100, c1 at next level, right associativity) : py_scope.
Notation "c1 ;; c2" := (bind c1 (fun _ => c2))
  (at level 100, right associativity) : py_scope.
#[local] Open Scope py_scope.

(** [try: body / except Exception as e: handler e] *)
Definition try_except {A} (body : M A) (handler : exn -> M A) : M A :=
  fun s =>
    match body s with
    | (inl e, s') => handler e s'
    | (inr a, s') => (inr a, s')
    end.

(** [try: body / finally: cleanup]: the cleanup runs on both exits; the
    outcome of the body stands unless the cleanup itself raises. *)
Definition try_finally {A} (body : M A) (cleanup : M unit) : M A :=
  fun s =>
    match body s with
    | (r, s') =>
        match cleanup s' with
        | (inl e, s'') => (inl e, s'')
        | (inr _, s'') => (r, s'')
        end
    end.

(** Reading one component of the state. *)
Definition gets {A} (f : state -> A) : M A := fun s => (inr (f s), s).

Definition modify (f : state -> state) : M unit := fun s => (inr tt, f s).

(** [for x in l: f x] *)
Fixpoint for_each {A} (l : list A) (f : A -> M unit) : M unit :=
  match l with
  | [] => ret tt
  | x :: l' => f x ;; for_each l' f
  end.

(** A fallible library call whose outcome the world decides. *)
Definition lift_error (o : option exn) : M unit :=
  match o with
  | Some e => raise e
  | None => ret tt
  end.

Definition lift_sum {A} (r : exn + A) : M A :=
  match r with
  | inl e => raise e
  | inr a => ret a
  end.

(** ** Effects shared by the two functions *)

Definition set_logs (x : list log_record) (s : state) : state :=
  State (gmail_watches s) (gmail_mailbox_watches s) (conn s) (db_ops s)
        (api_calls s) (queue s) x (ticks s).

Definition set_conn (x : option (list mailbox_row)) (s : state) : state :=
  State (gmail_watches s) (gmail_mailbox_watches s) x (db_ops s)
        (api_calls s) (queue s) (logs s) (ticks s).

Definition set_db_ops (x : list db_op) (s : state) : state :=
  State (gmail_watches s) (gmail_mailbox_watches s) (conn s) x
        (api_calls s) (queue s) (logs s) (ticks s).

Definition set_api_calls (x : list watch_call) (s : state) : state :=
  State (gmail_watches s) (gmail_mailbox_watches s) (conn s) (db_ops s)
        x (queue s) (logs s) (ticks s).

Definition set_queue (x : list (string * gmap string pyval)) (s : state) : state :=
  State (gmail_watches s) (gmail_mailbox_watches s) (conn s) (db_ops s)
        (api_calls s) x (logs s) (ticks s).

Definition set_ticks (x : nat) (s : state) : state :=
  State (gmail_watches s) (gmail_mailbox_watches s) (conn s) (db_ops s)
        (api_calls s) (queue s) (logs s) x.

Definition set_mailbox (x : list mailbox_row) (s : state) : state :=
  State (gmail_watches s) x (conn s) (db_ops s)
        (api_calls s) (queue s) (logs s) (ticks s).

(** [logger.info(...)], [logger.warning(...)], [logger.error(...)] *)
Definition log (lvl : log_level) (fmt : string) (args : list pyval) : M unit :=
  modify (fun s => set_logs (logs s ++ [LogRecord lvl fmt args]) s).

(** [os.getenv(k)] *)
Definition getenv (w : world) (k : string) : option string := environ w !! k.

(** Truth value of what [os.getenv] returned: [None] and the empty string
    are false. *)
Definition env_truthy (o : option string) : bool :=
  match o with
  | Some v => negb (String.eqb v "")
  | None => false
  end.

(** An optional string interpolated in an f-string. *)
Definition fstr (o : option string) : string :=
  match o with
  | Some v => v
  | None => "None"
  end.

Definition record_db_op (op : db_op) : M unit :=
  modify (fun s => set_db_ops (db_ops s ++ [op]) s).

(** [datetime.utcnow()] *)
Definition utcnow (w : world) : M Z :=
  fun s => (inr (utc_clock w (ticks s)), set_ticks (S (ticks s)) s).

(** ** The Renewal Worker ([renewal-worker-function/main.py]) *)

(** A field of the Pub/Sub event, described by what
    [json.loads(base64.b64decode(field).decode('utf-8'))] makes of it: the
    parsed value, or the error one of the three decoding steps raises. *)
Definition wire : Type := exn + pyval.

(** [v.get] exists on dictionaries only. *)
Definition as_dict (v : pyval) : M (gmap string pyval) :=
  match v with
  | PDict d => ret d
  | _ => raise (Exn AttributeError "object has no attribute 'get'")
  end.

(** [repr(k)] for a key made of letters, digits and underscores, as are
    all the keys the source subscripts with: the key between single quotes. *)
Definition key_repr (k : string) : string := "'" +:+ k +:+ "'".

(** [d[k]]: a missing key raises [KeyError(k)], whose [str] is [repr(k)]. *)
Definition getitem (d : gmap string pyval) (k : string) : M pyval :=
  match d !! k with
  | Some v => ret v
  | None => raise (Exn KeyError (key_repr k))
  end.

(** [int(v)]: the integer, or the error raised. *)
Definition int_value (w : world) (v : pyval) : exn + Z :=
  match v with
  | PInt z => inr z
  | PBool b => inr (if b then 1 else 0)
  | PStr s => int_of_str w s
  | _ => inl (Exn TypeError "int() argument must be a string, a bytes-like object or a real number")
  end.

Definition py_int (w : world) (v : pyval) : M Z := lift_sum (int_value w v).

(** [datetime.fromtimestamp(ms / 1000)]: the naive datetime that shows the
    instant in the process's local time zone, as a count of microseconds
    (the microseconds between 1970-01-01 00:00:00 and the date and time it
    shows).  The division is Python's float division: for
    [0 <= ms < 2^33 * 1000] (instants before the year 2242) the double
    nearest to [ms / 1000] is within half a microsecond of it, and the
    datetime built from it shows the instant [1000 * ms] microseconds
    exactly, moved by the zone's offset at that instant.  Beyond that range
    the result depends on the rounding of doubles and on the platform's
    limits, and is the world's. *)
Definition timestamp_of_ms (w : world) (ms : Z) : exn + Z :=
  if (0 <=? ms) && (ms <? 8589934592000)
  then inr (ms * 1000 + utc_offset w ms)
  else fromtimestamp_far w ms.

Definition fromtimestamp_ms (w : world) (ms : Z) : M Z :=
  lift_sum (timestamp_of_ms w ms).

(** [psycopg2.connect(url)], assigned to [conn]. *)
Definition psycopg2_connect (w : world) (url : option string) : M unit :=
  record_db_op (DbConnect url) ;;
  lift_error (pg_connect w url) ;;
  modify (fun s => set_conn (Some (gmail_mailbox_watches s)) s).

(** [WHERE account_id = %s AND is_active = true]: the comparison of the
    column with the parameter is the server's. *)
Definition update_matches (w : world) (account_id : pyval) (r : mailbox_row) : bool :=
  pg_account_eq w (m_account_id r) account_id && m_is_active r.

(** [SET history_id = %s, watch_expiration = %s] on the rows that match. *)
Definition apply_update (w : world) (history_id : pyval) (expiration_dt : Z)
    (account_id : pyval) (r : mailbox_row) : mailbox_row :=
  if update_matches w account_id r
  then MailboxRow (m_account_id r) history_id (Some expiration_dt) (m_is_active r)
  else r.

(** [cursor.execute('UPDATE gmail_mailbox_watches ...', (history_id,
    expiration_dt, account_id))] on [conn]; the result is [cursor.rowcount]. *)
Definition execute_update (w : world) (history_id : pyval) (expiration_dt : Z)
    (account_id : pyval) : M Z :=
  let op := DbUpdateWatch history_id expiration_dt account_id in
  record_db_op op ;;
  lift_error (pg_execute w op) ;;
  c <- gets conn ;;
  match c with
  | None => raise (Exn OtherError "local variable 'conn' referenced before assignment")
  | Some txn =>
      modify (set_conn (Some (map (apply_update w history_id expiration_dt account_id) txn))) ;;
      ret (Z.of_nat (length (filter (update_matches w account_id) txn)))
  end.

(** [conn.commit()]: what the transaction sees becomes the table. *)
Definition conn_commit (w : world) : M unit :=
  record_db_op DbCommit ;;
  lift_error (pg_commit w) ;;
  modify (fun s => match conn s with
                   | Some txn => set_mailbox txn s
                   | None => s
                   end).

(** [conn.close()]: changes not committed are dropped with the connection. *)
Definition conn_close : M unit := record_db_op DbClose.

Definition gmail_scopes : list string :=
  [ "https://www.googleapis.com/auth/gmail.readonly";
    "https://www.googleapis.com/auth/gmail.send" ].

(** [service.users().watch(userId='me', body=watch_request).execute()] *)
Definition users_watch (w : world) (c : watch_call) : M pyval :=
  modify (fun s => set_api_calls (api_calls s ++ [c]) s) ;;
  lift_sum (gmail_watch w c).

(** [renew_gmail_watch(access_token, refresh_token)] *)
Definition renew_gmail_watch (w : world) (access_token refresh_token : pyval)
    : M (gmap string pyval) :=
  try_except
    (let project_id := getenv w "GCP_PROJECT_ID" in
     let email_reply_topic := getenv w "GCP_PUB_SUB_EMAIL_REPLY_TOPIC_ID" in
     let client_id := getenv w "GOOGLE_CLIENT_ID" in
     let client_secret := getenv w "GOOGLE_CLIENT_SECRET" in
     if negb (forallb env_truthy [project_id; client_id; client_secret])
     then raise (Exn ValueError "Missing required environment variables")
     else
       let credentials :=
         Credentials access_token refresh_token
                     "https://oauth2.googleapis.com/token"
                     client_id client_secret gmail_scopes in
       lift_error (gmail_build w credentials) ;;
       let watch_request : gmap string pyval :=
         {[ "labelIds" := PList [PStr "INBOX"];
            "labelFilterAction" := PStr "include" ]} in
       watch_request <-
         (if env_truthy email_reply_topic
          then
            let topic_name :=
              "projects/" +:+ fstr project_id +:+ "/topics/" +:+ fstr email_reply_topic in
            log INFO "Setting up Gmail watch with topic: {}" [PStr topic_name] ;;
            ret (<["topicName" := PStr topic_name]> watch_request)
          else
            log INFO "Setting up Gmail watch without topic (expiration monitoring only)" [] ;;
            ret watch_request) ;;
       result <- users_watch w (WatchCall credentials "me" watch_request) ;;
       log INFO "Gmail watch renewal successful: {}" [result] ;;
       r <- as_dict result ;;
       ret ({[ "success" := PBool true;
               "history_id" := dict_get r "historyId";
               "expiration" := dict_get r "expiration" ]} : gmap string pyval))
    (fun e =>
       match exn_cls e with
       | HttpError =>
           log ERROR "Gmail API error during renewal: {}" [PStr (exn_str e)] ;;
           ret ({[ "success" := PBool false;
                   "error" := PStr ("Gmail API error: " +:+ exn_str e) ]}
                : gmap string pyval)
       | _ =>
           log ERROR "Failed to renew Gmail watch: {}" [PStr (exn_str e)] ;;
           ret ({[ "success" := PBool false;
                   "error" := PStr ("Failed to renew Gmail watch: " +:+ exn_str e) ]}
                : gmap string pyval)
       end).

(** [update_watch_in_database(account_id, history_id, expiration_ms)] *)
Definition update_watch_in_database (w : world)
    (account_id history_id expiration_ms : pyval) : M unit :=
  (* a call starts with [conn] unbound in its frame *)
  modify (set_conn None) ;;
  try_finally
    (try_except
       (let database_url := getenv w "DATABASE_URL" in
        if negb (env_truthy database_url)
        then raise (Exn ValueError "Missing DATABASE_URL environment variable")
        else
          psycopg2_connect w database_url ;;
          ms <- py_int w expiration_ms ;;
          expiration_dt <- fromtimestamp_ms w ms ;;
          rowcount <- execute_update w history_id expiration_dt account_id ;;
          if 0 <? rowcount
          then
            conn_commit w ;;
            log INFO "Updated Gmail watch in database: account_id={}, history_id={}, expiration={}"
                [account_id; history_id; PDatetime expiration_dt]
          else
            log WARNING "No active Gmail watch found for account_id={}" [account_id])
       (fun e =>
          log ERROR "Failed to update watch in database: {}" [PStr (exn_str e)] ;;
          raise e))
    (c <- gets conn ;;
     match c with                 (* if 'conn' in locals() *)
     | Some _ => conn_close
     | None => ret tt
     end).

Definition required_fields : list string :=
  ["account_id"; "user_id"; "email"; "access_token"; "refresh_token"].

(** [renewal_worker_function(event, context)]; [context] is not used. *)
Definition renewal_worker_function (w : world) (event : gmap string wire) : M unit :=
  try_except
    (match event !! "data" with
     | None => log ERROR "No data in Pub/Sub message" []
     | Some data =>
         message <- lift_sum data ;;
         renewal_request <- as_dict message ;;
         log INFO "Processing Gmail watch renewal for user {} ({})"
             [dict_get renewal_request "user_id"; dict_get renewal_request "email"] ;;
         for_each required_fields
           (fun field =>
              if negb (dict_has renewal_request field)
              then raise (Exn ValueError ("Missing required field: " +:+ field))
              else ret tt) ;;
         access_token <- getitem renewal_request "access_token" ;;
         refresh_token <- getitem renewal_request "refresh_token" ;;
         renewal_result <- renew_gmail_watch w access_token refresh_token ;;
         if truthy (dict_get renewal_result "success")
         then
           account_id <- getitem renewal_request "account_id" ;;
           history_id <- getitem renewal_result "history_id" ;;
           expiration <- getitem renewal_result "expiration" ;;
           update_watch_in_database w account_id history_id expiration ;;
           user_id <- getitem renewal_request "user_id" ;;
           log INFO "Successfully renewed Gmail watch for user {}" [user_id]
         else
           user_id <- getitem renewal_request "user_id" ;;
           log ERROR "Failed to renew Gmail watch for user {}: {}"
               [user_id; dict_get renewal_result "error"]
     end)
    (fun e => log ERROR "Renewal worker function failed: {}" [PStr (exn_str e)]).

(** ** The Watch Scanner ([watch-query-function/main.py]) *)

(** What the entry point returns: [statusCode], and under [body] the object
    handed to [json.dumps]. *)
Record response : Type := Response {
  statusCode : Z;
  body : gmap string pyval
}.

(** The length of [h] hours in microseconds. *)
Definition timedelta_hours (h : Z) : Z := h * 3600000000.

(** [timedelta(hours=h)]: a timedelta spans at most 999999999 days either
    way, and raises [OverflowError] beyond. *)
Definition timedelta (w : world) (h : Z) : exn + Z :=
  if (-999999999 <=? h / 24) && (h / 24 <=? 999999999)
  then inr (timedelta_hours h)
  else inl (Exn OverflowError (timedelta_overflow_text w h)).

(** [datetime.min] and [datetime.max], the first microsecond of year 1 and
    the last of year 9999, in microseconds since the epoch. *)
Definition datetime_min : Z := -62135596800000000.
Definition datetime_max : Z := 253402300799999999.

(** [t + d] for a datetime [t] and a timedelta [d]. *)
Definition datetime_add (t d : Z) : exn + Z :=
  if (datetime_min <=? t + d) && (t + d <=? datetime_max)
  then inr (t + d)
  else inl (Exn OverflowError "date value out of range").

(** [WHERE expiration_time <= %s AND is_active = true]: a comparison with
    NULL is not true. *)
Definition expiring (threshold : Z) (r : watch_row) : bool :=
  match w_expiration_time r with
  | Some t => t <=? threshold
  | None => false
  end && w_is_active r.

(** The order of [ORDER BY expiration_time ASC]: the earlier expiration
    first, NULL last; between two rows with the same expiration the server
    decides. *)
Definition expiration_le (w : world) (a b : watch_row) : bool :=
  match w_expiration_time a, w_expiration_time b with
  | Some x, Some y => (x <? y) || ((x =? y) && pg_tie_before w a b)
  | Some _, None => true
  | None, Some _ => false
  | None, None => pg_tie_before w a b
  end.

Fixpoint insert_by_expiration (w : world) (r : watch_row) (l : list watch_row)
    : list watch_row :=
  match l with
  | [] => [r]
  | r' :: l' =>
      if expiration_le w r r'
      then r :: r' :: l'
      else r' :: insert_by_expiration w r l'
  end.

Fixpoint order_by_expiration (w : world) (l : list watch_row) : list watch_row :=
  match l with
  | [] => []
  | r :: l' => insert_by_expiration w r (order_by_expiration w l')
  end.

(** [SELECT user_id, email, watch_id, expiration_time FROM gmail_watches
     WHERE expiration_time <= %s AND is_active = true
     ORDER BY expiration_time ASC] *)
Definition select_expiring (w : world) (threshold : Z) (table : list watch_row)
    : list watch_row :=
  order_by_expiration w (filter (fun r => expiring threshold r) table).

(** The dictionary built from one fetched row. *)
Definition watch_dict (w : world) (r : watch_row) : gmap string pyval :=
  {[ "user_id" := w_user_id r;
     "email" := w_email r;
     "watch_id" := w_watch_id r;
     "expiration_time" :=
       match w_expiration_time r with
       | Some t => PStr (isoformat w t)
       | None => PNone
       end ]}.

Definition default_hours_ahead : Z := 2.

(** [get_expiring_watches(database_url, hours_ahead=2)] *)
Definition get_expiring_watches (w : world) (database_url : option string)
    (hours_ahead : Z) : M (list (gmap string pyval)) :=
  try_except
    (now <- utcnow w ;;
     delta <- lift_sum (timedelta w hours_ahead) ;;
     expiration_threshold <- lift_sum (datetime_add now delta) ;;
     record_db_op (DbConnect database_url) ;;
     lift_error (pg_connect w database_url) ;;
     let query := DbSelectExpiring expiration_threshold in
     record_db_op query ;;
     lift_error (pg_execute w query) ;;
     table <- gets gmail_watches ;;
     let watches := select_expiring w expiration_threshold table in
     let watch_list := map (watch_dict w) watches in
     record_db_op DbClose ;;
     log INFO "Found {} expiring watches" [PInt (Z.of_nat (length watch_list))] ;;
     ret watch_list)
    (fun e =>
       log ERROR "Database query error: {}" [PStr (exn_str e)] ;;
       raise e).

(** [json.dumps(message_data)], [publisher.publish(topic_path, ...)] and
    [future.result()] for the message of index [n]: the broker's message id. *)
Definition publish (w : world) (n : nat) (topic_path : string)
    (message_data : gmap string pyval) : M string :=
  message_id <- lift_sum (pubsub_publish w n topic_path message_data) ;;
  modify (fun s => set_queue (queue s ++ [(topic_path, message_data)]) s) ;;
  ret message_id.

(** The renewal message built for one watch, stamped with a clock reading. *)
Definition renewal_message (w : world) (user_id email watch_id : pyval) (now : Z)
    : gmap string pyval :=
  {[ "user_id" := user_id;
     "email" := email;
     "watch_id" := watch_id;
     "action" := PStr "renew_watch";
     "timestamp" := PStr (isoformat w now) ]}.

(** The loop [for watch in watches: ...] with its counter. *)
Fixpoint publish_loop (w : world) (topic_path : string)
    (watches : list (gmap string pyval)) (published_count : nat) : M nat :=
  match watches with
  | [] => ret published_count
  | watch :: rest =>
      user_id <- getitem watch "user_id" ;;
      email <- getitem watch "email" ;;
      watch_id <- getitem watch "watch_id" ;;
      now <- utcnow w ;;
      let message_data := renewal_message w user_id email watch_id now in
      message_id <- publish w published_count topic_path message_data ;;
      log INFO "Published renewal message {} for user {}" [PStr message_id; user_id] ;;
      publish_loop w topic_path rest (S published_count)
  end.

(** [publish_renewal_messages(project_id, topic_id, watches)] *)
Definition publish_renewal_messages (w : world) (project_id topic_id : option string)
    (watches : list (gmap string pyval)) : M nat :=
  try_except
    (lift_error (pubsub_client w) ;;
     let topic_path := "projects/" +:+ fstr project_id +:+ "/topics/" +:+ fstr topic_id in
     publish_loop w topic_path watches 0)
    (fun e =>
       log ERROR "Pub/Sub publish error: {}" [PStr (exn_str e)] ;;
       raise e).

(** [watch_query_function(request)]; [request] is not used. *)
Definition watch_query_function (w : world) : M response :=
  try_except
    (log INFO "Gmail watch query function triggered by Cloud Scheduler" [] ;;
     let project_id := getenv w "GCP_PROJECT_ID" in
     let topic_id := getenv w "GCP_PUB_SUB_GMAIL_WATCH_RENEWAL_TOPIC_ID" in
     let database_url := getenv w "DATABASE_URL" in
     if negb (forallb env_truthy [project_id; topic_id; database_url])
     then raise (Exn ValueError "Missing required environment variables")
     else
       expiring_watches <- get_expiring_watches w database_url default_hours_ahead ;;
       match expiring_watches with
       | [] =>
           log INFO "No expiring Gmail watches found" [] ;;
           ret (Response 200
                  {[ "success" := PBool true;
                     "message" := PStr "No expiring watches found";
                     "watches_processed" := PInt 0 ]})
       | _ =>
           published_count <- publish_renewal_messages w project_id topic_id expiring_watches ;;
           log INFO "Published {} renewal messages" [PInt (Z.of_nat published_count)] ;;
           ret (Response 200
                  {[ "success" := PBool true;
                     "message" := PStr ("Published " +:+ pretty published_count
                                        +:+ " renewal messages");
                     "watches_processed" := PInt (Z.of_nat published_count) ]})
       end)
    (fun e =>
       log ERROR "Error in watch query function: {}" [PStr (exn_str e)] ;;
       ret (Response 500
              {[ "success" := PBool false;
                 "error" := PStr (exn_str e) ]})).

(** ** Running an invocation *)

(** The state an invocation starts from: the two tables as they are, and
    nothing done yet. *)
Definition initial (watches : list watch_row) (mailboxes : list mailbox_row) : state :=
  State watches mailboxes None [] [] [] [] 0.

(** A published message as the Worker's trigger delivers it: the broker
    hands over the bytes of [json.dumps(message)] base64-encoded under
    [data], and decoding them gives the message back. *)
Definition deliver (message : gmap string pyval) : gmap string wire :=
  {[ "data" := inr (PDict message) ]}.

(** * Specifications

    The vocabulary of the properties: what each function comes to, path by
    path, as a function of the world's answers; the predicates the theorems
    are stated with; and concrete worlds to run the functions in. *)

(** ** Computations that differ in what they log only *)

(** The part of the state a log record cannot change. *)
Definition effects (s : state) : state := set_logs [] s.

(** Two runs are similar when, started from states with the same effects,
    they end alike: both raise the same exception or both return related
    values, in states with the same effects. *)
Definition sim {A B} (R : A -> B -> Prop) (m1 : M A) (m2 : M B) : Prop :=
  forall s1 s2, effects s1 = effects s2 ->
    match m1 s1, m2 s2 with
    | (inl e1, t1), (inl e2, t2) => e1 = e2 /\ effects t1 = effects t2
    | (inr a, t1), (inr b, t2) => R a b /\ effects t1 = effects t2
    | _, _ => False
    end.

(** ** Worker: the store update, path by path *)

(** The state after a call of [update_watch_in_database] from [s]: the
    table, the connection variable, the operations and the log records it
    leaves. *)
Definition after_update (s : state) (tbl : list mailbox_row)
    (c : option (list mailbox_row)) (ops : list db_op) (lg : list log_record) : state :=
  State (gmail_watches s) tbl c (db_ops s ++ ops) (api_calls s) (queue s)
        (logs s ++ lg) (ticks s).

Definition update_failed (s : state) (c : option (list mailbox_row))
    (ops : list db_op) (e : exn) : (exn + unit) * state :=
  (inl e,
   after_update s (gmail_mailbox_watches s) c ops
     [LogRecord ERROR "Failed to update watch in database: {}" [PStr (exn_str e)]]).

Definition warning_no_watch (account_id : pyval) : log_record :=
  LogRecord WARNING "No active Gmail watch found for account_id={}" [account_id].

Definition info_updated (account_id history_id : pyval) (dt : Z) : log_record :=
  LogRecord INFO
    "Updated Gmail watch in database: account_id={}, history_id={}, expiration={}"
    [account_id; history_id; PDatetime dt].

(** What a call of [update_watch_in_database] comes to, path by path. *)
Definition update_outcome (w : world) (account_id history_id expiration_ms : pyval)
    (s : state) : (exn + unit) * state :=
  let url := getenv w "DATABASE_URL" in
  let table := gmail_mailbox_watches s in
  if env_truthy url then
    match pg_connect w url with
    | Some e => update_failed s None [DbConnect url] e
    | None =>
        match int_value w expiration_ms with
        | inl e => update_failed s (Some table) [DbConnect url; DbClose] e
        | inr ms =>
            match timestamp_of_ms w ms with
            | inl e => update_failed s (Some table) [DbConnect url; DbClose] e
            | inr dt =>
                let stmt := DbUpdateWatch history_id dt account_id in
                let txn := map (apply_update w history_id dt account_id) table in
                match pg_execute w stmt with
                | Some e => update_failed s (Some table) [DbConnect url; stmt; DbClose] e
                | None =>
                    match filter (update_matches w account_id) table with
                    | [] =>
                        (inr tt,
                         after_update s table (Some txn) [DbConnect url; stmt; DbClose]
                           [warning_no_watch account_id])
                    | _ :: _ =>
                        match pg_commit w with
                        | Some e =>
                            update_failed s (Some txn)
                              [DbConnect url; stmt; DbCommit; DbClose] e
                        | None =>
                            (inr tt,
                             after_update s txn (Some txn)
                               [DbConnect url; stmt; DbCommit; DbClose]
                               [info_updated account_id history_id dt])
                        end
                    end
                end
            end
        end
    end
  else
    update_failed s None []
      (Exn ValueError "Missing DATABASE_URL environment variable").

(** ** Worker: the Gmail call, path by path *)

(** The Worker's configuration for the Gmail call is complete. *)
Definition configured (w : world) : bool :=
  forallb env_truthy
    [getenv w "GCP_PROJECT_ID"; getenv w "GOOGLE_CLIENT_ID";
     getenv w "GOOGLE_CLIENT_SECRET"].

(** The request body without a notification topic. *)
Definition inbox_watch_request : gmap string pyval :=
  {[ "labelIds" := PList [PStr "INBOX"]; "labelFilterAction" := PStr "include" ]}.

Definition reply_topic_name (w : world) : string :=
  "projects/" +:+ fstr (getenv w "GCP_PROJECT_ID") +:+ "/topics/"
  +:+ fstr (getenv w "GCP_PUB_SUB_EMAIL_REPLY_TOPIC_ID").

(** The request body the configuration determines. *)
Definition expected_body (w : world) : gmap string pyval :=
  if env_truthy (getenv w "GCP_PUB_SUB_EMAIL_REPLY_TOPIC_ID")
  then <["topicName" := PStr (reply_topic_name w)]> inbox_watch_request
  else inbox_watch_request.

Definition expected_credentials (w : world) (access_token refresh_token : pyval)
    : credentials :=
  Credentials access_token refresh_token "https://oauth2.googleapis.com/token"
    (getenv w "GOOGLE_CLIENT_ID") (getenv w "GOOGLE_CLIENT_SECRET") gmail_scopes.

Definition expected_call (w : world) (access_token refresh_token : pyval) : watch_call :=
  WatchCall (expected_credentials w access_token refresh_token) "me" (expected_body w).

Definition setup_log (w : world) : log_record :=
  if env_truthy (getenv w "GCP_PUB_SUB_EMAIL_REPLY_TOPIC_ID")
  then LogRecord INFO "Setting up Gmail watch with topic: {}" [PStr (reply_topic_name w)]
  else LogRecord INFO "Setting up Gmail watch without topic (expiration monitoring only)" [].

(** The state after a call of [renew_gmail_watch] from [s]. *)
Definition after_renew (s : state) (calls : list watch_call) (lg : list log_record) : state :=
  State (gmail_watches s) (gmail_mailbox_watches s) (conn s) (db_ops s)
        (api_calls s ++ calls) (queue s) (logs s ++ lg) (ticks s).

(** The result and the log record of the two [except] clauses. *)
Definition failure_result (e : exn) : gmap string pyval :=
  match exn_cls e with
  | HttpError =>
      {[ "success" := PBool false;
         "error" := PStr ("Gmail API error: " +:+ exn_str e) ]}
  | _ =>
      {[ "success" := PBool false;
         "error" := PStr ("Failed to renew Gmail watch: " +:+ exn_str e) ]}
  end.

Definition failure_log (e : exn) : log_record :=
  match exn_cls e with
  | HttpError => LogRecord ERROR "Gmail API error during renewal: {}" [PStr (exn_str e)]
  | _ => LogRecord ERROR "Failed to renew Gmail watch: {}" [PStr (exn_str e)]
  end.

Definition success_result (resp : gmap string pyval) : gmap string pyval :=
  {[ "success" := PBool true;
     "history_id" := dict_get resp "historyId";
     "expiration" := dict_get resp "expiration" ]}.

Definition renew_failed (s : state) (calls : list watch_call) (lg : list log_record)
    (e : exn) : (exn + gmap string pyval) * state :=
  (inr (failure_result e), after_renew s calls (lg ++ [failure_log e])).

(** What a call of [renew_gmail_watch] comes to, path by path. *)
Definition renew_outcome (w : world) (access_token refresh_token : pyval) (s : state)
    : (exn + gmap string pyval) * state :=
  let call := expected_call w access_token refresh_token in
  if configured w then
    match gmail_build w (expected_credentials w access_token refresh_token) with
    | Some e => renew_failed s [] [] e
    | None =>
        match gmail_watch w call with
        | inl e => renew_failed s [call] [setup_log w] e
        | inr result =>
            let done := LogRecord INFO "Gmail watch renewal successful: {}" [result] in
            match result with
            | PDict resp =>
                (inr (success_result resp), after_renew s [call] [setup_log w; done])
            | _ =>
                renew_failed s [call] [setup_log w; done]
                  (Exn AttributeError "object has no attribute 'get'")
            end
        end
    end
  else renew_failed s [] [] (Exn ValueError "Missing required environment variables").

(** ** Worker: the entry point on a complete message *)

Definition processing_log (user_id email : pyval) : log_record :=
  LogRecord INFO "Processing Gmail watch renewal for user {} ({})" [user_id; email].

Definition worker_failed_log (e : exn) : log_record :=
  LogRecord ERROR "Renewal worker function failed: {}" [PStr (exn_str e)].

Definition renewed_log (user_id : pyval) : log_record :=
  LogRecord INFO "Successfully renewed Gmail watch for user {}" [user_id].

Definition not_renewed_log (user_id error : pyval) : log_record :=
  LogRecord ERROR "Failed to renew Gmail watch for user {}: {}" [user_id; error].

Definition add_log (r : log_record) (s : state) : state :=
  set_logs (logs s ++ [r]) s.

(** A message that carries the five required fields. *)
Record complete (d : gmap string pyval)
    (account_id user_id email access_token refresh_token : pyval) : Prop := {
  has_account_id : d !! "account_id" = Some account_id;
  has_user_id : d !! "user_id" = Some user_id;
  has_email : d !! "email" = Some email;
  has_access_token : d !! "access_token" = Some access_token;
  has_refresh_token : d !! "refresh_token" = Some refresh_token
}.

(** What the entry point comes to on a complete message, in terms of the
    outcomes of the Gmail call and of the store update. *)
Definition worker_outcome (w : world) (acc uid em a r : pyval) (s : state)
    : (exn + unit) * state :=
  match renew_outcome w a r (add_log (processing_log uid em) s) with
  | (inl e, s2) => (inr tt, add_log (worker_failed_log e) s2)
  | (inr res, s2) =>
      if truthy (dict_get res "success") then
        match res !! "history_id", res !! "expiration" with
        | Some h, Some x =>
            match update_outcome w acc h x s2 with
            | (inl e, s3) => (inr tt, add_log (worker_failed_log e) s3)
            | (inr _, s3) => (inr tt, add_log (renewed_log uid) s3)
            end
        | None, _ =>
            (inr tt,
             add_log (worker_failed_log (Exn KeyError (key_repr "history_id"))) s2)
        | Some _, None =>
            (inr tt,
             add_log (worker_failed_log (Exn KeyError (key_repr "expiration"))) s2)
        end
      else (inr tt, add_log (not_renewed_log uid (dict_get res "error")) s2)
  end.

(** ** Concrete worlds *)

(** Decimal digits read as a number: what [int] gives on such a string. *)
Fixpoint decimal_digits (acc : Z) (l : list ascii) : option Z :=
  match l with
  | [] => Some acc
  | c :: l' =>
      let n := Z.of_nat (nat_of_ascii c) in
      if (48 <=? n) && (n <=? 57)
      then decimal_digits (10 * acc + (n - 48)) l'
      else None
  end.

Definition decimal (s : string) : exn + Z :=
  match list_ascii_of_string s with
  | [] => inl (Exn ValueError "invalid literal for int() with base 10")
  | l =>
      match decimal_digits 0 l with
      | Some z => inr z
      | None => inl (Exn ValueError "invalid literal for int() with base 10")
      end
  end.

Definition demo_environ : gmap string string :=
  {[ "GCP_PROJECT_ID" := "demo-project";
     "GCP_PUB_SUB_GMAIL_WATCH_RENEWAL_TOPIC_ID" := "gmail-watch-renewal";
     "GOOGLE_CLIENT_ID" := "client-id";
     "GOOGLE_CLIENT_SECRET" := "client-secret";
     "DATABASE_URL" := "postgresql://store/watches" ]}.

(** The Gmail answer of the end-to-end scenario: history id 999, expiring at
    1700604800 s (seven days after the clock's first reading). *)
Definition demo_watch_response : pyval :=
  PDict {[ "historyId" := PStr "999"; "expiration" := PStr "1700604800000" ]}.

(** The comparison of a store whose [account_id] column is of type [text]:
    a string parameter matches the rows that hold the same string.  (The
    demonstrations send string parameters only.) *)
Definition text_eq (col param : pyval) : bool :=
  match col, param with
  | PStr a, PStr b => String.eqb a b
  | _, _ => false
  end.

(** A world in which every collaborator answers: the process runs in UTC,
    the clock starts at 1700000000 s and advances one second per reading,
    the [account_id] column is text, and rows with the same expiration come
    back in the order of the table. *)
Definition demo_world : world :=
  World demo_environ
        (fun n => 1700000000000000 + 1000000 * Z.of_nat n)
        (fun t => "us:" +:+ pretty t)
        decimal
        (fun _ => 0)
        (fun _ => inl (Exn ValueError "year is out of range"))
        (fun _ => "Python int too large to convert to C int")
        (fun _ => None) (fun _ => None) None
        text_eq (fun _ _ => true)
        (fun _ => None) (fun _ => inr demo_watch_response)
        None (fun n _ _ => inr ("m" +:+ pretty n)).

(** The same world without [GOOGLE_CLIENT_SECRET]. *)
Definition unconfigured_world : world :=
  World (delete "GOOGLE_CLIENT_SECRET" demo_environ)
        (utc_clock demo_world) (isoformat demo_world) decimal
        (utc_offset demo_world)
        (fromtimestamp_far demo_world) (timedelta_overflow_text demo_world)
        (fun _ => None) (fun _ => None) None
        text_eq (fun _ _ => true)
        (fun _ => None) (fun _ => inr demo_watch_response)
        None (fun n _ _ => inr ("m" +:+ pretty n)).

(** The same world with a broker that acknowledges the first message of an
    invocation and fails on the second. *)
Definition flaky_broker_world : world :=
  World demo_environ
        (utc_clock demo_world) (isoformat demo_world) decimal
        (utc_offset demo_world)
        (fromtimestamp_far demo_world) (timedelta_overflow_text demo_world)
        (fun _ => None) (fun _ => None) None
        text_eq (fun _ _ => true)
        (fun _ => None) (fun _ => inr demo_watch_response)
        None
        (fun n _ _ =>
           match n with
           | O => inr "m0"
           | _ => inl (Exn PubSubError "deadline exceeded")
           end).

(** The same world without the renewal topic the Scanner publishes to. *)
Definition unconfigured_scanner_world : world :=
  World (delete "GCP_PUB_SUB_GMAIL_WATCH_RENEWAL_TOPIC_ID" demo_environ)
        (utc_clock demo_world) (isoformat demo_world) decimal
        (utc_offset demo_world)
        (fromtimestamp_far demo_world) (timedelta_overflow_text demo_world)
        (fun _ => None) (fun _ => None) None
        text_eq (fun _ _ => true)
        (fun _ => None) (fun _ => inr demo_watch_response)
        None (fun n _ _ => inr ("m" +:+ pretty n)).

(** The same world with a store that refuses connections. *)
Definition broken_store_world : world :=
  World demo_environ
        (utc_clock demo_world) (isoformat demo_world) decimal
        (utc_offset demo_world)
        (fromtimestamp_far demo_world) (timedelta_overflow_text demo_world)
        (fun _ => Some (Exn DatabaseError "connection refused")) (fun _ => None) None
        text_eq (fun _ _ => true)
        (fun _ => None) (fun _ => inr demo_watch_response)
        None (fun n _ _ => inr ("m" +:+ pretty n)).

(** The same world with a store that accepts connections and fails on
    every statement. *)
Definition failing_query_world : world :=
  World demo_environ
        (utc_clock demo_world) (isoformat demo_world) decimal
        (utc_offset demo_world)
        (fromtimestamp_far demo_world) (timedelta_overflow_text demo_world)
        (fun _ => None)
        (fun _ => Some (Exn DatabaseError "relation does not exist")) None
        text_eq (fun _ _ => true)
        (fun _ => None) (fun _ => inr demo_watch_response)
        None (fun n _ _ => inr ("m" +:+ pretty n)).

(** The same world in a process one hour east of UTC. *)
Definition local_time_world : world :=
  World demo_environ
        (utc_clock demo_world) (isoformat demo_world) decimal
        (fun _ => 3600000000)
        (fromtimestamp_far demo_world) (timedelta_overflow_text demo_world)
        (fun _ => None) (fun _ => None) None
        text_eq (fun _ _ => true)
        (fun _ => None) (fun _ => inr demo_watch_response)
        None (fun n _ _ => inr ("m" +:+ pretty n)).

(** The comparison of a store whose [account_id] column is of type
    [integer]: the server reads a string parameter as an integer literal.
    (The demonstrations send literals of digits only.) *)
Definition integer_eq (col param : pyval) : bool :=
  match col, param with
  | PInt a, PInt b => a =? b
  | PInt a, PStr b =>
      match decimal b with
      | inr z => a =? z
      | inl _ => false
      end
  | _, _ => false
  end.

(** The same world with such a store. *)
Definition integer_store_world : world :=
  World demo_environ
        (utc_clock demo_world) (isoformat demo_world) decimal
        (utc_offset demo_world)
        (fromtimestamp_far demo_world) (timedelta_overflow_text demo_world)
        (fun _ => None) (fun _ => None) None
        integer_eq (fun _ _ => true)
        (fun _ => None) (fun _ => inr demo_watch_response)
        None (fun n _ _ => inr ("m" +:+ pretty n)).

(** The same world with a server that returns, of rows with the same
    expiration, the later row of the table first. *)
Definition later_row_first_world : world :=
  World demo_environ
        (utc_clock demo_world) (isoformat demo_world) decimal
        (utc_offset demo_world)
        (fromtimestamp_far demo_world) (timedelta_overflow_text demo_world)
        (fun _ => None) (fun _ => None) None
        text_eq (fun _ _ => false)
        (fun _ => None) (fun _ => inr demo_watch_response)
        None (fun n _ _ => inr ("m" +:+ pretty n)).

(** Two watches expire within two hours of 1700000000 s (in 30 and in 90
    minutes), one in three hours, and one is inactive. *)
Definition demo_watches : list watch_row :=
  [ WatchRow (PStr "U2") (PStr "u2@example.com") (PStr "W2") (Some 1700005400000000) true;
    WatchRow (PStr "U1") (PStr "u1@example.com") (PStr "W1") (Some 1700001800000000) true;
    WatchRow (PStr "U3") (PStr "u3@example.com") (PStr "W3") (Some 1700010800000000) true;
    WatchRow (PStr "U4") (PStr "u4@example.com") (PStr "W4") (Some 1700000600000000) false ].

Definition demo_mailboxes : list mailbox_row :=
  [ MailboxRow (PStr "A1") (PStr "100") (Some 1700001800000000) true;
    MailboxRow (PStr "A2") (PStr "200") (Some 1700005400000000) true;
    MailboxRow (PStr "A3") (PStr "300") (Some 1700000600000000) false ].

Definition demo_state : state := initial demo_watches demo_mailboxes.

(** A mailbox table whose accounts are numbers. *)
Definition integer_mailboxes : list mailbox_row :=
  [ MailboxRow (PInt 5) (PStr "100") (Some 1700001800000000) true ].

(** Two watches with the same expiration. *)
Definition tied_watches : list watch_row :=
  [ WatchRow (PStr "U1") (PStr "u1@example.com") (PStr "W1") (Some 1700001800000000) true;
    WatchRow (PStr "U2") (PStr "u2@example.com") (PStr "W2") (Some 1700001800000000) true ].

(** A renewal request with the fields the Worker requires. *)
Definition demo_request : gmap string pyval :=
  {[ "account_id" := PStr "A1";
     "user_id" := PStr "U1";
     "email" := PStr "u1@example.com";
     "access_token" := PStr "ya29.token";
     "refresh_token" := PStr "1//refresh" ]}.

(** The demo request with another user, another address and the identifier
    of the watch being replaced. *)
Definition demo_request' : gmap string pyval :=
  <["watch_id" := PStr "W1"]>
    (<["user_id" := PStr "U9"]> (<["email" := PStr "other@example.com"]> demo_request)).

(** ** Worker: incomplete messages *)

(** A field is absent from a decoded message when the message is a JSON
    object without that key, or is no JSON object at all. *)
Definition field_absent (message : pyval) (field : string) : Prop :=
  match message with
  | PDict d => d !! field = None
  | _ => True
  end.

(** ** Scanner: the query *)

(** The order of the expirations alone, NULL last. *)
Definition expiration_key_le (a b : watch_row) : bool :=
  match w_expiration_time a, w_expiration_time b with
  | Some x, Some y => x <=? y
  | Some _, None => true
  | None, Some _ => false
  | None, None => true
  end.

(** Ascending order of expiration between rows that have one. *)
Definition expires_no_later (a b : watch_row) : Prop :=
  exists x y, w_expiration_time a = Some x /\ w_expiration_time b = Some y /\ x <= y.

(** The state after a call of [get_expiring_watches] from [s]: one clock
    reading, and the operations and log records it leaves. *)
Definition after_query (s : state) (ops : list db_op) (lg : list log_record) : state :=
  State (gmail_watches s) (gmail_mailbox_watches s) (conn s) (db_ops s ++ ops)
        (api_calls s) (queue s) (logs s ++ lg) (S (ticks s)).

Definition query_error_log (e : exn) : log_record :=
  LogRecord ERROR "Database query error: {}" [PStr (exn_str e)].

(** The threshold of a query started in state [s]. *)
Definition threshold_at (w : world) (hours_ahead : Z) (s : state) : Z :=
  utc_clock w (ticks s) + timedelta_hours hours_ahead.

(** The [OverflowError] of a query started in state [s], when the lookahead
    is more than a timedelta holds or the threshold is no date between the
    years 1 and 9999. *)
Definition threshold_error (w : world) (hours_ahead : Z) (s : state) : option exn :=
  match timedelta w hours_ahead with
  | inl e => Some e
  | inr delta =>
      match datetime_add (utc_clock w (ticks s)) delta with
      | inl e => Some e
      | inr _ => None
      end
  end.

(** What a call of [get_expiring_watches] comes to, path by path. *)
Definition query_outcome (w : world) (database_url : option string) (hours_ahead : Z)
    (s : state) : (exn + list (gmap string pyval)) * state :=
  let threshold := threshold_at w hours_ahead s in
  match threshold_error w hours_ahead s with
  | Some e => (inl e, after_query s [] [query_error_log e])
  | None =>
      match pg_connect w database_url with
      | Some e => (inl e, after_query s [DbConnect database_url] [query_error_log e])
      | None =>
          match pg_execute w (DbSelectExpiring threshold) with
          | Some e =>
              (inl e,
               after_query s [DbConnect database_url; DbSelectExpiring threshold]
                 [query_error_log e])
          | None =>
              let rows := select_expiring w threshold (gmail_watches s) in
              (inr (map (watch_dict w) rows),
               after_query s
                 [DbConnect database_url; DbSelectExpiring threshold; DbClose]
                 [LogRecord INFO "Found {} expiring watches"
                    [PInt (Z.of_nat (length (map (watch_dict w) rows)))]])
          end
      end
  end.

(** ** Scanner: publishing *)

(** The state after one acknowledged publish. *)
Definition published (s : state) (topic_path : string) (message : gmap string pyval)
    (message_id : string) (user_id : pyval) : state :=
  State (gmail_watches s) (gmail_mailbox_watches s) (conn s) (db_ops s)
        (api_calls s) (queue s ++ [(topic_path, message)])
        (logs s ++ [LogRecord INFO "Published renewal message {} for user {}"
                      [PStr message_id; user_id]])
        (S (ticks s)).

(** The publishing loop over the fetched rows. *)
Fixpoint publish_rows (w : world) (topic_path : string) (rows : list watch_row)
    (published_count : nat) (s : state) : (exn + nat) * state :=
  match rows with
  | [] => (inr published_count, s)
  | row :: rest =>
      let message :=
        renewal_message w (w_user_id row) (w_email row) (w_watch_id row)
          (utc_clock w (ticks s)) in
      match pubsub_publish w published_count topic_path message with
      | inl e => (inl e, set_ticks (S (ticks s)) s)
      | inr message_id =>
          publish_rows w topic_path rest (S published_count)
            (published s topic_path message message_id (w_user_id row))
      end
  end.

(** Messages acknowledged between two states of one invocation. *)
Definition acknowledged (s s' : state) : nat := length (queue s') - length (queue s).

Definition publish_error_log (e : exn) : log_record :=
  LogRecord ERROR "Pub/Sub publish error: {}" [PStr (exn_str e)].

Definition topic_path_of (project_id topic_id : option string) : string :=
  "projects/" +:+ fstr project_id +:+ "/topics/" +:+ fstr topic_id.

(** What a call of [publish_renewal_messages] on the fetched rows comes to. *)
Definition publish_outcome (w : world) (project_id topic_id : option string)
    (rows : list watch_row) (s : state) : (exn + nat) * state :=
  match pubsub_client w with
  | Some e => (inl e, add_log (publish_error_log e) s)
  | None =>
      match publish_rows w (topic_path_of project_id topic_id) rows 0 s with
      | (inl e, s') => (inl e, add_log (publish_error_log e) s')
      | (inr n, s') => (inr n, s')
      end
  end.

(** ** Scanner: the entry point *)

(** The Scanner's configuration is complete. *)
Definition scanner_configured (w : world) : bool :=
  forallb env_truthy
    [getenv w "GCP_PROJECT_ID"; getenv w "GCP_PUB_SUB_GMAIL_WATCH_RENEWAL_TOPIC_ID";
     getenv w "DATABASE_URL"].

(** The rows eligible for renewal when an invocation starts in [s]. *)
Definition eligible (w : world) (s : state) : list watch_row :=
  select_expiring w (threshold_at w default_hours_ahead s) (gmail_watches s).

(** The error the Scanner's query raises, if any: that of the threshold,
    or the one the store raises. *)
Definition query_error (w : world) (s : state) : option exn :=
  match threshold_error w default_hours_ahead s with
  | Some e => Some e
  | None =>
      match pg_connect w (getenv w "DATABASE_URL") with
      | Some e => Some e
      | None => pg_execute w (DbSelectExpiring (threshold_at w default_hours_ahead s))
      end
  end.

Definition error_response (e : exn) : response :=
  Response 500 {[ "success" := PBool false; "error" := PStr (exn_str e) ]}.

Definition no_watches_response : response :=
  Response 200
    {[ "success" := PBool true;
       "message" := PStr "No expiring watches found";
       "watches_processed" := PInt 0 ]}.

Definition published_response (n : nat) : response :=
  Response 200
    {[ "success" := PBool true;
       "message" := PStr ("Published " +:+ pretty n +:+ " renewal messages");
       "watches_processed" := PInt (Z.of_nat n) ]}.

Definition trigger_log : log_record :=
  LogRecord INFO "Gmail watch query function triggered by Cloud Scheduler" [].

Definition scan_error (e : exn) (s : state) : (exn + response) * state :=
  (inr (error_response e),
   add_log (LogRecord ERROR "Error in watch query function: {}" [PStr (exn_str e)]) s).

(** What an invocation of [watch_query_function] comes to, path by path. *)
Definition scan_outcome (w : world) (s : state) : (exn + response) * state :=
  let s0 := add_log trigger_log s in
  if scanner_configured w then
    let s1 := snd (query_outcome w (getenv w "DATABASE_URL") default_hours_ahead s0) in
    match query_error w s with
    | Some e => scan_error e s1
    | None =>
        match eligible w s with
        | [] =>
            (inr no_watches_response,
             add_log (LogRecord INFO "No expiring Gmail watches found" []) s1)
        | rows =>
            match publish_outcome w (getenv w "GCP_PROJECT_ID")
                    (getenv w "GCP_PUB_SUB_GMAIL_WATCH_RENEWAL_TOPIC_ID") rows s1 with
            | (inl e, s2) => scan_error e s2
            | (inr n, s2) =>
                (inr (published_response n),
                 add_log (LogRecord INFO "Published {} renewal messages"
                            [PInt (Z.of_nat n)]) s2)
            end
        end
    end
  else scan_error (Exn ValueError "Missing required environment variables") s0.

(** C6 as the specification states it: the response carries, under
    [watches_processed], the number of publishes acknowledged in the
    invocation. *)
Definition reports_acknowledged_count (w : world) (s : state) : Prop :=
  exists resp s',
    watch_query_function w s = (inr resp, s') /\
    body resp !! "watches_processed" = Some (PInt (Z.of_nat (acknowledged s s'))).

(** ** Worker and Scanner: every invocation *)

(** An event that carries no renewal request: no [data], data that does
    not decode, or a decoded value that is no JSON object. *)
Definition no_request (event : gmap string wire) : Prop :=
  match event !! "data" with
  | None => True
  | Some (inl _) => True
  | Some (inr (PDict _)) => False
  | Some (inr _) => True
  end.

(** Kinds of operations on the store. *)
Definition is_connect (op : db_op) : bool :=
  match op with DbConnect _ => true | _ => false end.

Definition is_update (op : db_op) : bool :=
  match op with DbUpdateWatch _ _ _ => true | _ => false end.

Definition is_commit (op : db_op) : bool :=
  match op with DbCommit => true | _ => false end.

Definition is_select (op : db_op) : bool :=
  match op with DbSelectExpiring _ => true | _ => false end.

(** How often operations of one kind occur. *)
Definition count_ops (kind : db_op -> bool) (ops : list db_op) : nat :=
  length (filter (fun op => kind op = true) ops).

(** A renewal request for an account whose only row is inactive. *)
Definition inactive_account_request : gmap string pyval :=
  <["account_id" := PStr "A3"]> demo_request.

(** The keys [publish_renewal_messages] reads from a watch. *)
Definition message_keys : list string := ["user_id"; "email"; "watch_id"].

(** * Properties *)

(** ** The monad *)

Lemma bind_inl {A B} (m : M A) (k : A -> M B) s e s' :
  m s = (inl e, s') -> bind m k s = (inl e, s').
Proof. intros H. unfold bind. now rewrite H. Qed.

Lemma bind_inr {A B} (m : M A) (k : A -> M B) s a s' :
  m s = (inr a, s') -> bind m k s = k a s'.
Proof. intros H. unfold bind. now rewrite H. Qed.

Lemma bind_ret {A B} (a : A) (k : A -> M B) s : bind (ret a) k s = k a s.
Proof. reflexivity. Qed.

Lemma bind_raise {A B} (e : exn) (k : A -> M B) s : bind (raise e) k s = (inl e, s).
Proof. reflexivity. Qed.

Lemma bind_modify {B} (f : state -> state) (k : unit -> M B) s :
  bind (modify f) k s = k tt (f s).
Proof. reflexivity. Qed.

Lemma bind_gets {A B} (f : state -> A) (k : A -> M B) s :
  bind (gets f) k s = k (f s) s.
Proof. reflexivity. Qed.

Lemma bind_log {B} lvl fmt args (k : unit -> M B) s :
  bind (log lvl fmt args) k s = k tt (set_logs (logs s ++ [LogRecord lvl fmt args]) s).
Proof. reflexivity. Qed.

Lemma bind_record_db_op {B} op (k : unit -> M B) s :
  bind (record_db_op op) k s = k tt (set_db_ops (db_ops s ++ [op]) s).
Proof. reflexivity. Qed.

Lemma bind_assoc {A B C} (m : M A) (k : A -> M B) (h : B -> M C) s :
  bind (bind m k) h s = bind m (fun a => bind (k a) h) s.
Proof. unfold bind. destruct (m s) as [[e | a] s1]; reflexivity. Qed.

Lemma try_except_inl {A} (body : M A) (handler : exn -> M A) s e s' :
  body s = (inl e, s') -> try_except body handler s = handler e s'.
Proof. intros H. unfold try_except. now rewrite H. Qed.

Lemma try_except_inr {A} (body : M A) (handler : exn -> M A) s a s' :
  body s = (inr a, s') -> try_except body handler s = (inr a, s').
Proof. intros H. unfold try_except. now rewrite H. Qed.

(** Stepping through straight-line code. *)
Ltac mstep :=
  repeat first
    [ rewrite bind_assoc
    | rewrite bind_ret
    | rewrite bind_raise
    | rewrite bind_log
    | rewrite bind_record_db_op
    | rewrite bind_modify
    | rewrite bind_gets
    | progress cbn [lift_sum lift_error as_dict negb
                    set_logs set_conn set_db_ops set_api_calls set_queue
                    set_ticks set_mailbox
                    gmail_watches gmail_mailbox_watches conn db_ops
                    api_calls queue logs ticks] ].

(** A handler that only logs turns every exit of the body into a return. *)
Lemma try_except_log_returns (body : M unit) fmt (args : exn -> list pyval) s :
  exists s', try_except body (fun e => log ERROR fmt (args e)) s = (inr tt, s').
Proof.
  unfold try_except. destruct (body s) as [[e | []] s1]; eauto.
Qed.

(** ** Worker: validation of the message *)

Lemma validation_passes (d : gmap string pyval) (l : list string) s :
  (forall f, f ∈ l -> is_Some (d !! f)) ->
  for_each l
    (fun field =>
       if negb (dict_has d field)
       then raise (Exn ValueError ("Missing required field: " +:+ field))
       else ret tt) s = (inr tt, s).
Proof.
  induction l as [| f l IH]; intros Hall; simpl.
  - reflexivity.
  - unfold bind at 1, dict_has at 1.
    rewrite bool_decide_eq_true_2 by (apply Hall; left).
    simpl. apply IH. intros f' Hf'. apply Hall. now right.
Qed.

Lemma validation_fails (d : gmap string pyval) (l : list string) s :
  (exists f, f ∈ l /\ d !! f = None) ->
  exists f, f ∈ l /\
    for_each l
      (fun field =>
         if negb (dict_has d field)
         then raise (Exn ValueError ("Missing required field: " +:+ field))
         else ret tt) s
    = (inl (Exn ValueError ("Missing required field: " +:+ f)), s).
Proof.
  induction l as [| f l IH]; intros (f0 & Hin & Hnone).
  - inversion Hin.
  - simpl. unfold bind at 1, dict_has at 1.
    destruct (d !! f) as [v |] eqn:Hf.
    + rewrite bool_decide_eq_true_2 by eauto. simpl.
      apply elem_of_cons in Hin as [-> | Hin]; [congruence |].
      destruct IH as (f1 & Hin1 & Hrun); [eauto |].
      exists f1. split; [now right | exact Hrun].
    + rewrite bool_decide_eq_false_2 by (intros [? ?]; congruence). simpl.
      exists f. split; [left | reflexivity].
Qed.

(** ** Computations that differ in what they log only *)

Lemma effects_eq s1 s2 :
  effects s1 = effects s2 <->
  gmail_watches s1 = gmail_watches s2 /\
  gmail_mailbox_watches s1 = gmail_mailbox_watches s2 /\
  conn s1 = conn s2 /\ db_ops s1 = db_ops s2 /\
  api_calls s1 = api_calls s2 /\ queue s1 = queue s2 /\ ticks s1 = ticks s2.
Proof.
  destruct s1, s2; unfold effects, set_logs; simpl. split.
  - intros [= -> -> -> -> -> -> ->]. repeat split.
  - intros (-> & -> & -> & -> & -> & -> & ->). reflexivity.
Qed.

Lemma sim_ret {A B} (R : A -> B -> Prop) a b : R a b -> sim R (ret a) (ret b).
Proof. intros HR s1 s2 Hs. simpl. auto. Qed.

Lemma sim_raise {A B} (R : A -> B -> Prop) e : sim R (raise e) (raise e).
Proof. intros s1 s2 Hs. simpl. auto. Qed.

Lemma sim_bind {A1 A2 B1 B2} (R : A1 -> A2 -> Prop) (Q : B1 -> B2 -> Prop)
    (m1 : M A1) (m2 : M A2) (k1 : A1 -> M B1) (k2 : A2 -> M B2) :
  sim R m1 m2 ->
  (forall a1 a2, R a1 a2 -> sim Q (k1 a1) (k2 a2)) ->
  sim Q (bind m1 k1) (bind m2 k2).
Proof.
  intros Hm Hk s1 s2 Hs. specialize (Hm s1 s2 Hs). unfold bind.
  destruct (m1 s1) as [[e1 | a1] t1], (m2 s2) as [[e2 | a2] t2];
    try contradiction.
  - exact Hm.
  - destruct Hm as [HR Ht]. exact (Hk a1 a2 HR t1 t2 Ht).
Qed.

Lemma sim_try_except {A B} (R : A -> B -> Prop)
    (b1 : M A) (b2 : M B) (h1 : exn -> M A) (h2 : exn -> M B) :
  sim R b1 b2 ->
  (forall e, sim R (h1 e) (h2 e)) ->
  sim R (try_except b1 h1) (try_except b2 h2).
Proof.
  intros Hb Hh s1 s2 Hs. specialize (Hb s1 s2 Hs). unfold try_except.
  destruct (b1 s1) as [[e1 | a1] t1], (b2 s2) as [[e2 | a2] t2];
    try contradiction.
  - destruct Hb as [<- Ht]. exact (Hh e1 t1 t2 Ht).
  - exact Hb.
Qed.

Lemma sim_try_finally {A B} (R : A -> B -> Prop) (Q : unit -> unit -> Prop)
    (b1 : M A) (b2 : M B) (c1 c2 : M unit) :
  sim R b1 b2 -> sim Q c1 c2 ->
  sim R (try_finally b1 c1) (try_finally b2 c2).
Proof.
  intros Hb Hc s1 s2 Hs. specialize (Hb s1 s2 Hs). unfold try_finally.
  destruct (b1 s1) as [r1 t1], (b2 s2) as [r2 t2].
  assert (Ht : effects t1 = effects t2)
    by (destruct r1, r2; try contradiction; tauto).
  specialize (Hc t1 t2 Ht).
  destruct (c1 t1) as [[e1 | []] u1], (c2 t2) as [[e2 | []] u2];
    try contradiction.
  - exact Hc.
  - destruct Hc as [_ Hu]. destruct r1, r2; try contradiction; tauto.
Qed.

Lemma sim_log (R : unit -> unit -> Prop) l1 f1 a1 l2 f2 a2 :
  R tt tt -> sim R (log l1 f1 a1) (log l2 f2 a2).
Proof. intros HR s1 s2 Hs. simpl. auto. Qed.

Lemma sim_modify (f : state -> state) :
  (forall s1 s2, effects s1 = effects s2 -> effects (f s1) = effects (f s2)) ->
  sim eq (modify f) (modify f).
Proof. intros Hf s1 s2 Hs. simpl. auto. Qed.

Lemma sim_gets {A} (f : state -> A) :
  (forall s1 s2, effects s1 = effects s2 -> f s1 = f s2) ->
  sim eq (gets f) (gets f).
Proof. intros Hf s1 s2 Hs. simpl. auto. Qed.

Lemma sim_lift_error o : sim eq (lift_error o) (lift_error o).
Proof. destruct o; [apply sim_raise | now apply sim_ret]. Qed.

Lemma sim_lift_sum {A} (r : exn + A) : sim eq (lift_sum r) (lift_sum r).
Proof. destruct r; [apply sim_raise | now apply sim_ret]. Qed.

(** Proving that a piece of code is similar to itself: structure by
    structure, the leaves being log calls and operations that do not read
    the log. *)
Ltac sim_leaf :=
  let s1 := fresh "s1" in let s2 := fresh "s2" in let H := fresh "H" in
  intros s1 s2 H; apply effects_eq in H;
  lazymatch goal with
  | |- effects _ = effects _ => apply effects_eq
  | |- _ => idtac
  end;
  destruct s1, s2; simpl in *;
  destruct H as (? & ? & ? & ? & ? & ? & ?); subst;
  repeat case_match; simpl; repeat split; congruence.

Ltac sim_step :=
  lazymatch goal with
  | |- sim _ (bind _ _) (bind _ _) =>
      eapply (sim_bind eq); [| intros ? ? <-]
  | |- sim _ (try_except _ _) (try_except _ _) =>
      apply sim_try_except; [| intros ?]
  | |- sim _ (try_finally _ _) (try_finally _ _) =>
      apply (sim_try_finally _ eq)
  | |- sim _ (ret _) (ret _) => apply sim_ret; reflexivity
  | |- sim _ (raise _) (raise _) => apply sim_raise
  | |- sim _ (log _ _ _) (log _ _ _) => apply sim_log; reflexivity
  | |- sim _ (lift_error _) (lift_error _) => apply sim_lift_error
  | |- sim _ (lift_sum _) (lift_sum _) => apply sim_lift_sum
  | |- sim _ (modify _) (modify _) => apply sim_modify; sim_leaf
  | |- sim _ (gets _) (gets _) => apply sim_gets; sim_leaf
  | |- sim _ (if ?b then _ else _) (if ?b then _ else _) => destruct b
  | |- sim _ (match ?x with _ => _ end) (match ?x with _ => _ end) => destruct x
  end.

Lemma sim_record_db_op op : sim eq (record_db_op op) (record_db_op op).
Proof. unfold record_db_op. repeat sim_step. Qed.

Lemma sim_psycopg2_connect w url :
  sim eq (psycopg2_connect w url) (psycopg2_connect w url).
Proof.
  unfold psycopg2_connect. repeat first [ sim_step | apply sim_record_db_op ].
Qed.

Lemma sim_execute_update w h dt acc :
  sim eq (execute_update w h dt acc) (execute_update w h dt acc).
Proof.
  unfold execute_update. cbv zeta.
  repeat first [ sim_step | apply sim_record_db_op ].
Qed.

Lemma sim_conn_commit w : sim eq (conn_commit w) (conn_commit w).
Proof.
  unfold conn_commit. repeat first [ sim_step | apply sim_record_db_op ].
Qed.

Lemma sim_users_watch w c : sim eq (users_watch w c) (users_watch w c).
Proof. unfold users_watch. repeat sim_step. Qed.

Lemma sim_as_dict v : sim eq (as_dict v) (as_dict v).
Proof. unfold as_dict. repeat sim_step. Qed.

Lemma sim_getitem d k : sim eq (getitem d k) (getitem d k).
Proof. unfold getitem. repeat sim_step. Qed.

Lemma sim_renew_gmail_watch w a r :
  sim eq (renew_gmail_watch w a r) (renew_gmail_watch w a r).
Proof.
  unfold renew_gmail_watch. cbv zeta.
  repeat first [ sim_step | apply sim_users_watch | apply sim_as_dict ].
Qed.

Lemma sim_update_watch_in_database w acc h e :
  sim eq (update_watch_in_database w acc h e) (update_watch_in_database w acc h e).
Proof.
  unfold update_watch_in_database, py_int, fromtimestamp_ms, conn_close.
  cbv zeta.
  repeat first
    [ sim_step | apply sim_psycopg2_connect | apply sim_execute_update
    | apply sim_conn_commit | apply sim_record_db_op ].
Qed.

(** ** Worker: the store update, path by path *)

Lemma rowcount_positive {A} (l : list A) :
  (0 <? Z.of_nat (length l)) = match l with [] => false | _ => true end.
Proof. destruct l; reflexivity. Qed.

Ltac finish_update :=
  mstep;
  unfold conn_close, record_db_op, modify, ret, update_failed, after_update,
    warning_no_watch, info_updated;
  cbn; rewrite <- ?app_assoc; try rewrite app_nil_r; reflexivity.

Lemma update_watch_in_database_run w acc h e s :
  update_watch_in_database w acc h e s = update_outcome w acc h e s.
Proof.
  destruct s as [gw mb c ops api q lg tk].
  unfold update_watch_in_database, update_outcome. cbv zeta.
  rewrite bind_modify. unfold try_finally.
  cbn [gmail_mailbox_watches].
  destruct (env_truthy (getenv w "DATABASE_URL")) eqn:Hurl.
  2:{ erewrite try_except_inl by (mstep; reflexivity). finish_update. }
  destruct (pg_connect w (getenv w "DATABASE_URL")) as [ec |] eqn:Hc.
  { erewrite try_except_inl
      by (unfold psycopg2_connect; mstep; rewrite Hc; mstep; reflexivity).
    finish_update. }
  destruct (int_value w e) as [ei | ms] eqn:Hi.
  { erewrite try_except_inl
      by (unfold psycopg2_connect; mstep; rewrite Hc; mstep;
          unfold py_int; rewrite Hi; mstep; reflexivity).
    finish_update. }
  destruct (timestamp_of_ms w ms) as [et | dt] eqn:Ht.
  { erewrite try_except_inl
      by (unfold psycopg2_connect; mstep; rewrite Hc; mstep;
          unfold py_int; rewrite Hi; mstep;
          unfold fromtimestamp_ms; rewrite Ht; mstep; reflexivity).
    finish_update. }
  destruct (pg_execute w (DbUpdateWatch h dt acc)) as [ex |] eqn:Hx.
  { erewrite try_except_inl
      by (unfold psycopg2_connect; mstep; rewrite Hc; mstep;
          unfold py_int; rewrite Hi; mstep;
          unfold fromtimestamp_ms; rewrite Ht; mstep;
          unfold execute_update; mstep; rewrite Hx; mstep; reflexivity).
    finish_update. }
  destruct (filter (update_matches w acc) mb) as [| r0 rest] eqn:Hf.
  { erewrite try_except_inr
      by (unfold psycopg2_connect; mstep; rewrite Hc; mstep;
          unfold py_int; rewrite Hi; mstep;
          unfold fromtimestamp_ms; rewrite Ht; mstep;
          unfold execute_update; mstep; rewrite Hx; mstep;
          rewrite rowcount_positive, Hf; mstep; reflexivity).
    finish_update. }
  destruct (pg_commit w) as [ecm |] eqn:Hcm.
  { erewrite try_except_inl
      by (unfold psycopg2_connect; mstep; rewrite Hc; mstep;
          unfold py_int; rewrite Hi; mstep;
          unfold fromtimestamp_ms; rewrite Ht; mstep;
          unfold execute_update; mstep; rewrite Hx; mstep;
          rewrite rowcount_positive, Hf;
          unfold conn_commit; mstep; rewrite Hcm; mstep; reflexivity).
    finish_update. }
  erewrite try_except_inr
    by (unfold psycopg2_connect; mstep; rewrite Hc; mstep;
        unfold py_int; rewrite Hi; mstep;
        unfold fromtimestamp_ms; rewrite Ht; mstep;
        unfold execute_update; mstep; rewrite Hx; mstep;
        rewrite rowcount_positive, Hf;
        unfold conn_commit; mstep; rewrite Hcm; mstep; reflexivity).
  finish_update.
Qed.

(** ** Worker: the Gmail call, path by path *)

Lemma handler_failure (e : exn) (s : state) :
  match exn_cls e with
  | HttpError =>
      log ERROR "Gmail API error during renewal: {}" [PStr (exn_str e)] ;;
      ret ({[ "success" := PBool false;
              "error" := PStr ("Gmail API error: " +:+ exn_str e) ]}
           : gmap string pyval)
  | _ =>
      log ERROR "Failed to renew Gmail watch: {}" [PStr (exn_str e)] ;;
      ret ({[ "success" := PBool false;
              "error" := PStr ("Failed to renew Gmail watch: " +:+ exn_str e) ]}
           : gmap string pyval)
  end s
  = (inr (failure_result e), set_logs (logs s ++ [failure_log e]) s).
Proof.
  unfold failure_result, failure_log. destruct (exn_cls e); reflexivity.
Qed.

Ltac state_fields :=
  cbn [set_logs set_conn set_db_ops set_api_calls set_queue set_ticks set_mailbox
       gmail_watches gmail_mailbox_watches conn db_ops api_calls queue logs ticks
       app].

Ltac finish_renew :=
  rewrite handler_failure;
  unfold renew_failed, after_renew; state_fields; rewrite <- ?app_assoc;
  try rewrite app_nil_r; reflexivity.

Lemma renew_gmail_watch_run w a r s :
  renew_gmail_watch w a r s = renew_outcome w a r s.
Proof.
  destruct s as [gw mb c ops api q lg tk].
  unfold renew_gmail_watch, renew_outcome, configured, expected_call,
    expected_credentials. cbv zeta.
  destruct (forallb env_truthy _) eqn:Hcfg.
  2:{ erewrite try_except_inl by (mstep; reflexivity). finish_renew. }
  destruct (gmail_build w _) as [eb |] eqn:Hb.
  { erewrite try_except_inl by (mstep; reflexivity). finish_renew. }
  unfold expected_body, setup_log, reply_topic_name, inbox_watch_request.
  destruct (env_truthy (getenv w "GCP_PUB_SUB_EMAIL_REPLY_TOPIC_ID")) eqn:Ht.
  - destruct (gmail_watch w _) as [ea | result] eqn:Hw.
    + erewrite try_except_inl
        by (mstep; unfold users_watch; mstep; rewrite Hw; mstep; reflexivity).
      finish_renew.
    + destruct result as [| b | z | str | t | l | resp].
      7:{ erewrite try_except_inr
            by (mstep; unfold users_watch; mstep; rewrite Hw; mstep; reflexivity).
          unfold after_renew, success_result; state_fields;
          rewrite <- ?app_assoc; reflexivity. }
      all: erewrite try_except_inl
             by (mstep; unfold users_watch; mstep; rewrite Hw; mstep; reflexivity);
           finish_renew.
  - destruct (gmail_watch w _) as [ea | result] eqn:Hw.
    + erewrite try_except_inl
        by (mstep; unfold users_watch; mstep; rewrite Hw; mstep; reflexivity).
      finish_renew.
    + destruct result as [| b | z | str | t | l | resp].
      7:{ erewrite try_except_inr
            by (mstep; unfold users_watch; mstep; rewrite Hw; mstep; reflexivity).
          unfold after_renew, success_result; state_fields;
          rewrite <- ?app_assoc; reflexivity. }
      all: erewrite try_except_inl
             by (mstep; unfold users_watch; mstep; rewrite Hw; mstep; reflexivity);
           finish_renew.
Qed.

(** ** Worker: the entry point on a complete message *)

Lemma complete_required d acc uid em a r :
  complete d acc uid em a r ->
  forall f, f ∈ required_fields -> is_Some (d !! f).
Proof.
  intros [H1 H2 H3 H4 H5] f Hf. unfold required_fields in Hf.
  repeat (apply elem_of_cons in Hf as [-> | Hf]; [eauto |]).
  inversion Hf.
Qed.

Lemma dict_get_some (d : gmap string pyval) k v :
  d !! k = Some v -> dict_get d k = v.
Proof. intros H. unfold dict_get. now rewrite H. Qed.

Lemma getitem_run (d : gmap string pyval) k v {B} (cont : pyval -> M B) s :
  d !! k = Some v -> bind (getitem d k) cont s = cont v s.
Proof. intros H. unfold getitem. rewrite H. reflexivity. Qed.

Lemma getitem_missing (d : gmap string pyval) k {B} (cont : pyval -> M B) s :
  d !! k = None -> bind (getitem d k) cont s = (inl (Exn KeyError (key_repr k)), s).
Proof. intros H. unfold getitem. rewrite H. reflexivity. Qed.

Lemma renewal_worker_function_run w event d acc uid em a r s :
  event !! "data" = Some (inr (PDict d)) ->
  complete d acc uid em a r ->
  renewal_worker_function w event s = worker_outcome w acc uid em a r s.
Proof.
  intros Hdata Hd. pose proof (complete_required _ _ _ _ _ _ Hd) as Hreq.
  destruct Hd as [Hacc Huid Hem Ha Hr].
  unfold renewal_worker_function, worker_outcome. rewrite Hdata.
  rewrite <- renew_gmail_watch_run.
  unfold add_log, processing_log.
  destruct (renew_gmail_watch w a r _) as [[e | res] s2] eqn:Hrenew.
  - erewrite try_except_inl; [reflexivity |].
    mstep. rewrite (dict_get_some _ _ _ Huid), (dict_get_some _ _ _ Hem).
    rewrite (bind_inr _ _ _ tt _ (validation_passes d required_fields _ Hreq)).
    rewrite (getitem_run _ _ _ _ _ Ha), (getitem_run _ _ _ _ _ Hr).
    now rewrite (bind_inl _ _ _ _ _ Hrenew).
  - destruct (truthy (dict_get res "success")) eqn:Hok.
    + destruct (res !! "history_id") as [h |] eqn:Hh.
      2:{ erewrite try_except_inl; [reflexivity |].
          mstep. rewrite (dict_get_some _ _ _ Huid), (dict_get_some _ _ _ Hem).
    rewrite (bind_inr _ _ _ tt _ (validation_passes d required_fields _ Hreq)).
          rewrite (getitem_run _ _ _ _ _ Ha), (getitem_run _ _ _ _ _ Hr).
          rewrite (bind_inr _ _ _ _ _ Hrenew), Hok.
          rewrite (getitem_run _ _ _ _ _ Hacc).
          now rewrite (getitem_missing _ _ _ _ Hh). }
      destruct (res !! "expiration") as [x |] eqn:Hx.
      2:{ erewrite try_except_inl; [reflexivity |].
          mstep. rewrite (dict_get_some _ _ _ Huid), (dict_get_some _ _ _ Hem).
    rewrite (bind_inr _ _ _ tt _ (validation_passes d required_fields _ Hreq)).
          rewrite (getitem_run _ _ _ _ _ Ha), (getitem_run _ _ _ _ _ Hr).
          rewrite (bind_inr _ _ _ _ _ Hrenew), Hok.
          rewrite (getitem_run _ _ _ _ _ Hacc), (getitem_run _ _ _ _ _ Hh).
          now rewrite (getitem_missing _ _ _ _ Hx). }
      rewrite <- update_watch_in_database_run.
      destruct (update_watch_in_database w acc h x s2) as [[e | []] s3] eqn:Hupd.
      * erewrite try_except_inl; [reflexivity |].
        mstep. rewrite (dict_get_some _ _ _ Huid), (dict_get_some _ _ _ Hem).
    rewrite (bind_inr _ _ _ tt _ (validation_passes d required_fields _ Hreq)).
        rewrite (getitem_run _ _ _ _ _ Ha), (getitem_run _ _ _ _ _ Hr).
        rewrite (bind_inr _ _ _ _ _ Hrenew), Hok.
        rewrite (getitem_run _ _ _ _ _ Hacc), (getitem_run _ _ _ _ _ Hh),
          (getitem_run _ _ _ _ _ Hx).
        now rewrite (bind_inl _ _ _ _ _ Hupd).
      * erewrite try_except_inr; [reflexivity |].
        mstep. rewrite (dict_get_some _ _ _ Huid), (dict_get_some _ _ _ Hem).
    rewrite (bind_inr _ _ _ tt _ (validation_passes d required_fields _ Hreq)).
        rewrite (getitem_run _ _ _ _ _ Ha), (getitem_run _ _ _ _ _ Hr).
        rewrite (bind_inr _ _ _ _ _ Hrenew), Hok.
        rewrite (getitem_run _ _ _ _ _ Hacc), (getitem_run _ _ _ _ _ Hh),
          (getitem_run _ _ _ _ _ Hx).
        rewrite (bind_inr _ _ _ _ _ Hupd).
        rewrite (getitem_run _ _ _ _ _ Huid). reflexivity.
    + erewrite try_except_inr; [reflexivity |].
      mstep. rewrite (dict_get_some _ _ _ Huid), (dict_get_some _ _ _ Hem).
    rewrite (bind_inr _ _ _ tt _ (validation_passes d required_fields _ Hreq)).
      rewrite (getitem_run _ _ _ _ _ Ha), (getitem_run _ _ _ _ _ Hr).
      rewrite (bind_inr _ _ _ _ _ Hrenew), Hok.
      rewrite (getitem_run _ _ _ _ _ Huid). reflexivity.
Qed.

Lemma renew_outcome_frame w a r s :
  exists calls lg,
    snd (renew_outcome w a r s) = after_renew s calls lg /\
    (calls = [] \/ calls = [expected_call w a r]).
Proof.
  unfold renew_outcome, renew_failed. cbv zeta.
  destruct (configured w); [| eauto].
  destruct (gmail_build w _); [eauto |].
  destruct (gmail_watch w _) as [e | result]; [eauto |].
  destruct result; eauto.
Qed.

Lemma renew_outcome_returns w a r s :
  exists res, fst (renew_outcome w a r s) = inr res.
Proof.
  unfold renew_outcome, renew_failed. cbv zeta.
  destruct (configured w); [| eauto].
  destruct (gmail_build w _); [eauto |].
  destruct (gmail_watch w _) as [e | result]; [eauto |].
  destruct result; eauto.
Qed.

(** The result of the Gmail call does not depend on the state it is made in. *)
Lemma renew_outcome_result w a r s s0 :
  fst (renew_outcome w a r s) = fst (renew_outcome w a r s0).
Proof.
  unfold renew_outcome, renew_failed. cbv zeta.
  destruct (configured w); [| reflexivity].
  destruct (gmail_build w _); [reflexivity |].
  destruct (gmail_watch w _) as [e | result]; [reflexivity |].
  destruct result; reflexivity.
Qed.

Lemma failure_result_not_success e :
  truthy (dict_get (failure_result e) "success") = false.
Proof. unfold failure_result. destruct (exn_cls e); reflexivity. Qed.

(** The Gmail call succeeds exactly when the configuration is complete, the
    client is built, and the API answers with a JSON object. *)
Lemma renew_outcome_success w a r s res :
  fst (renew_outcome w a r s) = inr res ->
  truthy (dict_get res "success") = true ->
  configured w = true /\
  gmail_build w (expected_credentials w a r) = None /\
  exists resp,
    gmail_watch w (expected_call w a r) = inr (PDict resp) /\
    res = success_result resp /\
    snd (renew_outcome w a r s)
    = after_renew s [expected_call w a r]
        [setup_log w; LogRecord INFO "Gmail watch renewal successful: {}" [PDict resp]].
Proof.
  unfold renew_outcome, renew_failed. cbv zeta.
  destruct (configured w);
    [| cbn [fst]; intros [= <-]; now rewrite failure_result_not_success].
  destruct (gmail_build w _);
    [cbn [fst]; intros [= <-]; now rewrite failure_result_not_success |].
  destruct (gmail_watch w _) as [e | result];
    [cbn [fst]; intros [= <-]; now rewrite failure_result_not_success |].
  destruct result;
    try (cbn [fst]; intros [= <-]; now rewrite failure_result_not_success).
  cbn [fst snd]. intros [= <-] _. repeat split. eauto.
Qed.

Lemma renew_outcome_on_success w a r s resp :
  configured w = true ->
  gmail_build w (expected_credentials w a r) = None ->
  gmail_watch w (expected_call w a r) = inr (PDict resp) ->
  renew_outcome w a r s
  = (inr (success_result resp),
     after_renew s [expected_call w a r]
       [setup_log w; LogRecord INFO "Gmail watch renewal successful: {}" [PDict resp]]).
Proof.
  intros Hcfg Hb Hw. unfold renew_outcome. cbv zeta. now rewrite Hcfg, Hb, Hw.
Qed.

Lemma success_result_fields resp :
  truthy (dict_get (success_result resp) "success") = true /\
  success_result resp !! "history_id" = Some (dict_get resp "historyId") /\
  success_result resp !! "expiration" = Some (dict_get resp "expiration").
Proof. repeat split. Qed.

(** ** Worker: rows *)



(** ** Worker: the entry point never raises *)

(** C3.  Whatever the event and whatever the world does (a payload that
    does not decode, a message without its fields, configuration that is
    missing, an error of the Gmail API, an error of the store), the Worker's
    entry point returns normally: no exception leaves it.  Nor does any
    leave [renew_gmail_watch], which turns each failure into a result. *)
Theorem worker_never_raises (w : world) (event : gmap string wire) (s : state) :
  (exists s', renewal_worker_function w event s = (inr tt, s')) /\
  (forall access_token refresh_token s0,
     exists res s1,
       renew_gmail_watch w access_token refresh_token s0 = (inr res, s1)).
Proof.
  split.
  - unfold renewal_worker_function.
    apply (try_except_log_returns _ _ (fun e => [PStr (exn_str e)])).
  - intros a r s0. rewrite renew_gmail_watch_run.
    destruct (renew_outcome_returns w a r s0) as [res Hres].
    destruct (renew_outcome w a r s0) as [r0 s1]. cbn [fst] in Hres. subst r0.
    eauto.
Qed.

(** A store that refuses connections: the Worker logs the error twice (in
    [update_watch_in_database] and at the entry point) and returns. *)
Example worker_swallows_store_error :
  let run := renewal_worker_function broken_store_world (deliver demo_request) demo_state in
  fst run = inr tt /\
  gmail_mailbox_watches (snd run) = demo_mailboxes /\
  db_ops (snd run) = [DbConnect (Some "postgresql://store/watches")] /\
  map log_lvl (logs (snd run)) = [INFO; INFO; INFO; ERROR; ERROR].
Proof. cbv zeta. repeat split; vm_compute; reflexivity. Qed.

(** C4.  A message from which one of [account_id], [user_id], [email],
    [access_token], [refresh_token] is absent makes the Worker return
    normally having touched neither the store nor the Gmail API: only log
    records are added. *)
Theorem worker_rejects_incomplete_message
    (w : world) (event : gmap string wire) (message : pyval) (field : string) (s : state) :
  event !! "data" = Some (inr message) ->
  field ∈ required_fields ->
  field_absent message field ->
  exists s',
    renewal_worker_function w event s = (inr tt, s') /\
    effects s' = effects s /\
    gmail_mailbox_watches s' = gmail_mailbox_watches s /\
    db_ops s' = db_ops s /\
    api_calls s' = api_calls s.
Proof.
  intros Hdata Hin Habs.
  unfold renewal_worker_function. rewrite Hdata.
  destruct message as [| b | z | str | t | l | d];
    try (simpl; eexists; split; [reflexivity | repeat split]).
  simpl in Habs.
  destruct (validation_fails d required_fields
              (set_logs (logs s ++
                 [LogRecord INFO "Processing Gmail watch renewal for user {} ({})"
                    [dict_get d "user_id"; dict_get d "email"]]) s))
    as (f & _ & Hrun); [eauto |].
  erewrite try_except_inl.
  2:{ mstep. apply bind_inl. exact Hrun. }
  eexists; split; [reflexivity | repeat split].
Qed.

(** The demo request without its refresh token. *)
Lemma worker_rejects_incomplete_message_witness :
  exists s',
    renewal_worker_function demo_world
      (deliver (delete "refresh_token" demo_request)) demo_state = (inr tt, s') /\
    effects s' = effects demo_state /\
    gmail_mailbox_watches s' = gmail_mailbox_watches demo_state /\
    db_ops s' = db_ops demo_state /\
    api_calls s' = api_calls demo_state.
Proof.
  apply (worker_rejects_incomplete_message demo_world
           (deliver (delete "refresh_token" demo_request))
           (PDict (delete "refresh_token" demo_request)) "refresh_token" demo_state).
  - reflexivity.
  - unfold required_fields. do 4 apply list_elem_of_further. apply list_elem_of_here.
  - reflexivity.
Defined.

(** ** Worker: the store update *)


Ltac not_in_ops :=
  let H := fresh "H" in
  intros H; simpl in H;
  repeat (destruct H as [H | H]; [discriminate H |]); exact H.

(** C5.  When the UPDATE matches no row, that is, when no row of
    [gmail_mailbox_watches] is active and holds an [account_id] that the
    server finds equal to the parameter, a call of
    [update_watch_in_database] leaves the table as it was and issues no
    commit.  If the UPDATE statement is reached and executes, the call
    returns normally having logged one record, a warning; otherwise it
    raises the error it met.  (Read the other way round: a commit among the
    operations means that the UPDATE matched a row.) *)
Theorem update_without_active_row
    (w : world) (account_id history_id expiration_ms : pyval) (s : state) :
  filter (update_matches w account_id) (gmail_mailbox_watches s) = [] ->
  exists r s' ops,
    update_watch_in_database w account_id history_id expiration_ms s = (r, s') /\
    gmail_mailbox_watches s' = gmail_mailbox_watches s /\
    db_ops s' = db_ops s ++ ops /\
    ~ In DbCommit ops /\
    (r = inr tt ->
       logs s' = logs s ++ [warning_no_watch account_id] /\
       exists dt,
         ops = [DbConnect (getenv w "DATABASE_URL");
                DbUpdateWatch history_id dt account_id; DbClose]) /\
    (forall ms dt,
       env_truthy (getenv w "DATABASE_URL") = true ->
       pg_connect w (getenv w "DATABASE_URL") = None ->
       int_value w expiration_ms = inr ms ->
       timestamp_of_ms w ms = inr dt ->
       pg_execute w (DbUpdateWatch history_id dt account_id) = None ->
       r = inr tt).
Proof.
  intros H0. rewrite update_watch_in_database_run.
  unfold update_outcome, update_failed. cbv zeta. rewrite H0.
  destruct (env_truthy (getenv w "DATABASE_URL")) eqn:Hurl.
  2:{ exists (inl (Exn ValueError "Missing DATABASE_URL environment variable")).
      eexists. exists []. split; [reflexivity |]. cbn. rewrite app_nil_r.
      repeat apply conj;
        try reflexivity; try discriminate; try not_in_ops; intros; congruence. }
  destruct (pg_connect w (getenv w "DATABASE_URL")) as [ec |] eqn:Hc.
  { eexists _, _, _. split; [reflexivity |]. cbn.
    repeat apply conj;
      try reflexivity; try discriminate; try not_in_ops; intros; congruence. }
  destruct (int_value w expiration_ms) as [ei | ms] eqn:Hi.
  { eexists _, _, _. split; [reflexivity |]. cbn.
    repeat apply conj;
      try reflexivity; try discriminate; try not_in_ops; intros; congruence. }
  destruct (timestamp_of_ms w ms) as [et | dt] eqn:Ht.
  { eexists _, _, _. split; [reflexivity |]. cbn.
    repeat apply conj;
      try reflexivity; try discriminate; try not_in_ops; intros; congruence. }
  destruct (pg_execute w (DbUpdateWatch history_id dt account_id)) as [ex |] eqn:Hx.
  { eexists _, _, _. split; [reflexivity |]. cbn.
    repeat apply conj;
      try reflexivity; try discriminate; try not_in_ops; intros; congruence. }
  eexists _, _, _. split; [reflexivity |]. cbn.
  repeat apply conj; try reflexivity; try not_in_ops.
  intros _. split; [reflexivity | eauto].
Qed.

Lemma update_without_active_row_witness :
  exists r s' ops,
    update_watch_in_database demo_world (PStr "A3") (PStr "999") (PStr "1700604800000")
      demo_state = (r, s') /\
    gmail_mailbox_watches s' = gmail_mailbox_watches demo_state /\
    db_ops s' = db_ops demo_state ++ ops /\
    ~ In DbCommit ops /\
    (r = inr tt ->
       logs s' = logs demo_state ++ [warning_no_watch (PStr "A3")] /\
       exists dt,
         ops = [DbConnect (getenv demo_world "DATABASE_URL");
                DbUpdateWatch (PStr "999") dt (PStr "A3"); DbClose]) /\
    (forall ms dt,
       env_truthy (getenv demo_world "DATABASE_URL") = true ->
       pg_connect demo_world (getenv demo_world "DATABASE_URL") = None ->
       int_value demo_world (PStr "1700604800000") = inr ms ->
       timestamp_of_ms demo_world ms = inr dt ->
       pg_execute demo_world (DbUpdateWatch (PStr "999") dt (PStr "A3")) = None ->
       r = inr tt).
Proof.
  apply (update_without_active_row demo_world (PStr "A3") (PStr "999")
           (PStr "1700604800000") demo_state).
  reflexivity.
Defined.

(** Account A3 has an inactive row only: the UPDATE runs, matches nothing,
    and the call ends with a warning and without a commit. *)
Example update_without_active_row_demo :
  let run :=
    update_watch_in_database demo_world (PStr "A3") (PStr "999") (PStr "1700604800000")
      demo_state in
  fst run = inr tt /\
  gmail_mailbox_watches (snd run) = demo_mailboxes /\
  db_ops (snd run)
  = [ DbConnect (Some "postgresql://store/watches");
      DbUpdateWatch (PStr "999") 1700604800000000 (PStr "A3");
      DbClose ] /\
  logs (snd run) = [warning_no_watch (PStr "A3")].
Proof. cbv zeta. repeat split; vm_compute; reflexivity. Qed.



(** The renewed row of the demo store. *)
Example worker_renews_demo_mailbox :
  gmail_mailbox_watches
    (snd (renewal_worker_function demo_world (deliver demo_request) demo_state))
  = [ MailboxRow (PStr "A1") (PStr "999") (Some 1700604800000000) true;
      MailboxRow (PStr "A2") (PStr "200") (Some 1700005400000000) true;
      MailboxRow (PStr "A3") (PStr "300") (Some 1700000600000000) false ].
Proof. vm_compute. reflexivity. Qed.

(** Two ways [renew_gmail_watch] comes back with [success: False]. *)
Lemma renew_fails_without_configuration w a r s :
  configured w = false ->
  exists res,
    fst (renew_gmail_watch w a r s) = inr res /\
    truthy (dict_get res "success") = false.
Proof.
  intros Hcfg. rewrite renew_gmail_watch_run. unfold renew_outcome. cbv zeta.
  rewrite Hcfg. eexists. split; [reflexivity | apply failure_result_not_success].
Qed.

Lemma renew_fails_on_api_error w a r s e :
  configured w = true ->
  gmail_build w (expected_credentials w a r) = None ->
  gmail_watch w (expected_call w a r) = inl e ->
  exists res,
    fst (renew_gmail_watch w a r s) = inr res /\
    truthy (dict_get res "success") = false /\
    api_calls (snd (renew_gmail_watch w a r s)) = api_calls s ++ [expected_call w a r].
Proof.
  intros Hcfg Hb Hw. rewrite renew_gmail_watch_run. unfold renew_outcome. cbv zeta.
  rewrite Hcfg, Hb, Hw. eexists.
  split; [reflexivity |]. split; [apply failure_result_not_success | reflexivity].
Qed.

(** C10.  When [renew_gmail_watch] returns [success: False] for the tokens
    of a complete message, the Worker returns normally without having opened
    a connection to the store or issued any operation on it: the tables are
    as they were. *)
Theorem worker_failed_renewal_leaves_store
    (w : world) (event : gmap string wire) (d res : gmap string pyval)
    (acc uid em a r : pyval) (s : state) :
  event !! "data" = Some (inr (PDict d)) ->
  complete d acc uid em a r ->
  fst (renew_gmail_watch w a r s) = inr res ->
  truthy (dict_get res "success") = false ->
  exists s',
    renewal_worker_function w event s = (inr tt, s') /\
    db_ops s' = db_ops s /\
    conn s' = conn s /\
    gmail_mailbox_watches s' = gmail_mailbox_watches s /\
    gmail_watches s' = gmail_watches s.
Proof.
  intros Hdata Hd Hres Hfail.
  rewrite (renewal_worker_function_run _ _ _ _ _ _ _ _ _ Hdata Hd).
  unfold worker_outcome.
  rewrite renew_gmail_watch_run in Hres.
  rewrite (renew_outcome_result w a r s (add_log (processing_log uid em) s)) in Hres.
  destruct (renew_outcome_frame w a r (add_log (processing_log uid em) s))
    as (calls & lg & Hsnd & _).
  destruct (renew_outcome w a r (add_log (processing_log uid em) s)) as [res' s2].
  cbn [fst snd] in Hres, Hsnd. subst res' s2. rewrite Hfail.
  eexists. split; [reflexivity |]. repeat split.
Qed.

Lemma worker_failed_renewal_leaves_store_witness :
  exists s',
    renewal_worker_function unconfigured_world (deliver demo_request) demo_state
    = (inr tt, s') /\
    db_ops s' = db_ops demo_state /\
    conn s' = conn demo_state /\
    gmail_mailbox_watches s' = gmail_mailbox_watches demo_state /\
    gmail_watches s' = gmail_watches demo_state.
Proof.
  apply (worker_failed_renewal_leaves_store unconfigured_world (deliver demo_request)
           demo_request
           (failure_result (Exn ValueError "Missing required environment variables"))
           (PStr "A1") (PStr "U1") (PStr "u1@example.com")
           (PStr "ya29.token") (PStr "1//refresh") demo_state).
  - reflexivity.
  - constructor; reflexivity.
  - vm_compute. reflexivity.
  - reflexivity.
Defined.

Lemma update_outcome_frame w acc h x s :
  api_calls (snd (update_outcome w acc h x s)) = api_calls s /\
  gmail_watches (snd (update_outcome w acc h x s)) = gmail_watches s /\
  queue (snd (update_outcome w acc h x s)) = queue s.
Proof.
  unfold update_outcome, update_failed. cbv zeta.
  destruct (env_truthy _); [| repeat split].
  destruct (pg_connect w _); [repeat split |].
  destruct (int_value w x) as [e | ms]; [repeat split |].
  destruct (timestamp_of_ms w ms) as [e | dt]; [repeat split |].
  destruct (pg_execute w _); [repeat split |].
  destruct (filter _ _); [repeat split |].
  destruct (pg_commit w); repeat split.
Qed.

Lemma worker_outcome_returns w acc uid em a r s :
  fst (worker_outcome w acc uid em a r s) = inr tt.
Proof.
  unfold worker_outcome.
  destruct (renew_outcome w a r _) as [[e | res] s2]; [reflexivity |].
  destruct (truthy _); [| reflexivity].
  destruct (res !! "history_id"); [| reflexivity].
  destruct (res !! "expiration"); [| reflexivity].
  destruct (update_outcome w acc _ _ s2) as [[e | u] s3]; reflexivity.
Qed.

Lemma worker_outcome_api_calls w acc uid em a r s :
  exists calls,
    api_calls (snd (worker_outcome w acc uid em a r s)) = api_calls s ++ calls /\
    (calls = [] \/ calls = [expected_call w a r]).
Proof.
  unfold worker_outcome.
  destruct (renew_outcome_frame w a r (add_log (processing_log uid em) s))
    as (calls & lg & Hsnd & Hcalls).
  exists calls. split; [| exact Hcalls].
  destruct (renew_outcome w a r _) as [[e | res] s2]; cbn [snd] in Hsnd; subst s2;
    [reflexivity |].
  destruct (truthy _); [| reflexivity].
  destruct (res !! "history_id") as [h |]; [| reflexivity].
  destruct (res !! "expiration") as [x |]; [| reflexivity].
  pose proof (update_outcome_frame w acc h x
                (after_renew (add_log (processing_log uid em) s) calls lg)) as (Hapi & _).
  destruct (update_outcome w acc h x _) as [[e | u] s3]; cbn [snd] in Hapi |- *;
    cbn [add_log set_logs api_calls]; rewrite Hapi; reflexivity.
Qed.

(** On complete messages with the same tokens and account, the entry point
    ends in states that differ in the log only. *)
Lemma worker_outcome_effects w acc a r uid1 em1 uid2 em2 s :
  effects (snd (worker_outcome w acc uid1 em1 a r s))
  = effects (snd (worker_outcome w acc uid2 em2 a r s)).
Proof.
  unfold worker_outcome.
  pose proof (sim_renew_gmail_watch w a r
                (add_log (processing_log uid1 em1) s)
                (add_log (processing_log uid2 em2) s) eq_refl) as Hrenew.
  rewrite !renew_gmail_watch_run in Hrenew.
  destruct (renew_outcome w a r (add_log (processing_log uid1 em1) s)) as [[e1 | res1] t1],
           (renew_outcome w a r (add_log (processing_log uid2 em2) s)) as [[e2 | res2] t2];
    try contradiction; destruct Hrenew as [<- Ht]; [exact Ht |].
  destruct (truthy _); [| exact Ht].
  destruct (res1 !! "history_id") as [h |]; [| exact Ht].
  destruct (res1 !! "expiration") as [x |]; [| exact Ht].
  pose proof (sim_update_watch_in_database w acc h x t1 t2 Ht) as Hupd.
  rewrite !update_watch_in_database_run in Hupd.
  destruct (update_outcome w acc h x t1) as [[e1 | u1] t1'],
           (update_outcome w acc h x t2) as [[e2 | u2] t2'];
    try contradiction; destruct Hupd as [_ Ht']; exact Ht'.
Qed.

(** C9.  Two complete messages with the same [access_token],
    [refresh_token] and [account_id] (whatever their [user_id], [email],
    [watch_id] or other fields) make the Worker do the same things: the
    same Gmail calls, the same operations on the store, the same tables
    afterwards; the runs differ in their log records only.  The one call
    the Worker can make carries the message's two tokens and the body
    [{labelIds: ['INBOX'], labelFilterAction: 'include'}], with [topicName]
    added when a reply topic is configured. *)
Theorem worker_depends_on_tokens_and_account_only
    (w : world) (d1 d2 : gmap string pyval)
    (acc a r uid1 em1 uid2 em2 : pyval) (s : state) :
  complete d1 acc uid1 em1 a r ->
  complete d2 acc uid2 em2 a r ->
  exists s1 s2 calls,
    renewal_worker_function w (deliver d1) s = (inr tt, s1) /\
    renewal_worker_function w (deliver d2) s = (inr tt, s2) /\
    effects s1 = effects s2 /\
    api_calls s1 = api_calls s2 /\
    db_ops s1 = db_ops s2 /\
    gmail_mailbox_watches s1 = gmail_mailbox_watches s2 /\
    api_calls s1 = api_calls s ++ calls /\
    (calls = [] \/ calls = [expected_call w a r]) /\
    token (call_credentials (expected_call w a r)) = a /\
    refresh_token (call_credentials (expected_call w a r)) = r /\
    (call_body (expected_call w a r) = inbox_watch_request \/
     call_body (expected_call w a r)
     = <["topicName" := PStr (reply_topic_name w)]> inbox_watch_request).
Proof.
  intros Hd1 Hd2.
  assert (Hdata : forall d, deliver d !! "data" = Some (inr (PDict d)))
    by (intros d; apply lookup_singleton_eq).
  rewrite (renewal_worker_function_run _ _ _ _ _ _ _ _ _ (Hdata d1) Hd1).
  rewrite (renewal_worker_function_run _ _ _ _ _ _ _ _ _ (Hdata d2) Hd2).
  pose proof (worker_outcome_returns w acc uid1 em1 a r s) as Hr1.
  pose proof (worker_outcome_returns w acc uid2 em2 a r s) as Hr2.
  pose proof (worker_outcome_effects w acc a r uid1 em1 uid2 em2 s) as Heff.
  destruct (worker_outcome_api_calls w acc uid1 em1 a r s) as (calls & Hcalls & Hshape).
  destruct (worker_outcome w acc uid1 em1 a r s) as [r1 s1],
           (worker_outcome w acc uid2 em2 a r s) as [r2 s2].
  cbn [fst snd] in *. subst r1 r2.
  pose proof (proj1 (effects_eq s1 s2) Heff) as (_ & Hmb & _ & Hops & Hapi & _ & _).
  exists s1, s2, calls. repeat apply conj; try reflexivity; try assumption.
  unfold expected_call, expected_body. cbn [call_body].
  destruct (env_truthy _); [now right | now left].
Qed.

Lemma worker_depends_on_tokens_and_account_only_witness :
  exists s1 s2,
    renewal_worker_function demo_world (deliver demo_request) demo_state = (inr tt, s1) /\
    renewal_worker_function demo_world (deliver demo_request') demo_state = (inr tt, s2) /\
    effects s1 = effects s2 /\
    api_calls s1
    = [expected_call demo_world (PStr "ya29.token") (PStr "1//refresh")].
Proof.
  destruct (worker_depends_on_tokens_and_account_only demo_world demo_request
              demo_request' (PStr "A1") (PStr "ya29.token") (PStr "1//refresh")
              (PStr "U1") (PStr "u1@example.com")
              (PStr "U9") (PStr "other@example.com") demo_state)
    as (s1 & s2 & calls & H1 & H2 & Heff & _ & _ & _ & Hcalls & _).
  - constructor; reflexivity.
  - constructor; reflexivity.
  - exists s1, s2. repeat split; try assumption.
    replace s1
      with (snd (renewal_worker_function demo_world (deliver demo_request) demo_state))
      by (now rewrite H1).
    vm_compute. reflexivity.
Defined.

(** ** Worker and Scanner: the message that travels between them *)

Lemma renewal_message_fields w uid em wid now :
  let m := renewal_message w uid em wid now in
  m !! "user_id" = Some uid /\ m !! "email" = Some em /\
  m !! "watch_id" = Some wid /\
  m !! "account_id" = None /\
  m !! "access_token" = None /\
  m !! "refresh_token" = None.
Proof. repeat split. Qed.

(** C1 (what the code does).  A message the Scanner builds never passes
    the Worker's validation: it has no [account_id] (nor [access_token], nor
    [refresh_token]), so the Worker logs the [ValueError] and returns, with no
    Gmail call made and no operation on the store. *)
Theorem scanner_message_fails_worker_validation
    (w : world) (uid em wid : pyval) (now : Z) (s : state) :
  renewal_worker_function w (deliver (renewal_message w uid em wid now)) s
  = (inr tt,
     add_log (worker_failed_log (Exn ValueError "Missing required field: account_id"))
       (add_log (processing_log uid em) s)).
Proof.
  unfold renewal_worker_function.
  assert (Hdata : deliver (renewal_message w uid em wid now) !! "data"
                  = Some (inr (PDict (renewal_message w uid em wid now))))
    by apply lookup_singleton_eq.
  rewrite Hdata.
  erewrite try_except_inl; [reflexivity |].
  mstep.
  assert (Huid : dict_get (renewal_message w uid em wid now) "user_id" = uid)
    by reflexivity.
  assert (Hem : dict_get (renewal_message w uid em wid now) "email" = em)
    by reflexivity.
  rewrite Huid, Hem.
  cbn [for_each required_fields].
  assert (Hacc : dict_has (renewal_message w uid em wid now) "account_id" = false)
    by reflexivity.
  rewrite Hacc. mstep. reflexivity.
Qed.

(** ** Scanner: the query *)

Lemma insert_by_expiration_perm w r l :
  Permutation (insert_by_expiration w r l) (r :: l).
Proof.
  induction l as [| r' l IH]; simpl; [reflexivity |].
  destruct (expiration_le w r r'); [reflexivity |].
  rewrite IH. apply perm_swap.
Qed.

Lemma order_by_expiration_perm w l : Permutation (order_by_expiration w l) l.
Proof.
  induction l as [| r l IH]; simpl; [reflexivity |].
  rewrite insert_by_expiration_perm. now constructor.
Qed.

Lemma expiration_le_key w a b :
  expiration_le w a b = true -> expiration_key_le a b = true.
Proof.
  unfold expiration_le, expiration_key_le.
  destruct (w_expiration_time a) as [x |], (w_expiration_time b) as [y |];
    try discriminate; try reflexivity.
  intros H. apply Z.leb_le.
  apply orb_prop in H as [H | H]; [apply Z.ltb_lt in H; lia |].
  apply andb_prop in H as [H _]. apply Z.eqb_eq in H. lia.
Qed.

Lemma expiration_le_total w a b :
  expiration_le w a b = false -> expiration_key_le b a = true.
Proof.
  unfold expiration_le, expiration_key_le.
  destruct (w_expiration_time a) as [x |], (w_expiration_time b) as [y |];
    try discriminate; try reflexivity.
  intros H. apply Z.leb_le.
  apply orb_false_elim in H as [H _]. apply Z.ltb_ge in H. exact H.
Qed.

Lemma expiration_le_trans a b c :
  expiration_key_le a b = true -> expiration_key_le b c = true ->
  expiration_key_le a c = true.
Proof.
  unfold expiration_key_le.
  destruct (w_expiration_time a) as [x |], (w_expiration_time b) as [y |],
           (w_expiration_time c) as [z |]; try discriminate; try reflexivity.
  intros H1 H2. apply Z.leb_le in H1, H2. apply Z.leb_le. lia.
Qed.

Lemma insert_by_expiration_sorted w r l :
  Sorted (fun a b => expiration_key_le a b = true) l ->
  Sorted (fun a b => expiration_key_le a b = true) (insert_by_expiration w r l).
Proof.
  induction l as [| r' l IH]; intros Hs; simpl.
  - repeat constructor.
  - destruct (expiration_le w r r') eqn:Hle.
    + constructor; [exact Hs | constructor; now apply (expiration_le_key w)].
    + inversion Hs as [| ? ? Hs' Hhd]; subst.
      constructor; [now apply IH |].
      destruct l as [| r'' l]; simpl.
      * constructor. now apply (expiration_le_total w).
      * destruct (expiration_le w r r''); constructor.
        -- now apply (expiration_le_total w).
        -- now inversion Hhd.
Qed.

Lemma order_by_expiration_sorted w l :
  StronglySorted (fun a b => expiration_key_le a b = true) (order_by_expiration w l).
Proof.
  apply Sorted_StronglySorted.
  - intros a b c. apply expiration_le_trans.
  - induction l as [| r l IH]; simpl; [constructor |].
    now apply insert_by_expiration_sorted.
Qed.

Lemma expiring_spec threshold r :
  expiring threshold r = true <->
  w_is_active r = true /\
  exists t, w_expiration_time r = Some t /\ t <= threshold.
Proof.
  unfold expiring. destruct (w_expiration_time r) as [t |]; simpl.
  - rewrite andb_true_iff, Z.leb_le. split.
    + intros [Ht Ha]. eauto.
    + intros (Ha & t' & [= <-] & Ht). auto.
  - split; [discriminate |]. intros (_ & t & [=] & _).
Qed.

Lemma StronglySorted_on {A} (P : A -> Prop) (R R' : A -> A -> Prop) (l : list A) :
  (forall a b, P a -> P b -> R a b -> R' a b) ->
  Forall P l -> StronglySorted R l -> StronglySorted R' l.
Proof.
  intros HR HP Hs. induction Hs as [| a l Hl IH Hall]; [constructor |].
  inversion HP as [| ? ? Ha HPl]; subst.
  constructor; [now apply IH |].
  rewrite Forall_forall in Hall, HPl |- *. intros b Hb.
  apply HR; auto.
Qed.

(** The rows the query returns: the expiring rows of the table, each as
    often as the table has it, soonest first. *)
Lemma select_expiring_spec w threshold table :
  Permutation (select_expiring w threshold table) (filter (expiring threshold) table) /\
  (forall r,
     r ∈ select_expiring w threshold table <->
     r ∈ table /\ w_is_active r = true /\
     exists t, w_expiration_time r = Some t /\ t <= threshold) /\
  StronglySorted expires_no_later (select_expiring w threshold table).
Proof.
  unfold select_expiring.
  pose proof (order_by_expiration_perm w (filter (expiring threshold) table)) as Hperm.
  assert (Hmem : forall r,
    r ∈ order_by_expiration w (filter (expiring threshold) table) <->
    r ∈ table /\ w_is_active r = true /\
    exists t, w_expiration_time r = Some t /\ t <= threshold).
  { intros r. rewrite Hperm, list_elem_of_filter, Is_true_true, expiring_spec. tauto. }
  split; [exact Hperm |]. split; [exact Hmem |].
  apply (StronglySorted_on (fun r => exists t, w_expiration_time r = Some t)
           (fun a b => expiration_key_le a b = true)).
  - intros a b [x Hx] [y Hy] Hle. exists x, y. repeat split; try assumption.
    unfold expiration_key_le in Hle. rewrite Hx, Hy in Hle. now apply Z.leb_le.
  - apply Forall_forall. intros r Hr.
    apply Hmem in Hr.
    destruct Hr as (_ & _ & t & Ht & _). eauto.
  - apply order_by_expiration_sorted.
Qed.

Lemma bind_utcnow {B} w (k : Z -> M B) s :
  bind (utcnow w) k s = k (utc_clock w (ticks s)) (set_ticks (S (ticks s)) s).
Proof. reflexivity. Qed.

Lemma timedelta_inr w h d : timedelta w h = inr d -> d = timedelta_hours h.
Proof. unfold timedelta. destruct (_ && _); congruence. Qed.

Lemma datetime_add_inr t d v : datetime_add t d = inr v -> v = t + d.
Proof. unfold datetime_add. destruct (_ && _); congruence. Qed.

Lemma get_expiring_watches_run w url hours s :
  get_expiring_watches w url hours s = query_outcome w url hours s.
Proof.
  destruct s as [gw mb c ops api q lg tk].
  unfold get_expiring_watches, query_outcome, threshold_error, threshold_at. cbv zeta.
  cbn [ticks gmail_watches].
  destruct (timedelta w hours) as [et | delta] eqn:Htd.
  { erewrite try_except_inl by (rewrite bind_utcnow; mstep; reflexivity).
    mstep. unfold after_query, query_error_log. cbn. rewrite ?app_nil_r. reflexivity. }
  pose proof (timedelta_inr _ _ _ Htd) as ->.
  destruct (datetime_add (utc_clock w tk) (timedelta_hours hours)) as [ea | thr] eqn:Hadd.
  { erewrite try_except_inl by (rewrite bind_utcnow; mstep; rewrite ?Hadd; mstep; reflexivity).
    mstep. unfold after_query, query_error_log. cbn. rewrite ?app_nil_r. reflexivity. }
  pose proof (datetime_add_inr _ _ _ Hadd) as ->.
  destruct (pg_connect w url) as [ec |] eqn:Hc.
  { erewrite try_except_inl
      by (rewrite bind_utcnow; mstep; rewrite ?Hadd; mstep; rewrite ?Hc; mstep; reflexivity).
    mstep. unfold after_query, query_error_log. cbn. rewrite <- ?app_assoc. reflexivity. }
  destruct (pg_execute w _) as [ex |] eqn:Hx.
  { erewrite try_except_inl
      by (rewrite bind_utcnow; mstep; rewrite ?Hadd; mstep; rewrite ?Hc; mstep;
          rewrite ?Hx; mstep; reflexivity).
    mstep. unfold after_query, query_error_log. cbn. rewrite <- ?app_assoc. reflexivity. }
  erewrite try_except_inr
    by (rewrite bind_utcnow; mstep; rewrite ?Hadd; mstep; rewrite ?Hc; mstep;
        rewrite ?Hx; mstep; reflexivity).
  unfold after_query. cbn. rewrite <- ?app_assoc. reflexivity.
Qed.

Lemma threshold_in_range w hours s :
  -999999999 <= hours / 24 <= 999999999 ->
  datetime_min <= utc_clock w (ticks s) + hours * 3600000000 <= datetime_max ->
  threshold_error w hours s = None.
Proof.
  intros Hdays Hdate. unfold threshold_error, timedelta, datetime_add, timedelta_hours.
  destruct (Z.leb_spec (-999999999) (hours / 24)); [| lia].
  destruct (Z.leb_spec (hours / 24) 999999999); [| lia]. cbn [andb].
  destruct (Z.leb_spec datetime_min (utc_clock w (ticks s) + hours * 3600000000)); [| lia].
  destruct (Z.leb_spec (utc_clock w (ticks s) + hours * 3600000000) datetime_max); [| lia].
  reflexivity.
Qed.

(** C2.  Whatever the table holds, when the lookahead is one a timedelta
    holds, the threshold is a date between the years 1 and 9999 and the
    store answers, the query of [get_expiring_watches] returns one
    dictionary, with [user_id], [email], [watch_id] and the ISO form of
    [expiration_time], for each of exactly the rows that are active and
    whose expiration is at or before the clock's reading plus [hours_ahead]
    hours (each as often as the table has it, none other), soonest-expiring
    first; and with [hours_ahead] left to its default the threshold is two
    hours after the reading. *)
Theorem scanner_selects_expiring_watches
    (w : world) (database_url : option string) (hours_ahead : Z) (s : state) :
  -999999999 <= hours_ahead / 24 <= 999999999 ->
  datetime_min <= utc_clock w (ticks s) + hours_ahead * 3600000000 <= datetime_max ->
  pg_connect w database_url = None ->
  pg_execute w
    (DbSelectExpiring (utc_clock w (ticks s) + hours_ahead * 3600000000)) = None ->
  exists rows watches s',
    get_expiring_watches w database_url hours_ahead s = (inr watches, s') /\
    Forall2 (fun watch row =>
               exists t,
                 w_expiration_time row = Some t /\
                 watch = {[ "user_id" := w_user_id row;
                            "email" := w_email row;
                            "watch_id" := w_watch_id row;
                            "expiration_time" := PStr (isoformat w t) ]})
            watches rows /\
    Permutation rows
      (filter (fun r => expiring (utc_clock w (ticks s) + hours_ahead * 3600000000) r)
         (gmail_watches s)) /\
    (forall r,
       r ∈ rows <->
       r ∈ gmail_watches s /\ w_is_active r = true /\
       exists t,
         w_expiration_time r = Some t /\
         t <= utc_clock w (ticks s) + hours_ahead * 3600000000) /\
    StronglySorted expires_no_later rows /\
    threshold_at w default_hours_ahead s = utc_clock w (ticks s) + 7200000000.
Proof.
  intros Hdays Hdate Hc Hx. rewrite get_expiring_watches_run.
  unfold query_outcome. cbv zeta.
  rewrite (threshold_in_range w hours_ahead s Hdays Hdate).
  change (utc_clock w (ticks s) + hours_ahead * 3600000000)
    with (threshold_at w hours_ahead s) in *.
  rewrite Hc, Hx.
  destruct (select_expiring_spec w (threshold_at w hours_ahead s) (gmail_watches s))
    as (Hperm & Hmem & Hsorted).
  eexists _, _, _. split; [reflexivity |].
  split; [| split; [exact Hperm |]; split; [exact Hmem |];
            split; [exact Hsorted | reflexivity]].
  apply Forall2_fmap_l, Forall_Forall2_diag, Forall_forall. intros row Hrow.
  apply Hmem in Hrow. destruct Hrow as (_ & _ & t & Ht & _).
  exists t. split; [exact Ht |]. unfold watch_dict. now rewrite Ht.
Qed.

Lemma scanner_selects_expiring_watches_witness :
  exists rows watches s',
    get_expiring_watches demo_world (getenv demo_world "DATABASE_URL") 2 demo_state
    = (inr watches, s') /\
    Forall2 (fun watch row =>
               exists t,
                 w_expiration_time row = Some t /\
                 watch = {[ "user_id" := w_user_id row;
                            "email" := w_email row;
                            "watch_id" := w_watch_id row;
                            "expiration_time" := PStr (isoformat demo_world t) ]})
            watches rows /\
    Permutation rows
      (filter (fun r => expiring (utc_clock demo_world (ticks demo_state) + 2 * 3600000000) r)
         (gmail_watches demo_state)) /\
    (forall r,
       r ∈ rows <->
       r ∈ gmail_watches demo_state /\ w_is_active r = true /\
       exists t,
         w_expiration_time r = Some t /\
         t <= utc_clock demo_world (ticks demo_state) + 2 * 3600000000) /\
    StronglySorted expires_no_later rows /\
    threshold_at demo_world default_hours_ahead demo_state
    = utc_clock demo_world (ticks demo_state) + 7200000000.
Proof.
  apply (scanner_selects_expiring_watches demo_world
           (getenv demo_world "DATABASE_URL") 2 demo_state).
  - vm_compute. split; discriminate.
  - vm_compute. split; discriminate.
  - reflexivity.
  - reflexivity.
Defined.

(** In the demo store the two watches expiring within two hours are
    selected, the one expiring in 30 minutes first. *)
Example select_expiring_demo :
  select_expiring demo_world (threshold_at demo_world 2 demo_state) demo_watches
  = [ WatchRow (PStr "U1") (PStr "u1@example.com") (PStr "W1") (Some 1700001800000000) true;
      WatchRow (PStr "U2") (PStr "u2@example.com") (PStr "W2") (Some 1700005400000000) true ].
Proof. reflexivity. Qed.

(** The dictionaries the query returns for them. *)
Example get_expiring_watches_demo :
  fst (get_expiring_watches demo_world (getenv demo_world "DATABASE_URL") 2 demo_state)
  = inr [ {[ "user_id" := PStr "U1"; "email" := PStr "u1@example.com";
             "watch_id" := PStr "W1";
             "expiration_time" := PStr "us:1700001800000000" ]};
          {[ "user_id" := PStr "U2"; "email" := PStr "u2@example.com";
             "watch_id" := PStr "W2";
             "expiration_time" := PStr "us:1700005400000000" ]} ].
Proof. vm_compute. reflexivity. Qed.

(** ** Scanner: publishing *)

Lemma watch_dict_fields w row :
  watch_dict w row !! "user_id" = Some (w_user_id row) /\
  watch_dict w row !! "email" = Some (w_email row) /\
  watch_dict w row !! "watch_id" = Some (w_watch_id row).
Proof. repeat split. Qed.

Lemma publish_loop_run w topic rows n s :
  publish_loop w topic (map (watch_dict w) rows) n s = publish_rows w topic rows n s.
Proof.
  revert n s. induction rows as [| row rows IH]; intros n s; [reflexivity |].
  destruct (watch_dict_fields w row) as (Hu & He & Hw).
  cbn [map publish_loop publish_rows].
  rewrite (getitem_run _ _ _ _ _ Hu), (getitem_run _ _ _ _ _ He),
    (getitem_run _ _ _ _ _ Hw).
  rewrite bind_utcnow. unfold publish. mstep.
  destruct (pubsub_publish w n topic _) as [e | message_id]; mstep.
  - reflexivity.
  - rewrite IH. reflexivity.
Qed.

Lemma publish_rows_spec w topic rows n s :
  exists msgs,
    queue (snd (publish_rows w topic rows n s)) = queue s ++ msgs /\
    db_ops (snd (publish_rows w topic rows n s)) = db_ops s /\
    match fst (publish_rows w topic rows n s) with
    | inr c => c = (n + length rows)%nat /\ length msgs = length rows
    | inl e =>
        (length msgs < length rows)%nat /\
        exists m, pubsub_publish w (n + length msgs) topic m = inl e
    end /\
    (forall i, (i < length msgs)%nat ->
       exists m message_id, pubsub_publish w (n + i) topic m = inr message_id).
Proof.
  revert n s. induction rows as [| row rows IH]; intros n s.
  - exists []. cbn. rewrite app_nil_r.
    repeat split; try lia; try (intros i Hi; cbn in Hi; lia).
  - cbn [publish_rows].
    destruct (pubsub_publish w n topic _) as [e | message_id] eqn:Hp.
    + exists []. cbn. rewrite app_nil_r, Nat.add_0_r.
      repeat split; try lia; eauto; try (intros i Hi; cbn in Hi; lia).
    + destruct (IH (S n) (published s topic
                    (renewal_message w (w_user_id row) (w_email row) (w_watch_id row)
                       (utc_clock w (ticks s))) message_id (w_user_id row)))
        as (msgs & Hq & Hops & Hres & Hack).
      eexists (_ :: msgs). rewrite Hq, Hops. cbn [published queue db_ops].
      rewrite <- app_assoc. split; [reflexivity |]. split; [reflexivity |]. split.
      * destruct (fst (publish_rows _ _ _ _ _)) as [e | c]; cbn [length].
        -- destruct Hres as [Hlt [m Hm]]. split; [lia |]. exists m.
           now replace (n + S (length msgs))%nat with (S n + length msgs)%nat by lia.
        -- destruct Hres as [-> Hlen]. split; lia.
      * intros [| i] Hi.
        -- rewrite Nat.add_0_r. eauto.
        -- cbn [length] in Hi. destruct (Hack i) as (m & mid & Hm); [lia |].
           exists m, mid. now replace (n + S i)%nat with (S n + i)%nat by lia.
Qed.

(** When the broker acknowledges the first [k] messages and fails on the
    next, the loop stops there with [k] messages on the queue. *)
Lemma publish_rows_fails_at w topic rows n s k e :
  (k < length rows)%nat ->
  (forall i, (i < k)%nat -> forall m, exists mid, pubsub_publish w (n + i) topic m = inr mid) ->
  (forall m, pubsub_publish w (n + k) topic m = inl e) ->
  fst (publish_rows w topic rows n s) = inl e /\
  length (queue (snd (publish_rows w topic rows n s))) = (length (queue s) + k)%nat.
Proof.
  revert n s k. induction rows as [| row rows IH]; intros n s k Hk Hack Hfail.
  - cbn in Hk. lia.
  - cbn [publish_rows]. destruct k as [| k].
    + rewrite Nat.add_0_r in Hfail. rewrite Hfail. cbn. split; [reflexivity | lia].
    + destruct (Hack 0%nat ltac:(lia)
                  (renewal_message w (w_user_id row) (w_email row) (w_watch_id row)
                     (utc_clock w (ticks s)))) as (mid & Hmid).
      rewrite Nat.add_0_r in Hmid. rewrite Hmid.
      destruct (IH (S n) (published s topic
                    (renewal_message w (w_user_id row) (w_email row) (w_watch_id row)
                       (utc_clock w (ticks s))) mid (w_user_id row)) k)
        as (Hres & Hlen).
      * cbn [length] in Hk. lia.
      * intros i Hi m. destruct (Hack (S i) ltac:(lia) m) as (mid' & Hm).
        exists mid'. now replace (S n + i)%nat with (n + S i)%nat by lia.
      * intros m. now replace (S n + k)%nat with (n + S k)%nat by lia.
      * split; [exact Hres |]. rewrite Hlen. cbn [published queue].
        rewrite length_app. cbn. lia.
Qed.

(** When the broker acknowledges every message, the loop publishes them all. *)
Lemma publish_rows_all w topic rows n s :
  (forall i, (i < length rows)%nat ->
     forall m, exists mid, pubsub_publish w (n + i) topic m = inr mid) ->
  fst (publish_rows w topic rows n s) = inr (n + length rows)%nat.
Proof.
  revert n s. induction rows as [| row rows IH]; intros n s Hack.
  - cbn. f_equal. lia.
  - cbn [publish_rows].
    destruct (Hack 0%nat ltac:(cbn; lia)
                (renewal_message w (w_user_id row) (w_email row) (w_watch_id row)
                   (utc_clock w (ticks s)))) as (mid & Hmid).
    rewrite Nat.add_0_r in Hmid. rewrite Hmid. rewrite IH.
    + f_equal. cbn [length]. lia.
    + intros i Hi m. destruct (Hack (S i) ltac:(cbn; lia) m) as (mid' & Hm).
      exists mid'. now replace (S n + i)%nat with (n + S i)%nat by lia.
Qed.

Lemma publish_renewal_messages_run w project_id topic_id rows s :
  publish_renewal_messages w project_id topic_id (map (watch_dict w) rows) s
  = publish_outcome w project_id topic_id rows s.
Proof.
  unfold publish_renewal_messages, publish_outcome, topic_path_of.
  destruct (pubsub_client w) as [e |].
  { erewrite try_except_inl by (mstep; reflexivity). mstep. reflexivity. }
  destruct (publish_rows w _ rows 0 s) as [[e | n] s'] eqn:Hrows.
  - erewrite try_except_inl by (mstep; rewrite publish_loop_run; exact Hrows).
    mstep. reflexivity.
  - erewrite try_except_inr by (mstep; rewrite publish_loop_run; exact Hrows).
    reflexivity.
Qed.

(** ** Scanner: the entry point *)

Lemma watch_query_function_run w s :
  watch_query_function w s = scan_outcome w s.
Proof.
  unfold watch_query_function, scan_outcome, scanner_configured, scan_error. cbv zeta.
  destruct (forallb env_truthy _) eqn:Hcfg.
  2:{ erewrite try_except_inl by (mstep; reflexivity). mstep. reflexivity. }
  pose proof (get_expiring_watches_run w (getenv w "DATABASE_URL") default_hours_ahead
                (add_log trigger_log s)) as Hq.
  unfold query_error, eligible.
  change (threshold_at w default_hours_ahead s)
    with (threshold_at w default_hours_ahead (add_log trigger_log s)).
  change (gmail_watches s) with (gmail_watches (add_log trigger_log s)).
  change (threshold_error w default_hours_ahead s)
    with (threshold_error w default_hours_ahead (add_log trigger_log s)).
  unfold query_outcome in *. cbv zeta in *.
  destruct (threshold_error w default_hours_ahead (add_log trigger_log s)) as [et |].
  { erewrite try_except_inl by (mstep; apply bind_inl; exact Hq). mstep. reflexivity. }
  destruct (pg_connect w (getenv w "DATABASE_URL")) as [ec |].
  { erewrite try_except_inl by (mstep; apply bind_inl; exact Hq). mstep. reflexivity. }
  destruct (pg_execute w _) as [ex |].
  { erewrite try_except_inl by (mstep; apply bind_inl; exact Hq). mstep. reflexivity. }
  cbn [snd].
  destruct (select_expiring w _ _) as [| row rows] eqn:Hrows.
  { erewrite try_except_inr
      by (mstep; rewrite (bind_inr _ _ _ _ _ Hq); cbn [map]; mstep; reflexivity).
    reflexivity. }
  rewrite <- publish_renewal_messages_run.
  destruct (publish_renewal_messages w _ _ _ _) as [[e | n] s2] eqn:Hpub.
  - erewrite try_except_inl
      by (mstep; rewrite (bind_inr _ _ _ _ _ Hq); cbn [map] in *;
          apply bind_inl; exact Hpub).
    mstep. reflexivity.
  - erewrite try_except_inr
      by (mstep; rewrite (bind_inr _ _ _ _ _ Hq); cbn [map] in *;
          rewrite (bind_inr _ _ _ _ _ Hpub); mstep; reflexivity).
    reflexivity.
Qed.

Lemma query_outcome_frame w url hours s :
  queue (snd (query_outcome w url hours s)) = queue s /\
  gmail_watches (snd (query_outcome w url hours s)) = gmail_watches s /\
  gmail_mailbox_watches (snd (query_outcome w url hours s)) = gmail_mailbox_watches s /\
  api_calls (snd (query_outcome w url hours s)) = api_calls s.
Proof.
  unfold query_outcome. cbv zeta.
  destruct (threshold_error w hours s); [repeat split |].
  destruct (pg_connect w url); [repeat split |].
  destruct (pg_execute w _); repeat split.
Qed.

(** The outcome of publishing, with the queue before and after. *)
Lemma publish_outcome_spec w project_id topic_id rows s :
  let topic := topic_path_of project_id topic_id in
  let out := publish_outcome w project_id topic_id rows s in
  exists msgs,
    queue (snd out) = queue s ++ msgs /\
    match fst out with
    | inr n => pubsub_client w = None /\ n = length rows /\ length msgs = length rows
    | inl e =>
        (pubsub_client w = Some e /\ msgs = []) \/
        (pubsub_client w = None /\ (length msgs < length rows)%nat /\
         exists m, pubsub_publish w (length msgs) topic m = inl e)
    end.
Proof.
  cbv zeta. unfold publish_outcome.
  destruct (pubsub_client w) as [e |] eqn:Hclient.
  { exists []. cbn. rewrite app_nil_r. split; [reflexivity | now left]. }
  destruct (publish_rows_spec w (topic_path_of project_id topic_id) rows 0 s)
    as (msgs & Hq & _ & Hres & _).
  exists msgs.
  destruct (publish_rows w _ rows 0 s) as [[e | n] s']; cbn [fst snd] in *.
  - split; [exact Hq |]. right. split; [reflexivity |]. exact Hres.
  - split; [exact Hq |]. destruct Hres as [-> Hlen].
    split; [reflexivity |]. split; [reflexivity | exact Hlen].
Qed.

Lemma publish_outcome_fails_at w project_id topic_id rows s k e :
  pubsub_client w = None ->
  (k < length rows)%nat ->
  (forall i, (i < k)%nat ->
     forall topic m, exists mid, pubsub_publish w i topic m = inr mid) ->
  (forall topic m, pubsub_publish w k topic m = inl e) ->
  fst (publish_outcome w project_id topic_id rows s) = inl e /\
  length (queue (snd (publish_outcome w project_id topic_id rows s)))
  = (length (queue s) + k)%nat.
Proof.
  intros Hclient Hk Hack Hfail. unfold publish_outcome. rewrite Hclient.
  destruct (publish_rows_fails_at w (topic_path_of project_id topic_id) rows 0 s k e)
    as (Hres & Hlen); [exact Hk | | |].
  - intros i Hi m. apply Hack. exact Hi.
  - intros m. apply Hfail.
  - destruct (publish_rows w _ rows 0 s) as [[e' | n] s']; cbn [fst snd] in *.
    + split; [exact Hres | exact Hlen].
    + discriminate.
Qed.

Ltac vacuous := intros; first [congruence | discriminate | contradiction].

(** C7.  An invocation of the Scanner always returns a response, never an
    exception: status 200 with [success], [message] and [watches_processed]
    in the body, or status 500 with [success: False] and an error string.
    Missing configuration, an error of the store on the query, a publisher
    that cannot be created and a publish that fails all give status 500 with
    the error's text; with no eligible record the response is status 200
    with [watches_processed: 0] and nothing is published. *)
Theorem scanner_always_answers (w : world) (s : state) :
  exists resp s',
    watch_query_function w s = (inr resp, s') /\
    ((statusCode resp = 200 /\
      exists n message,
        body resp = {[ "success" := PBool true;
                       "message" := PStr message;
                       "watches_processed" := PInt (Z.of_nat n) ]}) \/
     (statusCode resp = 500 /\
      exists error,
        body resp = {[ "success" := PBool false; "error" := PStr error ]})) /\
    (scanner_configured w = false ->
       resp = error_response (Exn ValueError "Missing required environment variables") /\
       queue s' = queue s /\ db_ops s' = db_ops s) /\
    (scanner_configured w = true ->
       forall e, query_error w s = Some e ->
         resp = error_response e /\ queue s' = queue s) /\
    (scanner_configured w = true -> query_error w s = None ->
       eligible w s = [] ->
         resp = no_watches_response /\ queue s' = queue s) /\
    (scanner_configured w = true -> query_error w s = None ->
       eligible w s <> [] ->
       forall e, pubsub_client w = Some e ->
         resp = error_response e /\ queue s' = queue s) /\
    (scanner_configured w = true -> query_error w s = None ->
       pubsub_client w = None ->
       forall k e,
         (k < length (eligible w s))%nat ->
         (forall i, (i < k)%nat ->
            forall topic m, exists mid, pubsub_publish w i topic m = inr mid) ->
         (forall topic m, pubsub_publish w k topic m = inl e) ->
         resp = error_response e /\ acknowledged s s' = k).
Proof.
  rewrite watch_query_function_run. unfold scan_outcome, scan_error. cbv zeta.
  destruct (scanner_configured w) eqn:Hcfg.
  2:{ eexists _, _. split; [reflexivity |].
      split; [right; split; [reflexivity | eauto] |].
      repeat apply conj; try vacuous. intros _. repeat split. }
  destruct (query_outcome_frame w (getenv w "DATABASE_URL") default_hours_ahead
              (add_log trigger_log s)) as (Hq & _).
  cbn [add_log set_logs queue] in Hq.
  destruct (query_error w s) as [eq |] eqn:Hqe.
  { eexists _, _. split; [reflexivity |].
    split; [right; split; [reflexivity | eauto] |].
    repeat apply conj; try vacuous.
    intros _ e [= <-]. split; [reflexivity | exact Hq]. }
  destruct (eligible w s) as [| row rows] eqn:Hrows.
  { eexists _, _. split; [reflexivity |].
    split; [left; split; [reflexivity | exists 0%nat; eauto] |].
    repeat apply conj; try vacuous.
    - intros _ _ _. split; [reflexivity | exact Hq].
    - intros _ _ _ k e Hk. cbn in Hk. lia. }
  pose proof (publish_outcome_spec w (getenv w "GCP_PROJECT_ID")
                (getenv w "GCP_PUB_SUB_GMAIL_WATCH_RENEWAL_TOPIC_ID") (row :: rows)
                (snd (query_outcome w (getenv w "DATABASE_URL") default_hours_ahead
                        (add_log trigger_log s)))) as Hspec.
  cbv zeta in Hspec. destruct Hspec as (msgs & Hqueue & Hres).
  pose proof (publish_outcome_fails_at w (getenv w "GCP_PROJECT_ID")
                (getenv w "GCP_PUB_SUB_GMAIL_WATCH_RENEWAL_TOPIC_ID") (row :: rows)
                (snd (query_outcome w (getenv w "DATABASE_URL") default_hours_ahead
                        (add_log trigger_log s)))) as Hfails.
  destruct (publish_outcome w _ _ (row :: rows) _) as [[e | n] s2];
    cbn [fst snd] in Hqueue, Hres, Hfails.
  - eexists _, _. split; [reflexivity |].
    split; [right; split; [reflexivity | eauto] |].
    repeat apply conj; try vacuous.
    + intros _ _ _ e' He'. destruct Hres as [[Hc ->] | [Hc _]]; [| congruence].
      assert (e' = e) by congruence. subst e'.
      split; [reflexivity |]. cbn [add_log set_logs queue].
      now rewrite Hqueue, app_nil_r.
    + intros _ _ Hclient k e' Hk Hack Hfail.
      destruct (Hfails k e' Hclient Hk Hack Hfail) as ([= <-] & Hlen).
      split; [reflexivity |]. unfold acknowledged. cbn [add_log set_logs queue].
      rewrite Hlen, Hq. lia.
  - eexists _, _. split; [reflexivity |].
    split; [left; split; [reflexivity | eauto] |].
    repeat apply conj; try vacuous.
    + intros _ _ _ e He. destruct Hres as (Hc & _). congruence.
    + intros _ _ Hclient k e Hk Hack Hfail.
      destruct (Hfails k e Hclient Hk Hack Hfail) as ([=] & _).
Qed.

(** When every collaborator answers and the broker acknowledges every
    message, the count reported is the number of eligible records. *)
Lemma scanner_publishes_every_eligible_watch w s :
  scanner_configured w = true ->
  query_error w s = None ->
  pubsub_client w = None ->
  (forall i topic m, exists mid, pubsub_publish w i topic m = inr mid) ->
  eligible w s <> [] ->
  fst (watch_query_function w s) = inr (published_response (length (eligible w s))).
Proof.
  intros Hcfg Hq Hclient Hack Hne.
  rewrite watch_query_function_run. unfold scan_outcome. cbv zeta.
  rewrite Hcfg, Hq.
  destruct (eligible w s) as [| row rows]; [congruence |].
  unfold publish_outcome. rewrite Hclient.
  pose proof (publish_rows_all w
                (topic_path_of (getenv w "GCP_PROJECT_ID")
                   (getenv w "GCP_PUB_SUB_GMAIL_WATCH_RENEWAL_TOPIC_ID"))
                (row :: rows) 0
                (snd (query_outcome w (getenv w "DATABASE_URL") default_hours_ahead
                        (add_log trigger_log s)))) as Hall.
  destruct (publish_rows w _ (row :: rows) 0 _) as [[e | n] s2]; cbn [fst] in Hall.
  - discriminate Hall. intros i _ m. apply Hack.
  - injection Hall as ->; [reflexivity |]. intros i _ m. apply Hack.
Qed.

(** With no watch in the table the Scanner answers 200 and publishes
    nothing; without its topic configured it answers 500. *)
Example scanner_answers_demo :
  watch_query_function demo_world (initial [] demo_mailboxes)
  = (inr no_watches_response,
     after_query (add_log trigger_log (initial [] demo_mailboxes))
       [ DbConnect (Some "postgresql://store/watches");
         DbSelectExpiring 1700007200000000; DbClose ]
       [ LogRecord INFO "Found {} expiring watches" [PInt 0];
         LogRecord INFO "No expiring Gmail watches found" [] ]) /\
  fst (watch_query_function unconfigured_scanner_world demo_state)
  = inr (error_response (Exn ValueError "Missing required environment variables")).
Proof. split; vm_compute; reflexivity. Qed.

(** C6 fails where a publish fails after an acknowledged one: with two
    eligible records and a broker that acknowledges the first message only,
    one message is on the queue and the response reports no count at all. *)
Lemma scanner_partial_batch_reports_no_count :
  length (eligible flaky_broker_world demo_state) = 2%nat /\
  acknowledged demo_state (snd (watch_query_function flaky_broker_world demo_state)) = 1%nat /\
  fst (watch_query_function flaky_broker_world demo_state)
  = inr (error_response (Exn PubSubError "deadline exceeded")) /\
  ~ reports_acknowledged_count flaky_broker_world demo_state.
Proof.
  assert (Hrun : fst (watch_query_function flaky_broker_world demo_state)
                 = inr (error_response (Exn PubSubError "deadline exceeded")))
    by (vm_compute; reflexivity).
  split; [reflexivity |]. split; [vm_compute; reflexivity |]. split; [exact Hrun |].
  intros (resp & s' & Hresp & Hcount).
  rewrite Hresp in Hrun. cbn [fst] in Hrun. injection Hrun as ->.
  vm_compute in Hcount. discriminate Hcount.
Qed.

(** C6, amended.  A response of the Scanner reports a count only when it
    has status 200, and then [watches_processed] is the number of publishes
    acknowledged in the invocation, which is the number of eligible records.
    Any other response has status 500, the body [{success: false, error}]
    and no [watches_processed]; in particular, when the broker acknowledges
    [k] messages and fails on the next, [k] messages stay published and the
    response carries that error. *)
Theorem scanner_reports_count_of_complete_batch (w : world) (s : state) :
  exists resp s',
    watch_query_function w s = (inr resp, s') /\
    (statusCode resp = 200 ->
       body resp !! "watches_processed" = Some (PInt (Z.of_nat (acknowledged s s'))) /\
       acknowledged s s' = length (eligible w s)) /\
    (statusCode resp <> 200 ->
       statusCode resp = 500 /\ body resp !! "watches_processed" = None /\
       exists error,
         body resp = {[ "success" := PBool false; "error" := PStr error ]}) /\
    (scanner_configured w = true -> query_error w s = None ->
       pubsub_client w = None ->
       forall k e,
         (k < length (eligible w s))%nat ->
         (forall i, (i < k)%nat ->
            forall topic m, exists mid, pubsub_publish w i topic m = inr mid) ->
         (forall topic m, pubsub_publish w k topic m = inl e) ->
         statusCode resp = 500 /\
         body resp !! "watches_processed" = None /\
         body resp = {[ "success" := PBool false; "error" := PStr (exn_str e) ]} /\
         acknowledged s s' = k).
Proof.
  rewrite watch_query_function_run. unfold scan_outcome, scan_error. cbv zeta.
  destruct (scanner_configured w) eqn:Hcfg.
  2:{ eexists _, _. split; [reflexivity |].
      repeat apply conj; try vacuous.
      intros _. split; [reflexivity |]. split; [reflexivity |]. eexists. reflexivity. }
  destruct (query_outcome_frame w (getenv w "DATABASE_URL") default_hours_ahead
              (add_log trigger_log s)) as (Hq & _).
  cbn [add_log set_logs queue] in Hq.
  destruct (query_error w s) as [eq |] eqn:Hqe.
  { eexists _, _. split; [reflexivity |].
    repeat apply conj; try vacuous.
      intros _. split; [reflexivity |]. split; [reflexivity |]. eexists. reflexivity. }
  destruct (eligible w s) as [| row rows] eqn:Hrows.
  { eexists _, _. split; [reflexivity |].
    assert (Hack : acknowledged s
              (add_log (LogRecord INFO "No expiring Gmail watches found" [])
                 (snd (query_outcome w (getenv w "DATABASE_URL") default_hours_ahead
                         (add_log trigger_log s)))) = 0%nat).
    { unfold acknowledged. cbn [add_log set_logs queue]. rewrite Hq. lia. }
    repeat apply conj; try vacuous.
    - intros _. rewrite Hack. split; reflexivity.
    - intros _ _ _ k e Hk. cbn in Hk. lia. }
  pose proof (publish_outcome_spec w (getenv w "GCP_PROJECT_ID")
                (getenv w "GCP_PUB_SUB_GMAIL_WATCH_RENEWAL_TOPIC_ID") (row :: rows)
                (snd (query_outcome w (getenv w "DATABASE_URL") default_hours_ahead
                        (add_log trigger_log s)))) as Hspec.
  cbv zeta in Hspec. destruct Hspec as (msgs & Hqueue & Hres).
  pose proof (publish_outcome_fails_at w (getenv w "GCP_PROJECT_ID")
                (getenv w "GCP_PUB_SUB_GMAIL_WATCH_RENEWAL_TOPIC_ID") (row :: rows)
                (snd (query_outcome w (getenv w "DATABASE_URL") default_hours_ahead
                        (add_log trigger_log s)))) as Hfails.
  destruct (publish_outcome w _ _ (row :: rows) _) as [[e | n] s2];
    cbn [fst snd] in Hqueue, Hres, Hfails.
  - eexists _, _. split; [reflexivity |].
    repeat apply conj; try vacuous.
    + intros _. split; [reflexivity |]. split; [reflexivity |]. eexists. reflexivity.
    + intros _ _ Hclient k e' Hk Hack Hfail.
      destruct (Hfails k e' Hclient Hk Hack Hfail) as ([= <-] & Hlen).
      split; [reflexivity |]. split; [reflexivity |]. split; [reflexivity |].
      unfold acknowledged. cbn [add_log set_logs queue]. rewrite Hlen, Hq. lia.
  - eexists _, _. split; [reflexivity |].
    destruct Hres as (_ & -> & Hlen).
    assert (Hack : acknowledged s
              (add_log (LogRecord INFO "Published {} renewal messages"
                          [PInt (Z.of_nat (length (row :: rows)))]) s2)
            = length (row :: rows)).
    { unfold acknowledged. cbn [add_log set_logs queue].
      rewrite Hqueue, length_app, Hq, Hlen. lia. }
    repeat apply conj; try vacuous.
    + intros _. rewrite Hack. split; reflexivity.
    + intros _ _ Hclient k e Hk Hack' Hfail.
      destruct (Hfails k e Hclient Hk Hack' Hfail) as ([=] & _).
Qed.

(** ** End to end *)

(** The Scanner's run on the demo store, and the first message it puts on
    the queue delivered to the Worker: the Worker rejects it, and the row of
    account A1 keeps the history id and the expiration it had. *)
Example scanner_then_worker_renews_nothing :
  let scanned := snd (watch_query_function demo_world demo_state) in
  let message :=
    renewal_message demo_world (PStr "U1") (PStr "u1@example.com") (PStr "W1")
      (utc_clock demo_world 1) in
  let worked := snd (renewal_worker_function demo_world (deliver message) scanned) in
  fst (watch_query_function demo_world demo_state) = inr (published_response 2) /\
  length (queue scanned) = 2%nat /\
  queue scanned !! 0%nat
  = Some ("projects/demo-project/topics/gmail-watch-renewal", message) /\
  message !! "account_id" = None /\
  api_calls worked = [] /\
  gmail_mailbox_watches worked = demo_mailboxes /\
  last (logs worked)
  = Some (worker_failed_log (Exn ValueError "Missing required field: account_id")).
Proof.
  cbv zeta. repeat split; vm_compute; reflexivity.
Qed.

(** ** What the world decides *)

(** In a process one hour east of UTC, [datetime.fromtimestamp] gives the
    local date and time, and that is what the Worker writes: one hour more
    than the UTC reading of the same instant. *)
Example worker_writes_local_time :
  gmail_mailbox_watches
    (snd (renewal_worker_function local_time_world (deliver demo_request) demo_state))
  = [ MailboxRow (PStr "A1") (PStr "999") (Some 1700608400000000) true;
      MailboxRow (PStr "A2") (PStr "200") (Some 1700005400000000) true;
      MailboxRow (PStr "A3") (PStr "300") (Some 1700000600000000) false ].
Proof. vm_compute. reflexivity. Qed.

(** With an integer [account_id] column, the string ["5"] of a message
    selects the row of account 5. *)
Example worker_renews_integer_account :
  gmail_mailbox_watches
    (snd (renewal_worker_function integer_store_world
            (deliver (<["account_id" := PStr "5"]> demo_request))
            (initial demo_watches integer_mailboxes)))
  = [ MailboxRow (PInt 5) (PStr "999") (Some 1700604800000000) true ].
Proof. vm_compute. reflexivity. Qed.

(** Rows with the same expiration come back in the order the server
    chooses. *)
Example ties_in_server_order :
  select_expiring demo_world (threshold_at demo_world 2 demo_state) tied_watches
  = tied_watches /\
  select_expiring later_row_first_world (threshold_at demo_world 2 demo_state) tied_watches
  = rev tied_watches.
Proof. split; reflexivity. Qed.

(** * Further properties *)

(** ** Worker: every event *)

Lemma complete_or_missing (d : gmap string pyval) :
  (exists acc uid em a r, complete d acc uid em a r) \/
  (exists f, f ∈ required_fields /\ d !! f = None).
Proof.
  unfold required_fields.
  destruct (d !! "account_id") as [acc |] eqn:H1;
    [| right; exists "account_id"; split; [set_solver | exact H1]].
  destruct (d !! "user_id") as [uid |] eqn:H2;
    [| right; exists "user_id"; split; [set_solver | exact H2]].
  destruct (d !! "email") as [em |] eqn:H3;
    [| right; exists "email"; split; [set_solver | exact H3]].
  destruct (d !! "access_token") as [a |] eqn:H4;
    [| right; exists "access_token"; split; [set_solver | exact H4]].
  destruct (d !! "refresh_token") as [r |] eqn:H5;
    [| right; exists "refresh_token"; split; [set_solver | exact H5]].
  left. exists acc, uid, em, a, r. now constructor.
Qed.

(** The two ways an invocation of the Worker goes: it stops before the
    Gmail call, having only logged, the last record an error, or it runs on
    a complete message. *)
Lemma renewal_worker_function_paths w event :
  (forall s, exists lg record,
     renewal_worker_function w event s
     = (inr tt, set_logs (logs s ++ lg ++ [record]) s) /\
     log_lvl record = ERROR) \/
  (exists d acc uid em a r,
     event !! "data" = Some (inr (PDict d)) /\
     complete d acc uid em a r /\
     forall s, renewal_worker_function w event s = worker_outcome w acc uid em a r s).
Proof.
  destruct (event !! "data") as [[e | message] |] eqn:Hdata.
  - left. intros s. unfold renewal_worker_function. rewrite Hdata.
    erewrite try_except_inl by (mstep; reflexivity).
    exists [], (worker_failed_log e). split; reflexivity.
  - destruct message as [| b | z | str | t | l | d].
    7:{ destruct (complete_or_missing d) as [(acc & uid & em & a & r & Hd) | Hmiss].
        - right. exists d, acc, uid, em, a, r. split; [reflexivity |]. split; [exact Hd |].
          intros s. now apply (renewal_worker_function_run _ _ d).
        - left. intros s. unfold renewal_worker_function. rewrite Hdata.
          destruct (validation_fails d required_fields
                      (set_logs (logs s ++
                         [LogRecord INFO "Processing Gmail watch renewal for user {} ({})"
                            [dict_get d "user_id"; dict_get d "email"]]) s) Hmiss)
            as (f & _ & Hrun).
          erewrite try_except_inl by (mstep; apply bind_inl; exact Hrun).
          eexists [_], _. unfold log, modify. cbn. rewrite <- app_assoc.
          split; reflexivity. }
    all: left; intros s; unfold renewal_worker_function; rewrite Hdata;
      erewrite try_except_inl by (mstep; reflexivity);
      eexists [], _; split; reflexivity.
  - left. intros s. unfold renewal_worker_function. rewrite Hdata.
    erewrite try_except_inr by reflexivity. eexists [], _. split; reflexivity.
Qed.

Lemma renewal_worker_function_cases w event :
  (forall s, exists lg,
     renewal_worker_function w event s = (inr tt, set_logs (logs s ++ lg) s)) \/
  (exists d acc uid em a r,
     event !! "data" = Some (inr (PDict d)) /\
     complete d acc uid em a r /\
     forall s, renewal_worker_function w event s = worker_outcome w acc uid em a r s).
Proof.
  destruct (renewal_worker_function_paths w event) as [Hlog | Hrun]; [left | now right].
  intros s. destruct (Hlog s) as (lg & record & -> & _). eauto.
Qed.

(** X1.  On an event without [data], with data that does not decode, or
    whose decoded value is no JSON object, the Worker returns normally having
    added one log record, an error, and nothing else: no Gmail call, no
    operation on the store. *)
Theorem worker_logs_unusable_event (w : world) (event : gmap string wire) (s : state) :
  no_request event ->
  exists record,
    log_lvl record = ERROR /\
    renewal_worker_function w event s = (inr tt, add_log record s).
Proof.
  unfold no_request, renewal_worker_function.
  destruct (event !! "data") as [[e | message] |] eqn:Hdata; intros Hno.
  - erewrite try_except_inl by (mstep; reflexivity).
    eexists. split; [| reflexivity]. reflexivity.
  - destruct message; try contradiction;
      (erewrite try_except_inl by (mstep; reflexivity);
       eexists; split; [| reflexivity]; reflexivity).
  - erewrite try_except_inr by reflexivity.
    eexists. split; [| reflexivity]. reflexivity.
Qed.

Lemma worker_logs_unusable_event_witness :
  exists record,
    log_lvl record = ERROR /\
    renewal_worker_function demo_world {[ "data" := inr (PList [PStr "account_id"]) ]}
      demo_state = (inr tt, add_log record demo_state).
Proof.
  apply (worker_logs_unusable_event demo_world
           {[ "data" := inr (PList [PStr "account_id"]) ]} demo_state).
  exact I.
Defined.

(** ** Worker: the store update on every path *)

Lemma update_matches_apply_update w h dt acc row :
  update_matches w acc (apply_update w h dt acc row) = update_matches w acc row.
Proof.
  unfold apply_update. destruct (update_matches w acc row) eqn:Hm; [| exact Hm].
  unfold update_matches in *. exact Hm.
Qed.

Lemma apply_update_idempotent w h dt acc row :
  apply_update w h dt acc (apply_update w h dt acc row) = apply_update w h dt acc row.
Proof.
  unfold apply_update at 1. rewrite update_matches_apply_update.
  unfold apply_update. destruct (update_matches w acc row); reflexivity.
Qed.

Lemma filter_matches_apply_update w h dt acc (table : list mailbox_row) :
  filter (update_matches w acc) (map (apply_update w h dt acc) table)
  = map (apply_update w h dt acc) (filter (update_matches w acc) table).
Proof.
  induction table as [| row table IH]; [reflexivity |].
  cbn [map]. rewrite !filter_cons, update_matches_apply_update.
  destruct (decide (update_matches w acc row)); cbn [map]; now rewrite IH.
Qed.

(** The table a call of [update_watch_in_database] leaves depends on the
    table it finds, not on the rest of the state. *)
Lemma update_outcome_table w acc h x s s0 :
  gmail_mailbox_watches s = gmail_mailbox_watches s0 ->
  gmail_mailbox_watches (snd (update_outcome w acc h x s))
  = gmail_mailbox_watches (snd (update_outcome w acc h x s0)).
Proof.
  intros Heq. unfold update_outcome, update_failed. cbv zeta. rewrite <- Heq.
  destruct (env_truthy _); [| reflexivity].
  destruct (pg_connect w _); [reflexivity |].
  destruct (int_value w x) as [e | ms]; [reflexivity |].
  destruct (timestamp_of_ms w ms) as [e | dt]; [reflexivity |].
  destruct (pg_execute w _); [reflexivity |].
  destruct (filter _ _); [reflexivity |].
  destruct (pg_commit w); [reflexivity | reflexivity].
Qed.

(** Updating again, with the same parameters, the table an update left
    leaves it as it is. *)
Lemma update_outcome_idempotent w acc h x s s1 :
  gmail_mailbox_watches s1 = gmail_mailbox_watches (snd (update_outcome w acc h x s)) ->
  gmail_mailbox_watches (snd (update_outcome w acc h x s1)) = gmail_mailbox_watches s1.
Proof.
  unfold update_outcome, update_failed. cbv zeta.
  destruct (env_truthy _); [| intros _; reflexivity].
  destruct (pg_connect w _); [intros _; reflexivity |].
  destruct (int_value w x) as [e | ms]; [intros _; reflexivity |].
  destruct (timestamp_of_ms w ms) as [e | dt]; [intros _; reflexivity |].
  destruct (pg_execute w _); [intros _; reflexivity |].
  destruct (filter (update_matches w acc) (gmail_mailbox_watches s)) as [| r0 rest] eqn:Hf.
  - cbn [snd after_update gmail_mailbox_watches]. intros ->. rewrite Hf. reflexivity.
  - destruct (pg_commit w).
    + cbn [snd after_update gmail_mailbox_watches]. intros ->. rewrite Hf. reflexivity.
    + cbn [snd after_update gmail_mailbox_watches]. intros ->.
      rewrite filter_matches_apply_update, Hf. cbn [map snd after_update gmail_mailbox_watches].
      apply list_eq. intros i. rewrite !list_lookup_fmap.
      destruct (gmail_mailbox_watches s !! i) as [row |]; [| reflexivity].
      cbn. now rewrite apply_update_idempotent.
Qed.

Lemma renew_outcome_table w a r s :
  gmail_mailbox_watches (snd (renew_outcome w a r s)) = gmail_mailbox_watches s.
Proof.
  destruct (renew_outcome_frame w a r s) as (calls & lg & -> & _). reflexivity.
Qed.

(** The table an invocation on a complete message leaves, in terms of the
    Gmail call's result and the update's outcome on the table it found. *)
Lemma worker_outcome_table w acc uid em a r s :
  gmail_mailbox_watches (snd (worker_outcome w acc uid em a r s))
  = match fst (renew_outcome w a r s) with
    | inr res =>
        if truthy (dict_get res "success") then
          match res !! "history_id", res !! "expiration" with
          | Some h, Some x => gmail_mailbox_watches (snd (update_outcome w acc h x s))
          | _, _ => gmail_mailbox_watches s
          end
        else gmail_mailbox_watches s
    | inl _ => gmail_mailbox_watches s
    end.
Proof.
  unfold worker_outcome.
  rewrite (renew_outcome_result w a r s (add_log (processing_log uid em) s)).
  pose proof (renew_outcome_table w a r (add_log (processing_log uid em) s)) as Ht.
  destruct (renew_outcome w a r (add_log (processing_log uid em) s)) as [[e | res] s2];
    cbn [fst snd] in *; [exact Ht |].
  destruct (truthy _); [| exact Ht].
  destruct (res !! "history_id") as [h |]; [| exact Ht].
  destruct (res !! "expiration") as [x |]; [| exact Ht].
  rewrite <- (update_outcome_table w acc h x s2 s Ht).
  destruct (update_outcome w acc h x s2) as [[e | u] s3]; reflexivity.
Qed.

Lemma worker_outcome_idempotent w acc uid em a r s :
  let s1 := snd (worker_outcome w acc uid em a r s) in
  gmail_mailbox_watches (snd (worker_outcome w acc uid em a r s1))
  = gmail_mailbox_watches s1.
Proof.
  cbv zeta.
  pose proof (worker_outcome_table w acc uid em a r s) as H1.
  rewrite (worker_outcome_table w acc uid em a r (snd (worker_outcome w acc uid em a r s))).
  rewrite (renew_outcome_result w a r (snd (worker_outcome w acc uid em a r s)) s).
  destruct (fst (renew_outcome w a r s)) as [e | res]; [reflexivity |].
  destruct (truthy _); [| reflexivity].
  destruct (res !! "history_id") as [h |]; [| reflexivity].
  destruct (res !! "expiration") as [x |]; [| reflexivity].
  now apply (update_outcome_idempotent w acc h x s).
Qed.

Lemma worker_outcome_gmail_watches w acc uid em a r s :
  gmail_watches (snd (worker_outcome w acc uid em a r s)) = gmail_watches s /\
  queue (snd (worker_outcome w acc uid em a r s)) = queue s /\
  ticks (snd (worker_outcome w acc uid em a r s)) = ticks s.
Proof.
  unfold worker_outcome.
  destruct (renew_outcome_frame w a r (add_log (processing_log uid em) s))
    as (calls & lg & Hsnd & _).
  destruct (renew_outcome w a r _) as [[e | res] s2]; cbn [snd] in Hsnd; subst s2;
    [repeat split |].
  destruct (truthy _); [| repeat split].
  destruct (res !! "history_id") as [h |]; [| repeat split].
  destruct (res !! "expiration") as [x |]; [| repeat split].
  unfold update_outcome, update_failed. cbv zeta.
  destruct (env_truthy _); [| repeat split].
  destruct (pg_connect w _); [repeat split |].
  destruct (int_value w x) as [e | ms]; [repeat split |].
  destruct (timestamp_of_ms w ms) as [e | dt]; [repeat split |].
  destruct (pg_execute w _); [repeat split |].
  destruct (filter _ _); [repeat split |].
  destruct (pg_commit w); repeat split.
Qed.

(** X2.  Delivering an event a second time to the state the first delivery
    left, Gmail and the store answering as they answered the first time,
    changes no table: the UPDATE writes the values the rows already hold. *)
Theorem worker_redelivery_is_idempotent (w : world) (event : gmap string wire) (s : state) :
  let s1 := snd (renewal_worker_function w event s) in
  let s2 := snd (renewal_worker_function w event s1) in
  gmail_mailbox_watches s2 = gmail_mailbox_watches s1 /\
  gmail_watches s2 = gmail_watches s1.
Proof.
  cbv zeta.
  destruct (renewal_worker_function_cases w event)
    as [Hlog | (d & acc & uid & em & a & r & _ & _ & Hrun)].
  - destruct (Hlog s) as (lg & ->). cbn [snd].
    destruct (Hlog (set_logs (logs s ++ lg) s)) as (lg' & ->). split; reflexivity.
  - rewrite !Hrun. split.
    + apply worker_outcome_idempotent.
    + apply worker_outcome_gmail_watches.
Qed.

Ltac update_paths :=
  unfold update_outcome, update_failed; cbv zeta;
  destruct (env_truthy (getenv _ "DATABASE_URL")) eqn:Hurl;
  [ destruct (pg_connect _ _) as [ec |] eqn:Hc;
    [| destruct (int_value _ _) as [ei | ms] eqn:Hi;
       [| destruct (timestamp_of_ms _ ms) as [et | dt] eqn:Ht;
          [| destruct (pg_execute _ _) as [ex |] eqn:Hx;
             [| destruct (filter (update_matches _ _) _) as [| r0 rest] eqn:Hf;
                [| destruct (pg_commit _) as [ecm |] eqn:Hcm ] ] ] ] ]
  | ].

(** X3.  A call of [update_watch_in_database] that raises has changed no
    table, whichever step failed (configuration, connection, conversion of
    the expiration, the statement, or the commit); it has logged the error
    once, and the error raised is the one the failing step raised. *)
Theorem update_failure_changes_nothing
    (w : world) (account_id history_id expiration_ms : pyval) (s : state) (e : exn) :
  fst (update_watch_in_database w account_id history_id expiration_ms s) = inl e ->
  let s' := snd (update_watch_in_database w account_id history_id expiration_ms s) in
  gmail_mailbox_watches s' = gmail_mailbox_watches s /\
  gmail_watches s' = gmail_watches s /\
  logs s' = logs s ++ [LogRecord ERROR "Failed to update watch in database: {}"
                         [PStr (exn_str e)]] /\
  (pg_connect w (getenv w "DATABASE_URL") = Some e \/
   pg_commit w = Some e \/
   (exists dt, pg_execute w (DbUpdateWatch history_id dt account_id) = Some e) \/
   int_value w expiration_ms = inl e \/
   (exists ms, timestamp_of_ms w ms = inl e) \/
   e = Exn ValueError "Missing DATABASE_URL environment variable").
Proof.
  cbv zeta. rewrite update_watch_in_database_run. update_paths; cbn [fst snd];
    intros [= <-] || discriminate; repeat split; eauto 8.
Qed.

Lemma update_failure_changes_nothing_witness :
  let run :=
    update_watch_in_database broken_store_world (PStr "A1") (PStr "999")
      (PStr "1700604800000") demo_state in
  gmail_mailbox_watches (snd run) = gmail_mailbox_watches demo_state /\
  logs (snd run)
  = logs demo_state ++ [LogRecord ERROR "Failed to update watch in database: {}"
                          [PStr "connection refused"]].
Proof.
  cbv zeta.
  destruct (update_failure_changes_nothing broken_store_world (PStr "A1") (PStr "999")
              (PStr "1700604800000") demo_state (Exn DatabaseError "connection refused"))
    as (Htable & _ & Hlogs & _).
  - vm_compute. reflexivity.
  - split; [exact Htable | exact Hlogs].
Defined.

(** X4.  [update_watch_in_database] closes the connection it opened, once
    and as its last operation on it, on every path, also when a later step
    raises; when no connection was opened (no [DATABASE_URL], or [connect]
    raised) nothing is closed.  It connects at most once. *)
Theorem update_always_closes_its_connection
    (w : world) (account_id history_id expiration_ms : pyval) (s : state) :
  let url := getenv w "DATABASE_URL" in
  exists ops,
    db_ops (snd (update_watch_in_database w account_id history_id expiration_ms s))
    = db_ops s ++ ops /\
    (env_truthy url = true -> pg_connect w url = None ->
       exists between,
         ops = DbConnect url :: between ++ [DbClose] /\
         Forall (fun op => op <> DbClose /\ forall u, op <> DbConnect u) between) /\
    (env_truthy url = true -> pg_connect w url <> None -> ops = [DbConnect url]) /\
    (env_truthy url = false -> ops = []).
Proof.
  cbv zeta. rewrite update_watch_in_database_run. update_paths; cbn [snd after_update db_ops].
  - eexists. split; [reflexivity |].
    repeat split; try congruence.
  - eexists. split; [reflexivity |].
    repeat split; try congruence. intros _ _. exists []. split; [reflexivity | constructor].
  - eexists. split; [reflexivity |].
    repeat split; try congruence. intros _ _. exists []. split; [reflexivity | constructor].
  - eexists. split; [reflexivity |].
    repeat split; try congruence. intros _ _. eexists [_]. split; [reflexivity |].
    repeat constructor; congruence.
  - eexists. split; [reflexivity |].
    repeat split; try congruence. intros _ _. eexists [_]. split; [reflexivity |].
    repeat constructor; congruence.
  - eexists. split; [reflexivity |].
    repeat split; try congruence. intros _ _. eexists [_; _]. split; [reflexivity |].
    repeat constructor; congruence.
  - eexists. split; [reflexivity |].
    repeat split; try congruence. intros _ _. eexists [_; _]. split; [reflexivity |].
    repeat constructor; congruence.
  - exists []. rewrite app_nil_r. split; [reflexivity |].
    repeat split; congruence.
Qed.

(** ** Worker: what an invocation can do *)

Lemma update_outcome_ops w acc h x s :
  exists ops,
    db_ops (snd (update_outcome w acc h x s)) = db_ops s ++ ops /\
    (count_ops is_connect ops <= 1)%nat /\
    (count_ops is_update ops <= 1)%nat /\
    (count_ops is_commit ops <= 1)%nat /\
    count_ops is_select ops = 0%nat.
Proof.
  update_paths; cbn [snd after_update db_ops];
    (eexists; split; [reflexivity |]); unfold count_ops; repeat split; vm_compute; lia.
Qed.

Lemma update_outcome_table_cases w acc h x s :
  gmail_mailbox_watches (snd (update_outcome w acc h x s)) = gmail_mailbox_watches s \/
  exists dt,
    gmail_mailbox_watches (snd (update_outcome w acc h x s))
    = map (apply_update w h dt acc) (gmail_mailbox_watches s).
Proof.
  update_paths; cbn [snd after_update gmail_mailbox_watches]; eauto.
Qed.

(** X5.  Whatever the event and the world, an invocation of the Worker
    makes at most one Gmail call, opens at most one connection to the store,
    executes at most one UPDATE and commits at most once, and touches the
    store only after the Gmail call was made; it reads no clock, publishes
    nothing and leaves [gmail_watches] alone. *)
Theorem worker_effects_are_bounded (w : world) (event : gmap string wire) (s : state) :
  let s' := snd (renewal_worker_function w event s) in
  exists calls ops,
    api_calls s' = api_calls s ++ calls /\
    db_ops s' = db_ops s ++ ops /\
    (length calls <= 1)%nat /\
    (count_ops is_connect ops <= 1)%nat /\
    (count_ops is_update ops <= 1)%nat /\
    (count_ops is_commit ops <= 1)%nat /\
    count_ops is_select ops = 0%nat /\
    (ops <> [] -> length calls = 1%nat) /\
    gmail_watches s' = gmail_watches s /\
    queue s' = queue s /\
    ticks s' = ticks s.
Proof.
  cbv zeta.
  destruct (renewal_worker_function_cases w event)
    as [Hlog | (d & acc & uid & em & a & r & _ & _ & Hrun)].
  - destruct (Hlog s) as (lg & ->). exists [], []. cbn. rewrite !app_nil_r.
    repeat split; try lia. congruence.
  - rewrite Hrun. destruct (worker_outcome_gmail_watches w acc uid em a r s) as (Hg & Hq & Ht).
    unfold worker_outcome in *.
    destruct (renew_outcome_frame w a r (add_log (processing_log uid em) s))
      as (calls & lg & Hsnd & Hcalls).
    assert (Hlen : (length calls <= 1)%nat) by (destruct Hcalls as [-> | ->]; cbn; lia).
    pose proof (renew_outcome_success w a r (add_log (processing_log uid em) s)) as Hsucc.
    destruct (renew_outcome w a r _) as [[e | res] s2]; cbn [fst snd] in Hsnd, Hsucc;
      subst s2.
    { exists calls, []. cbn. rewrite !app_nil_r. repeat split; try lia; try assumption; congruence. }
    destruct (truthy (dict_get res "success")) eqn:Hok.
    2:{ exists calls, []. cbn. rewrite !app_nil_r. repeat split; try lia; try assumption; congruence. }
    destruct (Hsucc res eq_refl Hok) as (_ & _ & resp & _ & _ & Hafter).
    assert (Hone : length calls = 1%nat).
    { apply (f_equal api_calls) in Hafter. cbn [after_renew api_calls] in Hafter.
      apply app_inv_head in Hafter. now subst calls. }
    destruct (res !! "history_id") as [h |].
    2:{ exists calls, []. cbn. rewrite !app_nil_r. repeat split; try lia; try assumption; congruence. }
    destruct (res !! "expiration") as [x |].
    2:{ exists calls, []. cbn. rewrite !app_nil_r. repeat split; try lia; try assumption; congruence. }
    destruct (update_outcome_ops w acc h x
                (after_renew (add_log (processing_log uid em) s) calls lg))
      as (ops & Hops & Hc1 & Hc2 & Hc3 & Hc4).
    pose proof (update_outcome_frame w acc h x
                  (after_renew (add_log (processing_log uid em) s) calls lg))
      as (Hapi & _).
    exists calls, ops.
    destruct (update_outcome w acc h x _) as [[e | u] s3]; cbn [snd] in *;
      cbn [add_log set_logs api_calls db_ops] in *;
      rewrite Hapi, Hops; repeat split; try assumption; try lia.
Qed.

Lemma worker_table_cases w event s :
  let table := gmail_mailbox_watches s in
  let table' := gmail_mailbox_watches (snd (renewal_worker_function w event s)) in
  table' = table \/ exists h dt acc, table' = map (apply_update w h dt acc) table.
Proof.
  cbv zeta.
  destruct (renewal_worker_function_cases w event)
    as [Hlog | (d & acc & uid & em & a & r & _ & _ & Hrun)].
  - destruct (Hlog s) as (lg & ->). now left.
  - rewrite Hrun, worker_outcome_table.
    destruct (fst (renew_outcome w a r s)) as [e | res]; [now left |].
    destruct (truthy _); [| now left].
    destruct (res !! "history_id") as [h |]; [| now left].
    destruct (res !! "expiration") as [x |]; [| now left].
    destruct (update_outcome_table_cases w acc h x s) as [-> | [dt ->]]; eauto.
Qed.

(** X6.  Whatever the event and the world, the Worker neither adds nor
    removes a row of [gmail_mailbox_watches], changes no row's [account_id]
    or [is_active], and leaves every inactive row exactly as it was. *)
Theorem worker_preserves_rows (w : world) (event : gmap string wire) (s : state) :
  let table := gmail_mailbox_watches s in
  let table' := gmail_mailbox_watches (snd (renewal_worker_function w event s)) in
  length table' = length table /\
  map m_account_id table' = map m_account_id table /\
  map m_is_active table' = map m_is_active table /\
  forall i row,
    table !! i = Some row -> m_is_active row = false -> table' !! i = Some row.
Proof.
  cbv zeta.
  destruct (worker_table_cases w event s) as [-> | (h & dt & acc & ->)].
  - repeat split. auto.
  - split; [apply length_map |]. split; [| split].
    + rewrite map_map. apply map_ext. intros row. unfold apply_update.
      destruct (update_matches w acc row); reflexivity.
    + rewrite map_map. apply map_ext. intros row. unfold apply_update.
      destruct (update_matches w acc row); reflexivity.
    + intros i row Hrow Hinactive. rewrite list_lookup_fmap, Hrow. cbn. f_equal.
      unfold apply_update, update_matches. rewrite Hinactive, andb_false_r. reflexivity.
Qed.

(** X7.  Without [GCP_PROJECT_ID], [GOOGLE_CLIENT_ID] or
    [GOOGLE_CLIENT_SECRET] (missing or empty) the Worker only ever logs:
    whatever the event, it returns having made no Gmail call and no
    operation on the store, and the last record it logs is an error. *)
Theorem unconfigured_worker_only_logs (w : world) (event : gmap string wire) (s : state) :
  configured w = false ->
  exists lg record,
    renewal_worker_function w event s = (inr tt, set_logs (logs s ++ lg ++ [record]) s) /\
    log_lvl record = ERROR.
Proof.
  intros Hcfg.
  destruct (renewal_worker_function_paths w event)
    as [Hlog | (d & acc & uid & em & a & r & _ & _ & Hrun)]; [apply Hlog |].
  rewrite Hrun.
  unfold worker_outcome, renew_outcome, renew_failed. cbv zeta. rewrite Hcfg.
  rewrite failure_result_not_success.
  set (e := Exn ValueError "Missing required environment variables").
  exists [processing_log uid em; failure_log e],
         (not_renewed_log uid (dict_get (failure_result e) "error")).
  split; [| reflexivity].
  destruct s. unfold add_log, after_renew, set_logs.
  simpl.
  rewrite <- !app_assoc, app_nil_r. reflexivity.
Qed.

Lemma unconfigured_worker_only_logs_witness :
  exists lg record,
    renewal_worker_function unconfigured_world (deliver demo_request) demo_state
    = (inr tt, set_logs (logs demo_state ++ lg ++ [record]) demo_state) /\
    log_lvl record = ERROR.
Proof.
  apply (unconfigured_worker_only_logs unconfigured_world (deliver demo_request) demo_state).
  vm_compute. reflexivity.
Defined.

(** ** Worker: what the last log record tells *)

Lemma update_outcome_result w acc h x s s0 :
  gmail_mailbox_watches s = gmail_mailbox_watches s0 ->
  fst (update_outcome w acc h x s) = fst (update_outcome w acc h x s0).
Proof.
  intros Heq. unfold update_outcome, update_failed. cbv zeta. rewrite <- Heq.
  destruct (env_truthy _); [| reflexivity].
  destruct (pg_connect w _); [reflexivity |].
  destruct (int_value w x) as [e | ms]; [reflexivity |].
  destruct (timestamp_of_ms w ms) as [e | dt]; [reflexivity |].
  destruct (pg_execute w _); [reflexivity |].
  destruct (filter _ _); [reflexivity |].
  destruct (pg_commit w); [reflexivity | reflexivity].
Qed.

Lemma update_outcome_logs w acc h x s :
  exists record,
    logs (snd (update_outcome w acc h x s)) = logs s ++ [record] /\
    (forall e, fst (update_outcome w acc h x s) = inl e ->
       gmail_mailbox_watches (snd (update_outcome w acc h x s)) = gmail_mailbox_watches s).
Proof.
  unfold update_outcome, update_failed. cbv zeta.
  destruct (env_truthy _); [| eexists; split; [reflexivity | reflexivity]].
  destruct (pg_connect w _); [eexists; split; reflexivity |].
  destruct (int_value w x) as [e | ms]; [eexists; split; reflexivity |].
  destruct (timestamp_of_ms w ms) as [e | dt]; [eexists; split; reflexivity |].
  destruct (pg_execute w _); [eexists; split; reflexivity |].
  destruct (filter _ _); [eexists; split; reflexivity |].
  destruct (pg_commit w); eexists; (split; [reflexivity |]); [reflexivity |].
  intros e [=].
Qed.

Lemma worker_outcome_last_record w acc uid em a r s :
  exists lg record,
    logs (snd (worker_outcome w acc uid em a r s)) = logs s ++ lg ++ [record] /\
    ((log_lvl record = ERROR /\
      gmail_mailbox_watches (snd (worker_outcome w acc uid em a r s))
      = gmail_mailbox_watches s) \/
     (record = renewed_log uid /\
      api_calls (snd (worker_outcome w acc uid em a r s))
      = api_calls s ++ [expected_call w a r])).
Proof.
  unfold worker_outcome.
  set (s1 := add_log (processing_log uid em) s).
  assert (Hlogs : forall calls lg record,
            logs (add_log record (after_renew s1 calls lg))
            = logs s ++ (processing_log uid em :: lg) ++ [record]).
  { intros. destruct s. simpl. rewrite <- !app_assoc. reflexivity. }
  destruct (renew_outcome_frame w a r s1) as (calls & lg & Hsnd & _).
  destruct (renew_outcome w a r s1) as [[e | res] s2] eqn:Hr; cbn [snd] in Hsnd.
  - subst s2. do 2 eexists. cbn [snd]. split; [apply Hlogs |]. left. now split.
  - destruct (truthy (dict_get res "success")) eqn:Hok.
    2:{ subst s2. do 2 eexists. cbn [snd]. split; [apply Hlogs |]. left. now split. }
    destruct (renew_outcome_success w a r s1 res) as (_ & _ & resp & _ & -> & Hs2);
      [now rewrite Hr | exact Hok |].
    rewrite Hr in Hs2. cbn [snd] in Hs2. clear Hsnd. subst s2.
    destruct (success_result_fields resp) as (_ & -> & ->).
    set (s2 := after_renew s1 _ _).
    destruct (update_outcome_logs w acc (dict_get resp "historyId")
                (dict_get resp "expiration") s2) as (record & Hlg & Htable).
    destruct (update_outcome_frame w acc (dict_get resp "historyId")
                (dict_get resp "expiration") s2) as (Hcalls & _).
    destruct (update_outcome w acc _ _ s2) as [[e | u] s3]; cbn [fst snd] in *.
    + exists ([processing_log uid em; setup_log w;
               LogRecord INFO "Gmail watch renewal successful: {}" [PDict resp]; record]),
             (worker_failed_log e).
      split.
      * destruct s3, s. simpl in *. subst. rewrite <- !app_assoc. reflexivity.
      * left. split; [reflexivity |]. 
        destruct s3, s. simpl in *. now apply (Htable e).
    + exists ([processing_log uid em; setup_log w;
               LogRecord INFO "Gmail watch renewal successful: {}" [PDict resp]; record]),
             (renewed_log uid).
      split.
      * destruct s3, s. simpl in *. subst. rewrite <- !app_assoc. reflexivity.
      * right. split; [reflexivity |].
        destruct s3, s. simpl in *. subst. reflexivity.
Qed.

(** X8.  Every invocation of the Worker ends its log with a record that
    tells how it went.  Either that record is an error, and then
    [gmail_mailbox_watches] is exactly as it was before the invocation; or
    it is the record "Successfully renewed Gmail watch for user" with the
    message's [user_id], and then the invocation has made its call of the
    Gmail API with the message's tokens. *)
Theorem worker_last_record_tells_outcome
    (w : world) (event : gmap string wire) (s : state) :
  let s' := snd (renewal_worker_function w event s) in
  exists earlier record,
    logs s' = logs s ++ earlier ++ [record] /\
    ((log_lvl record = ERROR /\ gmail_mailbox_watches s' = gmail_mailbox_watches s) \/
     (exists d acc uid em a r,
        event !! "data" = Some (inr (PDict d)) /\
        complete d acc uid em a r /\
        record = renewed_log uid /\
        api_calls s' = api_calls s ++ [expected_call w a r])).
Proof.
  cbv zeta.
  destruct (renewal_worker_function_paths w event)
    as [Hlog | (d & acc & uid & em & a & r & Hdata & Hd & Hrun)].
  - destruct (Hlog s) as (lg & record & -> & Hlvl). exists lg, record.
    split; [destruct s; reflexivity |]. left. split; [exact Hlvl | destruct s; reflexivity].
  - rewrite Hrun.
    destruct (worker_outcome_last_record w acc uid em a r s)
      as (lg & record & Hlogs & [Herr | [Hrec Hcalls]]).
    + exists lg, record. split; [exact Hlogs | now left].
    + exists lg, record. split; [exact Hlogs |]. right.
      exists d, acc, uid, em, a, r. repeat split; try assumption; apply Hd.
Qed.

(** ** Worker: the Gmail call and the store update together *)

(** The state of the entry point when it calls [update_watch_in_database]
    after a successful renewal. *)
Lemma worker_outcome_after_renewal w acc uid em a r resp s :
  configured w = true ->
  gmail_build w (expected_credentials w a r) = None ->
  gmail_watch w (expected_call w a r) = inr (PDict resp) ->
  worker_outcome w acc uid em a r s
  = let s2 := after_renew (add_log (processing_log uid em) s) [expected_call w a r]
                [setup_log w;
                 LogRecord INFO "Gmail watch renewal successful: {}" [PDict resp]] in
    match update_outcome w acc (dict_get resp "historyId") (dict_get resp "expiration") s2
    with
    | (inl e, s3) => (inr tt, add_log (worker_failed_log e) s3)
    | (inr _, s3) => (inr tt, add_log (renewed_log uid) s3)
    end.
Proof.
  intros Hcfg Hb Hw. unfold worker_outcome.
  rewrite (renew_outcome_on_success w a r _ resp Hcfg Hb Hw).
  destruct (success_result_fields resp) as (-> & -> & ->). reflexivity.
Qed.

(** X9.  The renewal at Gmail is not undone when the store update fails.
    On a complete message whose Gmail call succeeds, if
    [update_watch_in_database] raises [e] (no [DATABASE_URL], connection
    refused, unreadable expiration, failing statement or commit), the Worker
    still returns normally: the Gmail call has been made, the table is as it
    was, and the last record logged is the error [e]. *)
Theorem worker_keeps_renewal_when_store_fails
    (w : world) (event : gmap string wire) (d resp : gmap string pyval)
    (acc uid em a r : pyval) (e : exn) (s : state) :
  event !! "data" = Some (inr (PDict d)) ->
  complete d acc uid em a r ->
  configured w = true ->
  gmail_build w (expected_credentials w a r) = None ->
  gmail_watch w (expected_call w a r) = inr (PDict resp) ->
  fst (update_watch_in_database w acc (dict_get resp "historyId")
         (dict_get resp "expiration") s) = inl e ->
  exists s' earlier,
    renewal_worker_function w event s = (inr tt, s') /\
    api_calls s' = api_calls s ++ [expected_call w a r] /\
    gmail_mailbox_watches s' = gmail_mailbox_watches s /\
    gmail_watches s' = gmail_watches s /\
    logs s' = logs s ++ earlier ++ [worker_failed_log e].
Proof.
  intros Hdata Hd Hcfg Hb Hw Hfail.
  rewrite (renewal_worker_function_run _ _ d _ _ _ _ _ _ Hdata Hd).
  rewrite (worker_outcome_after_renewal _ _ _ _ _ _ resp _ Hcfg Hb Hw). cbv zeta.
  set (s2 := after_renew _ _ _).
  rewrite update_watch_in_database_run in Hfail.
  rewrite (update_outcome_result w acc _ _ s s2) in Hfail by (destruct s; reflexivity).
  destruct (update_outcome_logs w acc (dict_get resp "historyId")
              (dict_get resp "expiration") s2) as (record & Hlg & Htable).
  destruct (update_outcome_frame w acc (dict_get resp "historyId")
              (dict_get resp "expiration") s2) as (Hcalls & Hgw & _).
  destruct (update_outcome w acc _ _ s2) as [[e' | u] s3]; cbn [fst snd] in *;
    [| discriminate Hfail].
  injection Hfail as ->.
  exists (add_log (worker_failed_log e) s3),
         [processing_log uid em; setup_log w;
          LogRecord INFO "Gmail watch renewal successful: {}" [PDict resp]; record].
  specialize (Htable e eq_refl).
  destruct s3, s. simpl in *. subst. rewrite <- !app_assoc. repeat split.
Qed.

Lemma worker_keeps_renewal_when_store_fails_witness :
  exists s' earlier,
    renewal_worker_function broken_store_world (deliver demo_request) demo_state
    = (inr tt, s') /\
    api_calls s'
    = api_calls demo_state
      ++ [expected_call broken_store_world (PStr "ya29.token") (PStr "1//refresh")] /\
    gmail_mailbox_watches s' = gmail_mailbox_watches demo_state /\
    gmail_watches s' = gmail_watches demo_state /\
    logs s' = logs demo_state ++ earlier
              ++ [worker_failed_log (Exn DatabaseError "connection refused")].
Proof.
  apply (worker_keeps_renewal_when_store_fails broken_store_world (deliver demo_request)
           demo_request
           {[ "historyId" := PStr "999"; "expiration" := PStr "1700604800000" ]}
           (PStr "A1") (PStr "U1") (PStr "u1@example.com")).
  - reflexivity.
  - constructor; reflexivity.
  - reflexivity.
  - reflexivity.
  - reflexivity.
  - vm_compute. reflexivity.
Defined.

(** X10.  The record "Successfully renewed Gmail watch" does not mean that
    a row was written.  On a complete message whose Gmail call succeeds and
    whose UPDATE executes, with [dt] the datetime [fromtimestamp] gives in
    the process's time zone, if the UPDATE matches no row (no row of
    [gmail_mailbox_watches] is active and holds an [account_id] the server
    finds equal to the message's), the table stays as it was and nothing is
    committed, yet the Worker logs the warning of [update_watch_in_database]
    and then the success record. *)
Theorem worker_reports_success_without_active_row
    (w : world) (event : gmap string wire) (d resp : gmap string pyval)
    (acc uid em a r : pyval) (ms dt : Z) (s : state) :
  event !! "data" = Some (inr (PDict d)) ->
  complete d acc uid em a r ->
  configured w = true ->
  gmail_build w (expected_credentials w a r) = None ->
  gmail_watch w (expected_call w a r) = inr (PDict resp) ->
  env_truthy (getenv w "DATABASE_URL") = true ->
  pg_connect w (getenv w "DATABASE_URL") = None ->
  int_value w (dict_get resp "expiration") = inr ms ->
  timestamp_of_ms w ms = inr dt ->
  pg_execute w (DbUpdateWatch (dict_get resp "historyId") dt acc) = None ->
  filter (update_matches w acc) (gmail_mailbox_watches s) = [] ->
  exists s',
    renewal_worker_function w event s = (inr tt, s') /\
    gmail_mailbox_watches s' = gmail_mailbox_watches s /\
    db_ops s' = db_ops s ++ [DbConnect (getenv w "DATABASE_URL");
                             DbUpdateWatch (dict_get resp "historyId") dt acc; DbClose] /\
    logs s' = logs s ++ [processing_log uid em; setup_log w;
                         LogRecord INFO "Gmail watch renewal successful: {}" [PDict resp];
                         warning_no_watch acc; renewed_log uid].
Proof.
  intros Hdata Hd Hcfg Hb Hw Hurl Hc Hi Ht Hx Hnone.
  rewrite (renewal_worker_function_run _ _ d _ _ _ _ _ _ Hdata Hd).
  rewrite (worker_outcome_after_renewal _ _ _ _ _ _ resp _ Hcfg Hb Hw). cbv zeta.
  unfold update_outcome. cbv zeta. rewrite Hurl, Hc, Hi, Ht, Hx.
  replace (gmail_mailbox_watches (after_renew _ _ _)) with (gmail_mailbox_watches s)
    by (destruct s; reflexivity).
  rewrite Hnone. eexists. split; [reflexivity |].
  destruct s. simpl. rewrite <- !app_assoc. repeat split.
Qed.

Lemma worker_reports_success_without_active_row_witness :
  exists s',
    renewal_worker_function demo_world (deliver inactive_account_request) demo_state
    = (inr tt, s') /\
    gmail_mailbox_watches s' = gmail_mailbox_watches demo_state /\
    db_ops s' = db_ops demo_state
                ++ [DbConnect (getenv demo_world "DATABASE_URL");
                    DbUpdateWatch
                      (dict_get {[ "historyId" := PStr "999";
                                   "expiration" := PStr "1700604800000" ]} "historyId")
                      1700604800000000 (PStr "A3");
                    DbClose] /\
    logs s' = logs demo_state
              ++ [processing_log (PStr "U1") (PStr "u1@example.com"); setup_log demo_world;
                  LogRecord INFO "Gmail watch renewal successful: {}" [demo_watch_response];
                  warning_no_watch (PStr "A3"); renewed_log (PStr "U1")].
Proof.
  apply (worker_reports_success_without_active_row demo_world
           (deliver inactive_account_request) inactive_account_request
           {[ "historyId" := PStr "999"; "expiration" := PStr "1700604800000" ]}
           (PStr "A3") (PStr "U1") (PStr "u1@example.com")
           (PStr "ya29.token") (PStr "1//refresh") 1700604800000 1700604800000000
           demo_state).
  - reflexivity.
  - constructor; reflexivity.
  - reflexivity.
  - reflexivity.
  - reflexivity.
  - reflexivity.
  - reflexivity.
  - vm_compute. reflexivity.
  - reflexivity.
  - reflexivity.
  - reflexivity.
Defined.

(** ** Scanner: what an invocation publishes *)

Lemma publish_rows_frame w topic rows n s :
  let s' := snd (publish_rows w topic rows n s) in
  gmail_watches s' = gmail_watches s /\
  gmail_mailbox_watches s' = gmail_mailbox_watches s /\
  conn s' = conn s /\ db_ops s' = db_ops s /\ api_calls s' = api_calls s.
Proof.
  cbv zeta. revert n s. induction rows as [| row rows IH]; intros n s.
  - repeat split.
  - cbn [publish_rows].
    destruct (pubsub_publish w n topic _) as [e | message_id]; [repeat split |].
    destruct (IH (S n) (published s topic
                 (renewal_message w (w_user_id row) (w_email row) (w_watch_id row)
                    (utc_clock w (ticks s))) message_id (w_user_id row)))
      as (-> & -> & -> & -> & ->).
    repeat split.
Qed.

Lemma publish_rows_logs w topic rows n s :
  exists lg,
    logs (snd (publish_rows w topic rows n s)) = logs s ++ lg /\
    Forall (fun record => log_lvl record = INFO) lg.
Proof.
  revert n s. induction rows as [| row rows IH]; intros n s.
  - exists []. cbn. rewrite app_nil_r. split; [reflexivity | constructor].
  - cbn [publish_rows].
    destruct (pubsub_publish w n topic _) as [e | message_id].
    + exists []. cbn. rewrite app_nil_r. split; [reflexivity | constructor].
    + destruct (IH (S n) (published s topic
                   (renewal_message w (w_user_id row) (w_email row) (w_watch_id row)
                      (utc_clock w (ticks s))) message_id (w_user_id row)))
        as (lg & -> & Hlg).
      eexists (_ :: lg). cbn [published logs]. rewrite <- app_assoc.
      split; [reflexivity |]. constructor; [reflexivity | exact Hlg].
Qed.

Lemma publish_rows_queue w topic rows n s :
  exists msgs,
    queue (snd (publish_rows w topic rows n s)) = queue s ++ msgs /\
    (length msgs <= length rows)%nat /\
    (forall c, fst (publish_rows w topic rows n s) = inr c -> length msgs = length rows) /\
    (forall i row,
       rows !! i = Some row -> (i < length msgs)%nat ->
       msgs !! i
       = Some (topic,
               renewal_message w (w_user_id row) (w_email row) (w_watch_id row)
                 (utc_clock w (ticks s + i)))).
Proof.
  revert n s. induction rows as [| row rows IH]; intros n s.
  - exists []. cbn. rewrite app_nil_r.
    split; [reflexivity |]. split; [lia |]. split; [reflexivity |].
    intros i row _ Hi. lia.
  - cbn [publish_rows].
    destruct (pubsub_publish w n topic _) as [e | message_id].
    + exists []. cbn. rewrite app_nil_r.
      split; [reflexivity |]. split; [lia |]. split; [intros c [=] |].
      intros i row' _ Hi. lia.
    + destruct (IH (S n) (published s topic
                   (renewal_message w (w_user_id row) (w_email row) (w_watch_id row)
                      (utc_clock w (ticks s))) message_id (w_user_id row)))
        as (msgs & -> & Hlen & Hall & Hmsgs).
      eexists (_ :: msgs). cbn [published queue ticks] in *. rewrite <- app_assoc.
      split; [reflexivity |]. split; [cbn; lia |]. split.
      * intros c Hc. cbn [length]. now rewrite (Hall c Hc).
      * intros [| i] row' Hrow Hi.
        -- cbn in Hrow. injection Hrow as <-. now rewrite Nat.add_0_r.
        -- cbn in Hrow, Hi.
           replace (ticks s + S i)%nat with (S (ticks s) + i)%nat by lia.
           apply (Hmsgs i row' Hrow). lia.
Qed.

Lemma query_outcome_ticks w url hours s :
  ticks (snd (query_outcome w url hours s)) = S (ticks s) /\
  conn (snd (query_outcome w url hours s)) = conn s.
Proof.
  unfold query_outcome. cbv zeta.
  destruct (threshold_error w hours s); [repeat split |].
  destruct (pg_connect w url); [repeat split |].
  destruct (pg_execute w _); repeat split.
Qed.

(** X11.  What an invocation of the Scanner adds to the topic is a prefix
    of the eligible rows, in the order the server returns them (soonest
    expiration first, rows with the same expiration as the server orders
    them): the message of index [i] goes to the topic
    [projects/<GCP_PROJECT_ID>/topics/<renewal topic>] and carries the
    [user_id], [email] and [watch_id] of the eligible row of index [i], the
    action [renew_watch], and as timestamp the clock reading taken for that
    row.  With status 200 the prefix is the whole list. *)
Theorem scanner_publishes_prefix_in_order (w : world) (s : state) :
  let topic := topic_path_of (getenv w "GCP_PROJECT_ID")
                 (getenv w "GCP_PUB_SUB_GMAIL_WATCH_RENEWAL_TOPIC_ID") in
  exists resp s' msgs,
    watch_query_function w s = (inr resp, s') /\
    queue s' = queue s ++ msgs /\
    (length msgs <= length (eligible w s))%nat /\
    (statusCode resp = 200 -> length msgs = length (eligible w s)) /\
    (forall i row,
       eligible w s !! i = Some row -> (i < length msgs)%nat ->
       msgs !! i
       = Some (topic,
               renewal_message w (w_user_id row) (w_email row) (w_watch_id row)
                 (utc_clock w (S (ticks s) + i)))).
Proof.
  cbv zeta. rewrite watch_query_function_run. unfold scan_outcome, scan_error. cbv zeta.
  destruct (scanner_configured w).
  2:{ eexists _, _, []. split; [reflexivity |].
      split; [destruct s; cbn; now rewrite app_nil_r |].
      split; [cbn; lia |]. split; [intros [=] |]. intros i row _ Hi. cbn in Hi. lia. }
  destruct (query_outcome_frame w (getenv w "DATABASE_URL") default_hours_ahead
              (add_log trigger_log s)) as (Hq & _).
  destruct (query_outcome_ticks w (getenv w "DATABASE_URL") default_hours_ahead
              (add_log trigger_log s)) as (Hticks & _).
  set (s1 := snd (query_outcome w _ _ _)) in *.
  cbn [add_log set_logs queue ticks] in Hq, Hticks.
  destruct (query_error w s).
  { eexists _, _, []. split; [reflexivity |].
    split; [cbn [add_log set_logs queue]; now rewrite app_nil_r |].
    split; [cbn; lia |]. split; [intros [=] |]. intros i row _ Hi. cbn in Hi. lia. }
  destruct (eligible w s) as [| row0 rows] eqn:Hrows.
  { eexists _, _, []. split; [reflexivity |].
    split; [cbn [add_log set_logs queue]; now rewrite app_nil_r |].
    split; [cbn; lia |]. split; [reflexivity |]. intros i row _ Hi. cbn in Hi. lia. }
  unfold publish_outcome.
  destruct (pubsub_client w).
  { eexists _, _, []. split; [reflexivity |].
    split; [cbn [add_log set_logs queue]; now rewrite app_nil_r |].
    split; [cbn; lia |]. split; [intros [=] |]. intros i row _ Hi. cbn in Hi. lia. }
  destruct (publish_rows_queue w
              (topic_path_of (getenv w "GCP_PROJECT_ID")
                 (getenv w "GCP_PUB_SUB_GMAIL_WATCH_RENEWAL_TOPIC_ID"))
              (row0 :: rows) 0 s1) as (msgs & Hqueue & Hlen & Hall & Hmsgs).
  rewrite Hq, Hticks in *.
  destruct (publish_rows w _ (row0 :: rows) 0 s1) as [[e | n] s2];
    cbn [fst snd] in Hqueue, Hall.
  - exists (error_response e), (add_log (LogRecord ERROR "Error in watch query function: {}"
                                   [PStr (exn_str e)]) (add_log (publish_error_log e) s2)),
           msgs.
    split; [reflexivity |]. split; [exact Hqueue |]. split; [exact Hlen |].
    split; [intros [=] | exact Hmsgs].
  - exists (published_response n),
           (add_log (LogRecord INFO "Published {} renewal messages" [PInt (Z.of_nat n)]) s2),
           msgs.
    split; [reflexivity |]. split; [exact Hqueue |]. split; [exact Hlen |].
    split; [intros _; now apply (Hall n) | exact Hmsgs].
Qed.

(** ** Scanner: the store *)

(** X12.  The Scanner only reads the store.  Whatever the world, an
    invocation leaves both tables as they were, makes no Gmail call, and
    issues neither an UPDATE nor a commit: at most one connection and one
    SELECT.  It publishes only after the query has succeeded and its
    connection has been closed. *)
Theorem scanner_only_reads_the_store (w : world) (s : state) :
  let s' := snd (watch_query_function w s) in
  gmail_watches s' = gmail_watches s /\
  gmail_mailbox_watches s' = gmail_mailbox_watches s /\
  api_calls s' = api_calls s /\
  exists ops,
    db_ops s' = db_ops s ++ ops /\
    count_ops is_update ops = 0%nat /\
    count_ops is_commit ops = 0%nat /\
    (count_ops is_connect ops <= 1)%nat /\
    (count_ops is_select ops <= 1)%nat /\
    (queue s' <> queue s ->
       ops = [DbConnect (getenv w "DATABASE_URL");
              DbSelectExpiring (threshold_at w default_hours_ahead s); DbClose]).
Proof.
  cbv zeta. rewrite watch_query_function_run. unfold scan_outcome, scan_error. cbv zeta.
  destruct (scanner_configured w).
  2:{ destruct s. cbn. repeat split. exists []. rewrite app_nil_r.
      repeat split; try (unfold count_ops; vm_compute; lia); try (intros; congruence). }
  assert (Hquery :
    let s1 := snd (query_outcome w (getenv w "DATABASE_URL") default_hours_ahead
                     (add_log trigger_log s)) in
    gmail_watches s1 = gmail_watches s /\
    gmail_mailbox_watches s1 = gmail_mailbox_watches s /\
    api_calls s1 = api_calls s /\ queue s1 = queue s /\
    exists ops,
      db_ops s1 = db_ops s ++ ops /\
      count_ops is_update ops = 0%nat /\ count_ops is_commit ops = 0%nat /\
      (count_ops is_connect ops <= 1)%nat /\ (count_ops is_select ops <= 1)%nat /\
      (query_error w s = None ->
         ops = [DbConnect (getenv w "DATABASE_URL");
                DbSelectExpiring (threshold_at w default_hours_ahead s); DbClose])).
  { cbv zeta. unfold query_outcome, query_error. cbv zeta.
    replace (threshold_at w default_hours_ahead (add_log trigger_log s))
      with (threshold_at w default_hours_ahead s) by (destruct s; reflexivity).
    replace (threshold_error w default_hours_ahead (add_log trigger_log s))
      with (threshold_error w default_hours_ahead s) by (destruct s; reflexivity).
    destruct (threshold_error w default_hours_ahead s).
    { destruct s. cbn. repeat split. exists []. rewrite app_nil_r.
      repeat split; try (unfold count_ops; vm_compute; lia); try (intros; congruence). }
    destruct (pg_connect w _).
    { destruct s. cbn. repeat split. eexists. split; [reflexivity |].
      repeat split; try (unfold count_ops; vm_compute; lia); try (intros; congruence). }
    destruct (pg_execute w _).
    { destruct s. cbn. repeat split. eexists. split; [reflexivity |].
      repeat split; try (unfold count_ops; vm_compute; lia); try (intros; congruence). }
    destruct s. cbn. repeat split. eexists. split; [reflexivity |].
    repeat split; unfold count_ops; vm_compute; lia. }
  cbv zeta in Hquery.
  set (s1 := snd (query_outcome w _ _ _)) in *.
  destruct Hquery as (Hgw & Hmb & Hapi & Hq & ops & Hops & Hu & Hc & Hcn & Hsel & Hok).
  destruct (query_error w s).
  { cbn [snd add_log set_logs gmail_watches gmail_mailbox_watches api_calls db_ops queue].
    repeat split; try assumption. exists ops. repeat split; try assumption.
    intros; congruence. }
  specialize (Hok eq_refl).
  destruct (eligible w s) as [| row0 rows].
  { cbn [snd add_log set_logs gmail_watches gmail_mailbox_watches api_calls db_ops queue].
    repeat split; try assumption. exists ops. repeat split; try assumption; intros _; assumption. }
  unfold publish_outcome.
  destruct (pubsub_client w).
  { cbn [snd add_log set_logs gmail_watches gmail_mailbox_watches api_calls db_ops queue].
    repeat split; try assumption. exists ops. repeat split; try assumption; intros _; assumption. }
  destruct (publish_rows_frame w
              (topic_path_of (getenv w "GCP_PROJECT_ID")
                 (getenv w "GCP_PUB_SUB_GMAIL_WATCH_RENEWAL_TOPIC_ID"))
              (row0 :: rows) 0 s1) as (Hgw2 & Hmb2 & _ & Hops2 & Hapi2).
  destruct (publish_rows w _ (row0 :: rows) 0 s1) as [[e | n] s2]; cbn [fst snd] in *;
    cbn [snd add_log set_logs gmail_watches gmail_mailbox_watches api_calls db_ops queue];
    (split; [congruence |]); (split; [congruence |]); (split; [congruence |]);
    exists ops; (split; [congruence |]); repeat split; try assumption; intros _; assumption.
Qed.

Lemma threshold_error_overflow w hours s e :
  threshold_error w hours s = Some e -> exn_cls e = OverflowError.
Proof.
  unfold threshold_error, timedelta, datetime_add.
  destruct (_ && _); [| now intros [= <-]].
  destruct (_ && _); [discriminate | now intros [= <-]].
Qed.

(** X13.  [get_expiring_watches] closes the connection it opened exactly
    when it returns.  A call that returns has connected, issued the SELECT
    and closed the connection.  A call that raises has logged the error
    once and closed nothing: either the threshold overflowed and nothing was
    asked of the store, or the connection was refused, or the SELECT failed
    and the connection is left open, the function having no [finally]
    clause. *)
Theorem query_closes_connection_only_on_success
    (w : world) (database_url : option string) (hours_ahead : Z) (s : state) :
  let out := get_expiring_watches w database_url hours_ahead s in
  let query := DbSelectExpiring (threshold_at w hours_ahead s) in
  exists ops,
    db_ops (snd out) = db_ops s ++ ops /\
    (forall watches, fst out = inr watches ->
       ops = [DbConnect database_url; query; DbClose]) /\
    (forall e, fst out = inl e ->
       logs (snd out) = logs s ++ [query_error_log e] /\
       ((exn_cls e = OverflowError /\ ops = []) \/
        (pg_connect w database_url = Some e /\ ops = [DbConnect database_url]) \/
        (pg_connect w database_url = None /\ pg_execute w query = Some e /\
         ops = [DbConnect database_url; query]))).
Proof.
  cbv zeta. rewrite get_expiring_watches_run. unfold query_outcome. cbv zeta.
  destruct (threshold_error w hours_ahead s) as [e |] eqn:Ht.
  { exists []. cbn [fst snd after_query db_ops logs]. rewrite app_nil_r.
    split; [reflexivity |]. split; [intros l [=] |].
    intros e' [= <-]. split; [reflexivity |]. left.
    split; [now apply (threshold_error_overflow w hours_ahead s) | reflexivity]. }
  destruct (pg_connect w database_url) as [e |].
  { eexists. cbn [fst snd after_query db_ops logs].
    split; [reflexivity |]. split; [intros l [=] |].
    intros e' [= <-]. split; [reflexivity |]. right. left. split; reflexivity. }
  destruct (pg_execute w _) as [e |].
  - eexists. cbn [fst snd after_query db_ops logs].
    split; [reflexivity |]. split; [intros l [=] |].
    intros e' [= <-]. split; [reflexivity |]. right. right. repeat split.
  - eexists. cbn [fst snd after_query db_ops logs].
    split; [reflexivity |]. split; [reflexivity | intros e [=]].
Qed.

(** A failing SELECT leaves the connection open; an overflowing threshold
    never reaches the store. *)
Example query_failure_demo :
  let failed :=
    get_expiring_watches failing_query_world (getenv demo_world "DATABASE_URL") 2
      demo_state in
  let overflowed :=
    get_expiring_watches demo_world (getenv demo_world "DATABASE_URL") 100000000
      demo_state in
  fst failed = inl (Exn DatabaseError "relation does not exist") /\
  db_ops (snd failed)
  = [DbConnect (Some "postgresql://store/watches"); DbSelectExpiring 1700007200000000] /\
  fst overflowed = inl (Exn OverflowError "date value out of range") /\
  db_ops (snd overflowed) = [].
Proof. cbv zeta. repeat split; vm_compute; reflexivity. Qed.

(** X14.  Every dictionary [get_expiring_watches] returns has a string
    under [expiration_time], the ISO form of an instant no later than the
    threshold, next to the row's [user_id], [email] and [watch_id]: the
    query selects no row whose expiration is NULL, so the [None] of the
    conditional expression is never produced. *)
Theorem fetched_watch_has_expiration_string
    (w : world) (database_url : option string) (hours_ahead : Z) (s : state)
    (watches : list (gmap string pyval)) :
  fst (get_expiring_watches w database_url hours_ahead s) = inr watches ->
  Forall (fun watch =>
            exists row t,
              row ∈ gmail_watches s /\
              w_expiration_time row = Some t /\
              t <= threshold_at w hours_ahead s /\
              watch = {[ "user_id" := w_user_id row;
                         "email" := w_email row;
                         "watch_id" := w_watch_id row;
                         "expiration_time" := PStr (isoformat w t) ]})
         watches.
Proof.
  rewrite get_expiring_watches_run. unfold query_outcome. cbv zeta.
  destruct (threshold_error w hours_ahead s); [intros [=] |].
  destruct (pg_connect w database_url); [intros [=] |].
  destruct (pg_execute w _); [intros [=] |].
  cbn [fst]. intros [= <-].
  apply Forall_forall. intros watch Hin.
  apply list_elem_of_fmap in Hin. destruct Hin as (row & -> & Hrow).
  destruct (select_expiring_spec w (threshold_at w hours_ahead s) (gmail_watches s))
    as (_ & Hmem & _).
  apply Hmem in Hrow. destruct Hrow as (Hin & _ & t & Ht & Hle).
  exists row, t. repeat split; try assumption.
  unfold watch_dict. now rewrite Ht.
Qed.

Lemma fetched_watch_has_expiration_string_witness :
  Forall (fun watch =>
            exists row t,
              row ∈ gmail_watches demo_state /\
              w_expiration_time row = Some t /\
              t <= threshold_at demo_world 2 demo_state /\
              watch = {[ "user_id" := w_user_id row;
                         "email" := w_email row;
                         "watch_id" := w_watch_id row;
                         "expiration_time" := PStr (isoformat demo_world t) ]})
         (map (watch_dict demo_world)
            (select_expiring demo_world (threshold_at demo_world 2 demo_state) demo_watches)).
Proof.
  apply (fetched_watch_has_expiration_string demo_world
           (getenv demo_world "DATABASE_URL") 2 demo_state).
  reflexivity.
Defined.

(** ** Scanner and Worker: what a renewal changes for the next scan *)

(** X15.  A renewal by the Worker does not change what the Scanner
    selects.  The Worker writes [gmail_mailbox_watches] and never
    [gmail_watches], the table the Scanner reads: after any invocation of
    the Worker, in any world, the rows eligible for renewal are the rows
    that were eligible before. *)
Theorem worker_leaves_scanner_selection
    (w w' : world) (event : gmap string wire) (s : state) :
  eligible w (snd (renewal_worker_function w' event s)) = eligible w s.
Proof.
  unfold eligible, threshold_at.
  destruct (renewal_worker_function_cases w' event)
    as [Hlog | (d & acc & uid & em & a & r & _ & _ & Hrun)].
  - destruct (Hlog s) as (lg & ->). destruct s. reflexivity.
  - rewrite Hrun.
    destruct (worker_outcome_gmail_watches w' acc uid em a r s) as (-> & _ & ->).
    reflexivity.
Qed.

Lemma scanner_keeps_gmail_watches w s :
  gmail_watches (snd (watch_query_function w s)) = gmail_watches s.
Proof.
  rewrite watch_query_function_run. unfold scan_outcome, scan_error. cbv zeta.
  destruct (scanner_configured w); [| destruct s; reflexivity].
  destruct (query_outcome_frame w (getenv w "DATABASE_URL") default_hours_ahead
              (add_log trigger_log s)) as (_ & Hgw & _).
  set (s1 := snd (query_outcome w _ _ _)) in *.
  replace (gmail_watches (add_log trigger_log s)) with (gmail_watches s) in Hgw
    by (destruct s; reflexivity).
  destruct (query_error w s); [exact Hgw |].
  destruct (eligible w s) as [| row0 rows]; [exact Hgw |].
  unfold publish_outcome.
  destruct (pubsub_client w); [exact Hgw |].
  destruct (publish_rows_frame w
              (topic_path_of (getenv w "GCP_PROJECT_ID")
                 (getenv w "GCP_PUB_SUB_GMAIL_WATCH_RENEWAL_TOPIC_ID"))
              (row0 :: rows) 0 s1) as (Hgw2 & _).
  destruct (publish_rows w _ (row0 :: rows) 0 s1) as [[e | n] s2]; cbn [fst snd] in *;
    cbn [snd add_log set_logs gmail_watches]; congruence.
Qed.

(** X16.  The Scanner keeps no record of what it has published.  After an
    invocation, if the clock has not gone backwards, every row that was
    eligible is eligible again: the next invocation selects it once more. *)
Theorem scanner_selects_again_what_it_published (w : world) (s : state) :
  let s1 := snd (watch_query_function w s) in
  utc_clock w (ticks s) <= utc_clock w (ticks s1) ->
  Forall (fun row => row ∈ eligible w s1) (eligible w s).
Proof.
  cbv zeta. intros Hclock. apply Forall_forall. intros row.
  pose proof (scanner_keeps_gmail_watches w s) as Hgw.
  unfold eligible.
  destruct (select_expiring_spec w (threshold_at w default_hours_ahead s) (gmail_watches s))
    as (_ & Hmem & _).
  destruct (select_expiring_spec w
              (threshold_at w default_hours_ahead (snd (watch_query_function w s)))
              (gmail_watches (snd (watch_query_function w s))))
    as (_ & Hmem1 & _).
  rewrite Hmem, Hmem1, Hgw. intros (Hin & Hact & t & Ht & Hle).
  split; [exact Hin |]. split; [exact Hact |]. exists t. split; [exact Ht |].
  unfold threshold_at in *. lia.
Qed.

Lemma scanner_selects_again_what_it_published_witness :
  Forall (fun row =>
            row ∈ eligible demo_world (snd (watch_query_function demo_world demo_state)))
         (eligible demo_world demo_state).
Proof.
  apply (scanner_selects_again_what_it_published demo_world demo_state).
  apply Z.leb_le. vm_compute. reflexivity.
Defined.

(** ** Scanner: the log of an invocation *)

Lemma query_outcome_logs w s :
  exists record,
    logs (snd (query_outcome w (getenv w "DATABASE_URL") default_hours_ahead
                 (add_log trigger_log s)))
    = logs s ++ [trigger_log; record] /\
    (query_error w s = None -> log_lvl record = INFO).
Proof.
  unfold query_outcome, query_error. cbv zeta.
  replace (threshold_at w default_hours_ahead (add_log trigger_log s))
    with (threshold_at w default_hours_ahead s) by (destruct s; reflexivity).
  replace (threshold_error w default_hours_ahead (add_log trigger_log s))
    with (threshold_error w default_hours_ahead s) by (destruct s; reflexivity).
  destruct (threshold_error w default_hours_ahead s).
  { eexists. split; [destruct s; cbn; rewrite <- app_assoc; reflexivity | intros [=]]. }
  destruct s as [gw mb c ops api q lg tk].
  destruct (pg_connect w _).
  { eexists. split; [cbn; rewrite <- app_assoc; reflexivity | intros [=]]. }
  destruct (pg_execute w _).
  { eexists. split; [cbn; rewrite <- app_assoc; reflexivity | intros [=]]. }
  eexists. split; [cbn; rewrite <- app_assoc; reflexivity | reflexivity].
Qed.

(** X17.  The log of a Scanner invocation agrees with its answer.  After
    the trigger record, an invocation answering 200 has logged records of
    level INFO only; an invocation answering 500 ends its log with the error
    record of the entry point, whose text is the [error] of the response
    body. *)
Theorem scanner_log_matches_status (w : world) (s : state) :
  exists resp s' lg,
    watch_query_function w s = (inr resp, s') /\
    logs s' = logs s ++ trigger_log :: lg /\
    (statusCode resp = 200 -> Forall (fun record => log_lvl record = INFO) lg) /\
    (statusCode resp <> 200 ->
       exists earlier e,
         lg = earlier
              ++ [LogRecord ERROR "Error in watch query function: {}" [PStr (exn_str e)]] /\
         resp = error_response e).
Proof.
  rewrite watch_query_function_run. unfold scan_outcome, scan_error. cbv zeta.
  destruct (scanner_configured w).
  2:{ eexists _, _, [_]. split; [reflexivity |].
      split; [destruct s; cbn; rewrite <- app_assoc; reflexivity |].
      split; [intros [=] |]. intros _. exists [], (Exn ValueError "Missing required environment variables").
      split; reflexivity. }
  destruct (query_outcome_logs w s) as (record & Hlogs & Hinfo).
  set (s1 := snd (query_outcome w _ _ _)) in *.
  destruct (query_error w s) as [e |].
  { exists (error_response e), (add_log (LogRecord ERROR "Error in watch query function: {}"
                                   [PStr (exn_str e)]) s1),
           [record; LogRecord ERROR "Error in watch query function: {}" [PStr (exn_str e)]].
    split; [reflexivity |].
    split; [cbn [add_log set_logs logs]; rewrite Hlogs, <- app_assoc; reflexivity |].
    split; [intros [=] |]. intros _. exists [record], e. split; reflexivity. }
  specialize (Hinfo eq_refl).
  destruct (eligible w s) as [| row0 rows].
  { eexists _, _, [record; _]. split; [reflexivity |].
    split; [cbn [add_log set_logs logs]; rewrite Hlogs, <- app_assoc; reflexivity |].
    split; [intros _; repeat constructor; exact Hinfo |]. intros Hne. now destruct Hne. }
  unfold publish_outcome.
  destruct (pubsub_client w) as [e |].
  { exists (error_response e),
           (add_log (LogRecord ERROR "Error in watch query function: {}" [PStr (exn_str e)])
              (add_log (publish_error_log e) s1)),
           [record; publish_error_log e;
            LogRecord ERROR "Error in watch query function: {}" [PStr (exn_str e)]].
    split; [reflexivity |].
    split; [cbn [add_log set_logs logs]; rewrite Hlogs, <- !app_assoc; reflexivity |].
    split; [intros [=] |]. intros _. exists [record; publish_error_log e], e.
    split; reflexivity. }
  destruct (publish_rows_logs w
              (topic_path_of (getenv w "GCP_PROJECT_ID")
                 (getenv w "GCP_PUB_SUB_GMAIL_WATCH_RENEWAL_TOPIC_ID"))
              (row0 :: rows) 0 s1) as (lg & Hlg & Hall).
  destruct (publish_rows w _ (row0 :: rows) 0 s1) as [[e | n] s2]; cbn [fst snd] in Hlg.
  - exists (error_response e),
           (add_log (LogRecord ERROR "Error in watch query function: {}" [PStr (exn_str e)])
              (add_log (publish_error_log e) s2)),
           (record :: lg ++ [publish_error_log e;
              LogRecord ERROR "Error in watch query function: {}" [PStr (exn_str e)]]).
    split; [reflexivity |].
    split; [cbn [add_log set_logs logs]; rewrite Hlg, Hlogs, <- !app_assoc; reflexivity |].
    split; [intros [=] |]. intros _. exists (record :: lg ++ [publish_error_log e]), e.
    split; [| reflexivity]. cbn. rewrite <- app_assoc. reflexivity.
  - exists (published_response n),
           (add_log (LogRecord INFO "Published {} renewal messages" [PInt (Z.of_nat n)]) s2),
           (record :: lg ++ [LogRecord INFO "Published {} renewal messages"
                               [PInt (Z.of_nat n)]]).
    split; [reflexivity |].
    split; [cbn [add_log set_logs logs]; rewrite Hlg, Hlogs, <- !app_assoc; reflexivity |].
    split; [| intros Hne; now destruct Hne].
    intros _. constructor; [exact Hinfo |].
    apply Forall_app. split; [exact Hall | repeat constructor].
Qed.

(** ** Scanner: a watch without one of the fields of the message *)

Lemma publish_loop_missing_key w topic watch rest n s :
  (exists key, key ∈ message_keys /\ watch !! key = None) ->
  exists key,
    key ∈ message_keys /\ watch !! key = None /\
    publish_loop w topic (watch :: rest) n s = (inl (Exn KeyError (key_repr key)), s).
Proof.
  intros (key & Hkey & Hnone). cbn [publish_loop].
  destruct (watch !! "user_id") as [uid |] eqn:Hu.
  2:{ exists "user_id". split; [apply list_elem_of_In; simpl; tauto |]. split; [exact Hu |].
      now apply getitem_missing. }
  rewrite (getitem_run _ _ _ _ _ Hu).
  destruct (watch !! "email") as [em |] eqn:He.
  2:{ exists "email". split; [apply list_elem_of_In; simpl; tauto |]. split; [exact He |].
      now apply getitem_missing. }
  rewrite (getitem_run _ _ _ _ _ He).
  destruct (watch !! "watch_id") as [wid |] eqn:Hw.
  2:{ exists "watch_id". split; [apply list_elem_of_In; simpl; tauto |]. split; [exact Hw |].
      now apply getitem_missing. }
  exfalso. unfold message_keys in Hkey.
  apply list_elem_of_In in Hkey. simpl in Hkey.
  destruct Hkey as [<- | [<- | [<- | []]]]; congruence.
Qed.

Lemma publish_loop_stops_at_missing_key w topic rows watch rest n s :
  (forall i m, (i < length rows)%nat -> exists mid, pubsub_publish w (n + i) topic m = inr mid) ->
  (exists key, key ∈ message_keys /\ watch !! key = None) ->
  exists key s',
    key ∈ message_keys /\ watch !! key = None /\
    publish_loop w topic (map (watch_dict w) rows ++ watch :: rest) n s
    = (inl (Exn KeyError (key_repr key)), s') /\
    length (queue s') = (length (queue s) + length rows)%nat.
Proof.
  intros Hack Hmiss. revert n s Hack. induction rows as [| row rows IH]; intros n s Hack.
  - destruct (publish_loop_missing_key w topic watch rest n s Hmiss)
      as (key & Hkey & Hnone & Hrun).
    exists key, s. cbn [map app length]. repeat split; try assumption. lia.
  - destruct (watch_dict_fields w row) as (Hu & He & Hw).
    cbn [map app publish_loop].
    rewrite (getitem_run _ _ _ _ _ Hu), (getitem_run _ _ _ _ _ He),
      (getitem_run _ _ _ _ _ Hw).
    rewrite bind_utcnow. unfold publish. mstep.
    destruct (Hack 0%nat
                (renewal_message w (w_user_id row) (w_email row) (w_watch_id row)
                   (utc_clock w (ticks s)))) as (mid & Hmid); [cbn; lia |].
    rewrite Nat.add_0_r in Hmid. rewrite Hmid. mstep.
    match goal with
    | |- context [publish_loop w topic _ (S n) ?s1] =>
        destruct (IH (S n) s1) as (key & s' & Hkey & Hnone & Hrun & Hlen)
    end.
    { intros i m Hi. destruct (Hack (S i) m) as (mid' & Hm); [cbn; lia |].
      exists mid'. now replace (S n + i)%nat with (n + S i)%nat by lia. }
    exists key, s'. repeat split; try assumption.
    rewrite Hlen. destruct s. cbn. rewrite length_app. cbn. lia.
Qed.

(** X18.  [publish_renewal_messages] on a list in which a watch lacks
    [user_id], [email] or [watch_id]: with a broker that acknowledges, the
    watches before it are published, then the call logs and raises the
    [KeyError] of a missing key, whose text is the key between single
    quotes; that watch and the watches after it are not published. *)
Theorem publish_stops_at_watch_without_key
    (w : world) (project_id topic_id : option string) (rows : list watch_row)
    (watch : gmap string pyval) (rest : list (gmap string pyval)) (s : state) :
  pubsub_client w = None ->
  (forall i topic m, exists mid, pubsub_publish w i topic m = inr mid) ->
  (exists key, key ∈ message_keys /\ watch !! key = None) ->
  exists key s',
    key ∈ message_keys /\ watch !! key = None /\
    publish_renewal_messages w project_id topic_id
      (map (watch_dict w) rows ++ watch :: rest) s
    = (inl (Exn KeyError (key_repr key)), add_log (publish_error_log (Exn KeyError (key_repr key))) s') /\
    length (queue s') = (length (queue s) + length rows)%nat.
Proof.
  intros Hclient Hack Hmiss. unfold publish_renewal_messages.
  destruct (publish_loop_stops_at_missing_key w
              ("projects/" +:+ fstr project_id +:+ "/topics/" +:+ fstr topic_id)
              rows watch rest 0 s) as (key & s' & Hkey & Hnone & Hrun & Hlen);
    [intros i m _; apply Hack | exact Hmiss |].
  exists key, s'. repeat split; try assumption.
  erewrite try_except_inl by (rewrite Hclient; mstep; exact Hrun).
  mstep. reflexivity.
Qed.

Lemma publish_stops_at_watch_without_key_witness :
  exists key s',
    key ∈ message_keys /\
    ({[ "user_id" := PStr "U5"; "email" := PStr "u5@example.com" ]} : gmap string pyval)
      !! key = None /\
    publish_renewal_messages demo_world (Some "demo-project") (Some "gmail-watch-renewal")
      (map (watch_dict demo_world) demo_watches
       ++ {[ "user_id" := PStr "U5"; "email" := PStr "u5@example.com" ]} :: [])
      demo_state
    = (inl (Exn KeyError (key_repr key)), add_log (publish_error_log (Exn KeyError (key_repr key))) s') /\
    length (queue s') = (length (queue demo_state) + length demo_watches)%nat.
Proof.
  apply (publish_stops_at_watch_without_key demo_world (Some "demo-project")
           (Some "gmail-watch-renewal") demo_watches
           {[ "user_id" := PStr "U5"; "email" := PStr "u5@example.com" ]} [] demo_state).
  - reflexivity.
  - intros i topic m. eexists. reflexivity.
  - exists "watch_id". split; [apply list_elem_of_In; simpl; tauto | reflexivity].
Defined.
